(** * sdtconvert: rewriting SDT probe call sites in relocatable ELF objects

    A shallow embedding of [sdtconvert.c].  The program works on an ELF
    object through libelf handles; here the handle is a record holding the
    section list, a section pointer is the section's index, and the
    functions of the program thread that record explicitly.  [errx(1, ...)]
    is the [Fatal] outcome.  [Undefined] is the outcome of a run the model
    does not follow: behaviour that C leaves undefined (an access outside a
    buffer, a NULL string, a division by zero) and a loop whose 32-bit
    counter wraps before it reaches its bound.

    Memory allocation, [elf_version], [elf_flagdata] and the update calls
    on a valid handle are taken to succeed; [elf_update] is taken to write
    the sections as the handle has them. *)

From Stdlib Require Import ZArith Lia Bool.
From Stdlib.Strings Require Import String Byte.
From stdpp Require Import base tactics option list strings.

Local Open Scope Z_scope.

(** ** Machine integers *)

Definition u64 (z : Z) : Z := z mod 2 ^ 64.
Definition u32 (z : Z) : Z := z mod 2 ^ 32.

(** Conversion of a 32-bit pattern to [int]. *)
Definition to_int (z : Z) : Z :=
  let w := u32 z in if w <? 2 ^ 31 then w else w - 2 ^ 32.

(** [~x] on a 64-bit unsigned operand. *)
Definition not64 (z : Z) : Z := u64 (Z.lnot z).

Definition INT_MAX : Z := 2 ^ 31 - 1.

(** ** Constants of <elf.h>, <libelf.h> and of the program *)

Definition ET_REL : Z := 1.
Definition EM_X86_64 : Z := 62.
Definition EV_CURRENT : Z := 1.
Definition SHT_PROGBITS : Z := 1.
Definition SHT_STRTAB : Z := 3.
Definition SHT_RELA : Z := 4.
Definition SHT_REL : Z := 9.
Definition SHF_ALLOC : Z := 2.
Definition STT_NOTYPE : Z := 0.
Definition STB_GLOBAL : Z := 1.
Definition R_X86_64_NONE : Z := 0.

Definition GELF_R_SYM (info : Z) : Z := Z.shiftr info 32.
Definition GELF_R_TYPE (info : Z) : Z := Z.land info 0xffffffff.
Definition GELF_ST_BIND (i : Z) : Z := Z.shiftr i 4.
Definition GELF_ST_TYPE (i : Z) : Z := Z.land i 0xf.

Definition AMD64_CALL : byte := xe8.
Definition AMD64_JMP32 : byte := xe9.
Definition AMD64_NOP : byte := x90.
Definition AMD64_RETQ : byte := xc3.

#[global] Instance byte_eq_dec : EqDecision byte := Byte.byte_eq_dec.

(** ** C strings *)

(** The characters of a NUL-terminated string, without the terminator. *)
Abbreviation cstring := (list byte) (only parsing).

Definition cstr (s : string) : cstring := list_byte_of_string s.

Definition strlen (s : cstring) : Z := Z.of_nat (length s).

(** [strcmp(a, b) == 0] *)
Definition streq (a b : cstring) : bool := bool_decide (a = b).

(** [strncmp(a, b, n) == 0] *)
Definition strneq (a b : cstring) (n : Z) : bool :=
  bool_decide (take (Z.to_nat n) a = take (Z.to_nat n) b).

(** [s + n], for [n] at most [strlen(s)]. *)
Definition stradd (s : cstring) (n : Z) : cstring := drop (Z.to_nat n) s.

(** The string that starts at index [off] of a byte buffer. *)
Fixpoint until_nul (l : list byte) : cstring :=
  match l with
  | [] => []
  | b :: l' => if bool_decide (b = x00) then [] else b :: until_nul l'
  end.

Definition string_at (l : list byte) (off : Z) : cstring :=
  until_nul (drop (Z.to_nat off) l).

Definition probe_prefix : cstring := cstr "__dtrace_probe_".
Definition prefixlen : Z := Eval cbv in strlen probe_prefix.

(** ** Outcomes *)

(** The ways the program ends itself: [F_elf] for the [errx] that follows
    a failed libelf call, with the text that names the call; one
    constructor for each of the other [errx] and [err] calls, with the
    values their messages print; [F_assert] and [F_usage]. *)
Inductive fatal : Type :=
| F_elf (what : string)
| F_symtype (ty : Z) (symname : cstring)
| F_binding (bind : Z) (symname : cstring)
| F_opcode (opc : byte) (symname : cstring) (offset : Z)
| F_addr (symname : cstring) (offset : Z)
| F_machine (machine : Z)
| F_no_linker_set
| F_no_reloc_scn
| F_no_probe_reloc (symname : cstring)
| F_symndx (ndx : Z)
| F_open (obj : string)
| F_assert
| F_usage.

Inductive result (A : Type) : Type :=
| Ok (a : A)
| Fatal (f : fatal)
| Undefined.
Arguments Ok {A} a.
Arguments Fatal {A} f.
Arguments Undefined {A}.

#[global] Instance result_ret : MRet result := fun A a => Ok a.
#[global] Instance result_bind : MBind result := fun A B k m =>
  match m with
  | Ok a => k a
  | Fatal f => Fatal f
  | Undefined => Undefined
  end.

(** A library call that returns NULL on failure, followed by [errx]. *)
Definition or_errx {A} (o : option A) (what : string) : result A :=
  match o with Some a => Ok a | None => Fatal (F_elf what) end.

(** A pointer that is dereferenced without a NULL check. *)
Definition deref {A} (o : option A) : result A :=
  match o with Some a => Ok a | None => Undefined end.

(** Messages written with [LOG] and [warnx]. *)
Inductive msg : Type :=
| M_added_section (name : cstring)
| M_updated (symname : cstring) (addr : Z)
| M_skipping (name : cstring)
| M_no_probes (obj : string)
| M_found (offset : Z) (symname : cstring)
| M_invalid_type (obj : string).

(** ** The ELF object behind a libelf handle *)

Record GElf_Ehdr : Type := { e_type : Z; e_machine : Z }.

Record GElf_Shdr : Type := {
  sh_name : Z; sh_type : Z; sh_flags : Z; sh_addr : Z; sh_offset : Z;
  sh_size : Z; sh_link : Z; sh_info : Z; sh_addralign : Z; sh_entsize : Z }.

Record GElf_Sym : Type := {
  st_name : Z; st_info : Z; st_other : Z; st_shndx : Z; st_value : Z;
  st_size : Z }.

Record GElf_Rel : Type := { r_offset : Z; r_info : Z }.

(** [GElf_Rela]; its fields are [r_offset], [r_info] and [r_addend]. *)
Record GElf_Rela : Type := { ra_offset : Z; ra_info : Z; ra_addend : Z }.

Inductive Elf_Type : Type :=
| ELF_T_BYTE | ELF_T_REL | ELF_T_RELA | ELF_T_SYM | ELF_T_OTHER (n : Z).

(** The memory representation libelf gives a data buffer. *)
Inductive Buf : Type :=
| BBytes (l : list byte)
| BRel (l : list GElf_Rel)
| BRela (l : list GElf_Rela)
| BSym (l : list GElf_Sym).

Record Elf_Data : Type := {
  d_buf : Buf; d_type : Elf_Type; d_align : Z; d_version : Z;
  d_dirty : bool }.

Definition sizeof_GElf_Sym : Z := 24.
Definition sizeof_GElf_Rel : Z := 16.
Definition sizeof_GElf_Rela : Z := 24.

Definition d_size (d : Elf_Data) : Z :=
  match d_buf d with
  | BBytes l => Z.of_nat (length l)
  | BRel l => sizeof_GElf_Rel * Z.of_nat (length l)
  | BRela l => sizeof_GElf_Rela * Z.of_nat (length l)
  | BSym l => sizeof_GElf_Sym * Z.of_nat (length l)
  end.

Record Elf_Scn : Type := { s_shdr : GElf_Shdr; s_data : list Elf_Data }.

Record Elf : Type := {
  elf_ehdr : GElf_Ehdr; elf_shstrndx : Z; elf_scns : list Elf_Scn }.

(** The bytes a [uint8_t *] sees in a buffer; only byte buffers are
    given a byte view. *)
Definition buf_bytes (b : Buf) : list byte :=
  match b with BBytes l => l | _ => [] end.

Definition zero_shdr : GElf_Shdr :=
  {| sh_name := 0; sh_type := 0; sh_flags := 0; sh_addr := 0; sh_offset := 0;
     sh_size := 0; sh_link := 0; sh_info := 0; sh_addralign := 0;
     sh_entsize := 0 |}.

Definition set_sh_size (h : GElf_Shdr) (v : Z) : GElf_Shdr :=
  {| sh_name := sh_name h; sh_type := sh_type h; sh_flags := sh_flags h;
     sh_addr := sh_addr h; sh_offset := sh_offset h; sh_size := v;
     sh_link := sh_link h; sh_info := sh_info h;
     sh_addralign := sh_addralign h; sh_entsize := sh_entsize h |}.

Definition set_d_buf (d : Elf_Data) (b : Buf) : Elf_Data :=
  {| d_buf := b; d_type := d_type d; d_align := d_align d;
     d_version := d_version d; d_dirty := d_dirty d |}.

Definition set_d_dirty (d : Elf_Data) : Elf_Data :=
  {| d_buf := d_buf d; d_type := d_type d; d_align := d_align d;
     d_version := d_version d; d_dirty := true |}.

Definition set_scns (e : Elf) (l : list Elf_Scn) : Elf :=
  {| elf_ehdr := elf_ehdr e; elf_shstrndx := elf_shstrndx e; elf_scns := l |}.

(** ** libelf primitives *)

(** A section pointer is the section's index; a data pointer is a section
    index with the position of the buffer in that section's list. *)
Abbreviation scn_ptr := nat (only parsing).
Abbreviation data_ptr := (nat * nat)%type (only parsing).

Definition elf_getscn (e : Elf) (ndx : Z) : option scn_ptr :=
  if (0 <=? ndx) && (ndx <? Z.of_nat (length (elf_scns e)))
  then Some (Z.to_nat ndx) else None.

Definition elf_ndxscn (scn : scn_ptr) : Z := Z.of_nat scn.

(** The section pointers that repeated [elf_nextscn] calls yield from
    NULL: every section but the one at index 0. *)
Definition elf_sections (e : Elf) : list scn_ptr :=
  seq 1 (length (elf_scns e) - 1).

Definition gelf_getshdr (e : Elf) (scn : scn_ptr) : option GElf_Shdr :=
  s_shdr <$> elf_scns e !! scn.

Definition gelf_update_shdr (e : Elf) (scn : scn_ptr) (h : GElf_Shdr) : Elf :=
  set_scns e (alter (fun s => {| s_shdr := h; s_data := s_data s |}) scn
                    (elf_scns e)).

Definition scn_data (e : Elf) (scn : scn_ptr) : list Elf_Data :=
  match elf_scns e !! scn with Some s => s_data s | None => [] end.

(** [elf_getdata(scn, NULL)] *)
Definition elf_getdata_first (e : Elf) (scn : scn_ptr) : option data_ptr :=
  match scn_data e scn with [] => None | _ :: _ => Some (scn, 0%nat) end.

Definition get_data (e : Elf) (p : data_ptr) : option Elf_Data :=
  scn_data e p.1 !! p.2.

Definition update_data (e : Elf) (p : data_ptr) (f : Elf_Data → Elf_Data) : Elf :=
  set_scns e (alter (fun s => {| s_shdr := s_shdr s;
                                 s_data := alter f p.2 (s_data s) |}) p.1
                    (elf_scns e)).

(** [elf_newdata(scn)] followed by the assignments to the new descriptor. *)
Definition elf_newdata (e : Elf) (scn : scn_ptr) (d : Elf_Data) : Elf :=
  set_scns e (alter (fun s => {| s_shdr := s_shdr s;
                                 s_data := s_data s ++ [d] |}) scn
                    (elf_scns e)).

(** [elf_newscn(e)]: a section with a zeroed header and no data. *)
Definition elf_newscn (e : Elf) : Elf * scn_ptr :=
  (set_scns e (elf_scns e ++ [{| s_shdr := zero_shdr; s_data := [] |}]),
   length (elf_scns e)).

(** [elf_strptr(e, ndx, off)]: the buffers of string section [ndx] are
    walked in order, [count] being the bytes passed so far. *)
Fixpoint strptr_data (ds : list Elf_Data) (count off : Z) : option cstring :=
  match ds with
  | [] => None
  | d :: ds' =>
      match d_buf d with
      | BBytes l =>
          if off <? count + Z.of_nat (length l)
          then Some (string_at l (off - count))
          else strptr_data ds' (count + Z.of_nat (length l)) off
      | _ => None
      end
  end.

Definition elf_strptr (e : Elf) (ndx : Z) (off : Z) : option cstring :=
  scn ← elf_getscn e ndx;
  s ← elf_scns e !! scn;
  if bool_decide (sh_type (s_shdr s) = SHT_STRTAB) && (0 <=? off)
     && (off <? sh_size (s_shdr s))
  then strptr_data (s_data s) 0 off
  else None.

Definition gelf_getrel (d : Elf_Data) (i : Z) : option GElf_Rel :=
  match d_buf d with
  | BRel l => if 0 <=? i then l !! Z.to_nat i else None
  | _ => None
  end.

Definition gelf_getrela (d : Elf_Data) (i : Z) : option GElf_Rela :=
  match d_buf d with
  | BRela l => if 0 <=? i then l !! Z.to_nat i else None
  | _ => None
  end.

Definition gelf_update_rel (d : Elf_Data) (i : Z) (r : GElf_Rel) : Elf_Data :=
  match d_buf d with
  | BRel l => set_d_buf d (BRel (<[Z.to_nat i := r]> l))
  | _ => d
  end.

Definition gelf_update_rela (d : Elf_Data) (i : Z) (r : GElf_Rela) : Elf_Data :=
  match d_buf d with
  | BRela l => set_d_buf d (BRela (<[Z.to_nat i := r]> l))
  | _ => d
  end.

(** ** Byte buffers behind a [uint8_t *] *)

Definition load (target : list byte) (idx : Z) : result byte :=
  if 0 <=? idx then deref (target !! Z.to_nat idx) else Undefined.

Definition store (target : list byte) (idx : Z) (b : byte) : result (list byte) :=
  if (0 <=? idx) && (idx <? Z.of_nat (length target))
  then Ok (<[Z.to_nat idx := b]> target) else Undefined.

Definition memset (target : list byte) (idx : Z) (c : byte) (n : nat)
  : result (list byte) :=
  if (0 <=? idx) && (idx + Z.of_nat n <=? Z.of_nat (length target))
  then Ok (list_inserts (Z.to_nat idx) (replicate n c) target) else Undefined.

(** ** The probe-instance list and the instance record *)

Record probe_instance : Type := { symname : cstring; offset : Z }.

(** The [SLIST] of instances, head first. *)
Abbreviation probe_list := (list probe_instance) (only parsing).

Definition byte_of_Z (z : Z) : byte :=
  match Byte.of_N (Z.to_N (z mod 256)) with Some b => b | None => x00 end.

Definition Z_of_byte (b : byte) : Z := Z.of_N (Byte.to_N b).

(** The [n] low bytes of [z], least significant first. *)
Fixpoint le_bytes (n : nat) (z : Z) : list byte :=
  match n with
  | O => []
  | S n' => byte_of_Z z :: le_bytes n' (Z.shiftr z 8)
  end.

Fixpoint le_value (l : list byte) : Z :=
  match l with
  | [] => 0
  | b :: l' => Z_of_byte b + 256 * le_value l'
  end.

(** Modelled from the spec: [struct sdt_instance] of <sys/sdt.h>, a
    pointer-sized [probe] field followed by a 64-bit [offset], 16 bytes on
    the little-endian 64-bit host. *)
Definition sizeof_sdt_instance : Z := 16.

Definition sdt_instance_bytes (probe off : Z) : list byte :=
  le_bytes 8 probe ++ le_bytes 8 off.

(** The state the loops of the program thread: the object, the instance
    list and the messages written so far. *)
Abbreviation state := (Elf * probe_list * list msg)%type (only parsing).

(** ** The program *)

Section Program.

Variable verbose : bool.

Definition LOG (m : msg) (out : list msg) : list msg :=
  if verbose then out ++ [m] else out.

Definition add_section (e : Elf) (name : cstring) (type flags : Z)
    (out : list msg) : result (Elf * scn_ptr * list msg) :=
  let shdrstrndx := elf_shstrndx e in
  strscn ← or_errx (elf_getscn e shdrstrndx) "elf_getscn on shdrstrtab";
  strshdr ← or_errx (gelf_getshdr e strscn) "gelf_getshdr on shdrstrtab";
  strdata ← or_errx (elf_getdata_first e strscn ≫= get_data e)
                    "elf_getdata on shdrstrtab";
  let len := u64 (strlen name + 1) in
  let newstrdata :=
    {| d_buf := BBytes (name ++ [x00]); d_type := d_type strdata;
       d_align := d_align strdata; d_version := EV_CURRENT;
       d_dirty := false |} in
  let e := elf_newdata e strscn newstrdata in
  let strshdr := set_sh_size strshdr (u64 (sh_size strshdr + len)) in
  let '(e, newscn) := elf_newscn e in
  newshdr ← or_errx (gelf_getshdr e newscn) "gelf_getshdr";
  let newshdr :=
    {| sh_name := u32 (u64 (sh_size strshdr - len)); sh_type := u32 type;
       sh_flags := u64 flags; sh_addr := sh_addr newshdr;
       sh_offset := sh_offset newshdr; sh_size := sh_size newshdr;
       sh_link := sh_link newshdr; sh_info := sh_info newshdr;
       sh_addralign := 8; sh_entsize := sh_entsize newshdr |} in
  let e := gelf_update_shdr e newscn newshdr in
  let e := gelf_update_shdr e strscn strshdr in
  Ok (e, newscn, LOG (M_added_section name) out).

(** The name pointer is NULL when [elf_strptr] fails. *)
Definition get_scn_name (e : Elf) (scn : scn_ptr) : result (option cstring) :=
  shdr ← or_errx (gelf_getshdr e scn) "gelf_getshdr";
  Ok (elf_strptr e (elf_shstrndx e) (sh_name shdr)).

Definition symlookup (e : Elf) (symtab : scn_ptr) (ndx : Z) : result GElf_Sym :=
  symdata ← or_errx (elf_getdata_first e symtab ≫= get_data e)
                    "couldn't find symbol table data";
  if ndx =? INT_MAX then Undefined
  else if d_size symdata <? u64 ((ndx + 1) * sizeof_GElf_Sym)
  then Fatal (F_symndx ndx)
  else match d_buf symdata with
       | BSym l => if 0 <=? ndx then deref (l !! Z.to_nat ndx) else Undefined
       | _ => Undefined
       end.

(** The machine-specific part of [process_rel]: the [switch] on
    [e_machine].  It yields the text buffer and the info word. *)
Definition rewrite_site (ehdr : GElf_Ehdr) (symname : cstring)
    (target : list byte) (offset info : Z) : result (list byte * Z) :=
  if e_machine ehdr =? EM_X86_64 then
    opc ← load target (u64 (offset - 1));
    if bool_decide (opc ≠ AMD64_CALL) && bool_decide (opc ≠ AMD64_JMP32)
    then Fatal (F_opcode opc symname offset)
    else
      b0 ← load target (u64 (offset + 0));
      if bool_decide (b0 ≠ x00) then Fatal (F_addr symname offset) else
      b1 ← load target (u64 (offset + 1));
      if bool_decide (b1 ≠ x00) then Fatal (F_addr symname offset) else
      b2 ← load target (u64 (offset + 2));
      if bool_decide (b2 ≠ x00) then Fatal (F_addr symname offset) else
      b3 ← load target (u64 (offset + 3));
      if bool_decide (b3 ≠ x00) then Fatal (F_addr symname offset) else
      target ← memset target (u64 (offset - 1)) AMD64_NOP 5;
      target ← (if bool_decide (opc = AMD64_JMP32)
                then store target (u64 (offset - 1)) AMD64_RETQ
                else Ok target);
      let info := Z.land info (not64 (GELF_R_TYPE info)) in
      let info := Z.lor info R_X86_64_NONE in
      Ok (target, info)
  else Fatal (F_machine (e_machine ehdr)).

(** [target], [*info] and [*plist] are passed in and handed back; the
    first component is the return value. *)
Definition process_rel (e : Elf) (ehdr : GElf_Ehdr) (symshdr : GElf_Shdr)
    (symtab : scn_ptr) (target : list byte) (offset info : Z)
    (plist : probe_list) (out : list msg)
  : result (Z * list byte * Z * probe_list * list msg) :=
  sym ← symlookup e symtab (to_int (GELF_R_SYM info));
  symname ← or_errx (elf_strptr e (sh_link symshdr) (st_name sym)) "elf_strptr";
  if negb (strneq symname probe_prefix prefixlen)
  then Ok (1, target, info, plist, out)
  else if negb (GELF_ST_TYPE (st_info sym) =? STT_NOTYPE)
  then Fatal (F_symtype (GELF_ST_TYPE (st_info sym)) symname)
  else if negb (GELF_ST_BIND (st_info sym) =? STB_GLOBAL)
  then Fatal (F_binding (GELF_ST_BIND (st_info sym)) symname)
  else
    '(target, info) ← rewrite_site ehdr symname target offset info;
    let out := LOG (M_updated symname (u64 (offset - 1))) out in
    let inst := {| symname := symname; offset := offset |} in
    Ok (0, target, info, inst :: plist, out).

(** The body of the inner [for] loop of [process_reloc_scn], for entry [i]
    of the buffer [reldata]. *)
Definition process_entry (ehdr : GElf_Ehdr) (shdr symshdr : GElf_Shdr)
    (symscn : scn_ptr) (targdata reldata : data_ptr) (i : Z) (st : state)
  : result state :=
  let '(e, plist, out) := st in
  rd ← deref (get_data e reldata);
  td ← deref (get_data e targdata);
  let target := buf_bytes (d_buf td) in
  if sh_type shdr =? SHT_REL then
    rel ← or_errx (gelf_getrel rd i) "gelf_getrel";
    '(ret, target, info, plist, out) ←
      process_rel e ehdr symshdr symscn target (r_offset rel) (r_info rel)
                  plist out;
    if ret =? 0 then
      let rel := {| r_offset := r_offset rel; r_info := info |} in
      let e := update_data e targdata (fun d => set_d_buf d (BBytes target)) in
      let e := update_data e reldata (fun d => gelf_update_rel d i rel) in
      let e := update_data e targdata set_d_dirty in
      let e := update_data e reldata set_d_dirty in
      Ok (e, plist, out)
    else Ok (e, plist, out)
  else if negb (sh_type shdr =? SHT_RELA) then Fatal F_assert
  else
    rela ← or_errx (gelf_getrela rd i) "gelf_getrela";
    '(ret, target, info, plist, out) ←
      process_rel e ehdr symshdr symscn target (ra_offset rela) (ra_info rela)
                  plist out;
    if ret =? 0 then
      let rela := {| ra_offset := ra_offset rela; ra_info := info;
                     ra_addend := ra_addend rela |} in
      let e := update_data e targdata (fun d => set_d_buf d (BBytes target)) in
      let e := update_data e reldata (fun d => gelf_update_rela d i rela) in
      let e := update_data e targdata set_d_dirty in
      let e := update_data e reldata set_d_dirty in
      Ok (e, plist, out)
    else Ok (e, plist, out).

(** The entry count [sh_size / sh_entsize] of a relocation section. *)
Definition entry_count (shdr : GElf_Shdr) : result Z :=
  if sh_entsize shdr =? 0 then Undefined
  else Ok (sh_size shdr / sh_entsize shdr).

(** The iterations of [for (; i < n; i++)] the model follows.  The
    counter is a [u_int]: from [i] it reaches [n], or it reaches 2^32
    first and starts again from 0. *)
Definition loop_fuel (n i : Z) : nat := Z.to_nat (Z.min n (2 ^ 32) - i).

(** [for (; i < n; i++)] with [n] the entry count.  The counter is handed
    back: the next buffer goes on from it. *)
Fixpoint entry_loop (fuel : nat) (ehdr : GElf_Ehdr) (shdr symshdr : GElf_Shdr)
    (symscn : scn_ptr) (targdata reldata : data_ptr) (n i : Z) (st : state)
  : result (Z * state) :=
  if negb (i <? n) then Ok (i, st) else
  match fuel with
  | O => Undefined
  | S fuel' =>
      st ← process_entry ehdr shdr symshdr symscn targdata reldata i st;
      entry_loop fuel' ehdr shdr symshdr symscn targdata reldata n
                 (u32 (i + 1)) st
  end.

(** The outer loop over the buffers [elf_getdata] yields for [scn]; [ks]
    are the positions of the buffers still to come. *)
Fixpoint data_loop (ks : list nat) (ehdr : GElf_Ehdr) (shdr symshdr : GElf_Shdr)
    (scn symscn : scn_ptr) (targdata : data_ptr) (i : Z) (st : state)
  : result state :=
  match ks with
  | [] => Ok st
  | k :: ks' =>
      n ← entry_count shdr;
      '(i, st) ← entry_loop (loop_fuel n i) ehdr shdr symshdr symscn
                            targdata (scn, k) n i st;
      data_loop ks' ehdr shdr symshdr scn symscn targdata i st
  end.

Definition process_reloc_scn (e : Elf) (ehdr : GElf_Ehdr) (shdr : GElf_Shdr)
    (scn : scn_ptr) (plist : probe_list) (out : list msg) : result state :=
  targscn ← or_errx (elf_getscn e (sh_info shdr))
                    "failed to look up relocation section";
  targdata ← or_errx (elf_getdata_first e targscn)
                     "failed to look up target section data";
  name ← get_scn_name e targscn;
  name ← deref name;
  if negb (streq name (cstr ".text"))
  then Ok (e, plist, LOG (M_skipping name) out)
  else
    symscn ← or_errx (elf_getscn e (sh_link shdr))
                     "failed to look up symbol table";
    symshdr ← or_errx (gelf_getshdr e symscn)
                      "failed to look up symbol table header";
    data_loop (seq 0 (length (scn_data e scn))) ehdr shdr symshdr scn symscn
              targdata 0 (e, plist, out).

(** Look up an ELF section by name. *)
Fixpoint section_by_name_from (e : Elf) (name : cstring) (scns : list scn_ptr)
  : result (option scn_ptr) :=
  match scns with
  | [] => Ok None
  | scn :: scns' =>
      n ← get_scn_name e scn;
      n ← deref n;
      if streq n name then Ok (Some scn)
      else section_by_name_from e name scns'
  end.

Definition section_by_name (e : Elf) (name : cstring) : result (option scn_ptr) :=
  section_by_name_from e name (elf_sections e).

(** The first loop of [record_instance]: the relocation section of the
    probe linker set, with the symbol table it links to and that table's
    header. *)
Fixpoint find_proberelscn (e : Elf) (probescn : scn_ptr) (scns : list scn_ptr)
  : result (option (scn_ptr * GElf_Shdr * scn_ptr * GElf_Shdr)) :=
  match scns with
  | [] => Ok None
  | proberelscn :: scns' =>
      proberelshdr ← or_errx (gelf_getshdr e proberelscn) "gelf_getshdr";
      if ((sh_type proberelshdr =? SHT_REL) || (sh_type proberelshdr =? SHT_RELA))
         && (sh_info proberelshdr =? elf_ndxscn probescn)
      then
        symtab ← or_errx (elf_getscn e (sh_link proberelshdr))
                         "couldn't find symtab";
        symshdr ← or_errx (gelf_getshdr e symtab) "gelf_getshdr";
        Ok (Some (proberelscn, proberelshdr, symtab, symshdr))
      else find_proberelscn e probescn scns'
  end.

(** The inner [for] loop of the search in [record_instance].  [break]
    leaves the loop with the counter where it is and [found] set. *)
Fixpoint match_loop (fuel : nat) (e : Elf) (proberelshdr symshdr : GElf_Shdr)
    (symtab : scn_ptr) (inst : probe_instance) (probereldata : Elf_Data)
    (n i : Z) (found : bool) (out : list msg) : result (Z * bool * list msg) :=
  if negb (i <? n) then Ok (i, found, out) else
  match fuel with
  | O => Undefined
  | S fuel' =>
      '(info, off) ←
        (if sh_type proberelshdr =? SHT_REL then
           rel ← or_errx (gelf_getrel probereldata i) "gelf_getrel";
           Ok (r_info rel, r_offset rel)
         else if negb (sh_type proberelshdr =? SHT_RELA) then Fatal F_assert
         else
           rela ← or_errx (gelf_getrela probereldata i) "gelf_getrela";
           Ok (ra_info rela, ra_offset rela));
      sym ← symlookup e symtab (to_int (GELF_R_SYM info));
      name ← deref (elf_strptr e (sh_link symshdr) (st_name sym));
      if strlen name <? prefixlen
      then match_loop fuel' e proberelshdr symshdr symtab inst probereldata
                      n (u32 (i + 1)) found out
      else if streq (stradd name (strlen (cstr "sdt_")))
                    (stradd (symname inst) prefixlen)
      then Ok (i, true, LOG (M_found off (symname inst)) out)
      else match_loop fuel' e proberelshdr symshdr symtab inst probereldata
                      n (u32 (i + 1)) found out
  end.

(** The outer loop of the search, over the buffers of [proberelscn]. *)
Fixpoint match_data_loop (ds : list Elf_Data) (e : Elf)
    (proberelshdr symshdr : GElf_Shdr) (symtab : scn_ptr)
    (inst : probe_instance) (i : Z) (found : bool) (out : list msg)
  : result (bool * list msg) :=
  match ds with
  | [] => Ok (found, out)
  | probereldata :: ds' =>
      n ← entry_count proberelshdr;
      '(i, found, out) ← match_loop (loop_fuel n i) e proberelshdr symshdr
                                    symtab inst probereldata n i found out;
      match_data_loop ds' e proberelshdr symshdr symtab inst i found out
  end.

Definition record_instance (e : Elf) (ehdr : GElf_Ehdr)
    (instscn relscn : scn_ptr) (inst : probe_instance) (out : list msg)
  : result (Elf * list msg) :=
  _ ← or_errx (gelf_getshdr e instscn) "elf_newdata";
  let instdata :=
    {| d_buf := BBytes (sdt_instance_bytes 0 (offset inst));
       d_type := ELF_T_BYTE; d_align := 1; d_version := EV_CURRENT;
       d_dirty := false |} in
  let sz := sizeof_sdt_instance in
  let e := elf_newdata e instscn instdata in
  instshdr ← or_errx (gelf_getshdr e instscn) "gelf_getshdr";
  let instshdr := set_sh_size instshdr (u64 (sh_size instshdr + sz)) in
  probescn ← section_by_name e (cstr "set_sdt_probes_set");
  match probescn with
  | None => Fatal F_no_linker_set
  | Some probescn =>
      r ← find_proberelscn e probescn (elf_sections e);
      match r with
      | None => Fatal F_no_reloc_scn
      | Some (proberelscn, proberelshdr, symtab, symshdr) =>
          '(found, out) ← match_data_loop (scn_data e proberelscn) e
                            proberelshdr symshdr symtab inst 0 false out;
          if negb found then Fatal (F_no_probe_reloc (symname inst))
          else Ok (gelf_update_shdr e instscn instshdr, out)
      end
  end.

(** The scan of [process_obj]: every relocation section, in the order
    [elf_nextscn] yields them. *)
Fixpoint scan_sections (scns : list scn_ptr) (ehdr : GElf_Ehdr) (st : state)
  : result state :=
  match scns with
  | [] => Ok st
  | scn :: scns' =>
      let '(e, plist, out) := st in
      shdr ← or_errx (gelf_getshdr e scn) "gelf_getshdr";
      st ← (if (sh_type shdr =? SHT_REL) || (sh_type shdr =? SHT_RELA)
            then process_reloc_scn e ehdr shdr scn plist out
            else Ok st);
      scan_sections scns' ehdr st
  end.

(** [SLIST_FOREACH_SAFE] over the instance list, from its head. *)
Fixpoint record_instances (plist : probe_list) (e : Elf) (ehdr : GElf_Ehdr)
    (instscn instrelscn : scn_ptr) (out : list msg) : result (Elf * list msg) :=
  match plist with
  | [] => Ok (e, out)
  | inst :: plist' =>
      '(e, out) ← record_instance e ehdr instscn instrelscn inst out;
      record_instances plist' e ehdr instscn instrelscn out
  end.

(** What [process_obj] does between [gelf_getehdr] and [elf_update]: the
    object to write, if any, and the messages. *)
Definition process_elf (obj : string) (e : Elf) (out : list msg)
  : result (option Elf * list msg) :=
  let ehdr := elf_ehdr e in
  if negb (e_type ehdr =? ET_REL)
  then Ok (None, out ++ [M_invalid_type obj])
  else
    '(e, plist, out) ← scan_sections (elf_sections e) ehdr (e, [], out);
    match plist with
    | [] => Ok (None, LOG (M_no_probes obj) out)
    | _ :: _ =>
        '(e, instscn, out) ← add_section e (cstr "set_sdt_instance_set")
                                         SHT_PROGBITS SHF_ALLOC out;
        '(e, instrelscn, out) ← add_section e (cstr ".relaset_sdt_instance_set")
                                            SHT_RELA 0 out;
        '(e, out) ← record_instances plist e ehdr instscn instrelscn out;
        Ok (Some e, out)
    end.

End Program.

(** ** Files and the driver *)

(** What [elf_begin] and [gelf_getehdr] make of a file: an ELF object, or
    something that has no ELF header. *)
Inductive file : Type :=
| NotElf
| ElfFile (e : Elf).

(** The files by path; a path without a file cannot be opened. *)
Definition files : Type := string → option file.

Definition write_file (fs : files) (obj : string) (f : file) : files :=
  fun p => if bool_decide (p = obj) then Some f else fs p.

Definition process_obj (verbose : bool) (obj : string) (fs : files)
    (out : list msg) : result (files * list msg) :=
  match fs obj with
  | None => Fatal (F_open obj)
  | Some NotElf => Fatal (F_elf "gelf_getehdr")
  | Some (ElfFile e) =>
      '(w, out) ← process_elf verbose obj e out;
      match w with
      | None => Ok (fs, out)
      | Some e' => Ok (write_file fs obj (ElfFile e'), out)
      end
  end.

(** [for (int i = 1; i < argc; i++) process_obj(argv[i]);] *)
Fixpoint process_objs (verbose : bool) (objs : list string) (fs : files)
    (out : list msg) : result (files * list msg) :=
  match objs with
  | [] => Ok (fs, out)
  | obj :: objs' =>
      '(fs, out) ← process_obj verbose obj fs out;
      process_objs verbose objs' fs out
  end.

(** [main]: the exit status with the files and messages left behind.
    [argv] holds the program name first. *)
Definition main (argv : list string) (fs : files)
  : result (Z * files * list msg) :=
  let '(verbose, argv) :=
    match argv with
    | prog :: flag :: rest =>
        if bool_decide (flag = "-v"%string) then (true, flag :: rest)
        else (false, argv)
    | _ => (false, argv)
    end in
  if Z.of_nat (length argv) <=? 1 then Fatal F_usage
  else
    '(fs, out) ← process_objs verbose (drop 1 argv) fs [];
    Ok (0, fs, out).

(** The exit status of the process: what [main] returns, 1 after [errx],
    [err] and [usage]; a failed [assert] ends the process with a signal. *)
Definition exit_status (r : result (Z * files * list msg)) : option Z :=
  match r with
  | Ok (st, _, _) => Some st
  | Fatal F_assert => None
  | Fatal _ => Some 1
  | Undefined => None
  end.

(** ** Observations on an object *)

(** The [n] bytes of a buffer from index [idx] on. *)
Definition bytes_at (l : list byte) (idx : Z) (n : nat) : list byte :=
  take n (drop (Z.to_nat idx) l).

(** Offset and info word of entry [i] of a relocation buffer of either
    shape. *)
Definition reloc_at (d : Elf_Data) (i : Z) : option (Z * Z) :=
  match d_buf d with
  | BRel _ => (fun r => (r_offset r, r_info r)) <$> gelf_getrel d i
  | BRela _ => (fun r => (ra_offset r, ra_info r)) <$> gelf_getrela d i
  | _ => None
  end.

(** Entry [i] of a relocation buffer in full: offset, info word, and the
    addend an [SHT_RELA] entry has. *)
Definition entry_at (d : Elf_Data) (i : Z) : option (Z * Z * option Z) :=
  match d_buf d with
  | BRel _ => (fun r => (r_offset r, r_info r, None)) <$> gelf_getrel d i
  | BRela _ =>
      (fun r => (ra_offset r, ra_info r, Some (ra_addend r)))
        <$> gelf_getrela d i
  | _ => None
  end.

(** The info word once its type has been cleared and set to
    [R_X86_64_NONE], as [process_rel] computes it. *)
Definition neutralized (info : Z) : Z :=
  Z.lor (Z.land info (not64 (GELF_R_TYPE info))) R_X86_64_NONE.

(** The contents of a section: its buffers one after the other. *)
Definition section_bytes (e : Elf) (scn : scn_ptr) : list byte :=
  concat ((fun d => buf_bytes (d_buf d)) <$> scn_data e scn).

(** The [probe] and [offset] fields of a 16-byte instance record. *)
Definition decode_instance (l : list byte) : Z * Z :=
  (le_value (take 8 l), le_value (take 8 (drop 8 l))).

(** The instance records a byte sequence holds. *)
Definition records_of (l : list byte) : list (Z * Z) :=
  (fun i => decode_instance (take 16 (drop (16 * i) l)))
    <$> seq 0 (length l / 16).

Definition instance_records (e : Elf) (scn : scn_ptr) : list (Z * Z) :=
  records_of (section_bytes e scn).

(** The number of relocation entries in the buffers of a section. *)
Definition reloc_count (e : Elf) (scn : scn_ptr) : nat :=
  sum_list ((fun d => match d_buf d with
                      | BRel l => length l
                      | BRela l => length l
                      | _ => 0%nat
                      end) <$> scn_data e scn).

(** The call sites the messages report as rewritten, in the order they
    were written: symbol name and the address [offset - 1] logged. *)
Definition rewritten_sites (out : list msg) : list (cstring * Z) :=
  omap (fun m => match m with
                 | M_updated s a => Some (s, a)
                 | _ => None
                 end) out.

(** ** Sample objects *)

(** A string table: a leading NUL, then the names with their
    terminators; [str_off names k] is the offset of the [k]-th name. *)
Definition strtab_of (names : list cstring) : list byte :=
  x00 :: concat ((fun n => n ++ [x00]) <$> names).

Fixpoint str_off (names : list cstring) (k : nat) : Z :=
  match k, names with
  | S k', n :: names' => strlen n + 1 + str_off names' k'
  | _, _ => 1
  end.

Definition mk_shdr (name type size link info entsize : Z) : GElf_Shdr :=
  {| sh_name := name; sh_type := type; sh_flags := 0; sh_addr := 0;
     sh_offset := 0; sh_size := size; sh_link := link; sh_info := info;
     sh_addralign := 1; sh_entsize := entsize |}.

Definition mk_data (b : Buf) (t : Elf_Type) : Elf_Data :=
  {| d_buf := b; d_type := t; d_align := 1; d_version := EV_CURRENT;
     d_dirty := false |}.

Definition mk_sym (name info : Z) : GElf_Sym :=
  {| st_name := name; st_info := info; st_other := 0; st_shndx := 0;
     st_value := 0; st_size := 0 |}.

Definition mk_rela (off sym type : Z) : GElf_Rela :=
  {| ra_offset := off; ra_info := Z.lor (Z.shiftl sym 32) type;
     ra_addend := -4 |}.

Definition R_X86_64_64 : Z := 1.
Definition R_X86_64_PLT32 : Z := 4.
Definition SHT_SYMTAB : Z := 2.

Definition shnames : list cstring :=
  cstr <$> [".text"; ".rela.text"; "set_sdt_probes_set";
            ".relaset_sdt_probes_set"; ".symtab"; ".strtab";
            ".shstrtab"]%string.

(** An object of the given type with sections [.text] (1), [.rela.text]
    (2), [set_sdt_probes_set] (3), its relocation section (4), [.symtab]
    (5), [.strtab] (6) and [.shstrtab] (7). *)
Definition mk_obj (type : Z) (text : list byte) (symnames : list cstring)
    (syms : list GElf_Sym) (textrels proberels : list GElf_Rela) : Elf :=
  {| elf_ehdr := {| e_type := type; e_machine := EM_X86_64 |};
     elf_shstrndx := 7;
     elf_scns :=
       [ {| s_shdr := zero_shdr; s_data := [] |};
         {| s_shdr := mk_shdr (str_off shnames 0) SHT_PROGBITS
                              (Z.of_nat (length text)) 0 0 0;
            s_data := [mk_data (BBytes text) ELF_T_BYTE] |};
         {| s_shdr := mk_shdr (str_off shnames 1) SHT_RELA
                              (24 * Z.of_nat (length textrels)) 5 1 24;
            s_data := [mk_data (BRela textrels) ELF_T_RELA] |};
         {| s_shdr := mk_shdr (str_off shnames 2) SHT_PROGBITS
                              (8 * Z.of_nat (length proberels)) 0 0 0;
            s_data := [mk_data (BBytes (replicate (8 * length proberels) x00))
                               ELF_T_BYTE] |};
         {| s_shdr := mk_shdr (str_off shnames 3) SHT_RELA
                              (24 * Z.of_nat (length proberels)) 5 3 24;
            s_data := [mk_data (BRela proberels) ELF_T_RELA] |};
         {| s_shdr := mk_shdr (str_off shnames 4) SHT_SYMTAB
                              (24 * Z.of_nat (length syms)) 6 0 24;
            s_data := [mk_data (BSym syms) ELF_T_SYM] |};
         {| s_shdr := mk_shdr (str_off shnames 5) SHT_STRTAB
                              (Z.of_nat (length (strtab_of symnames))) 0 0 0;
            s_data := [mk_data (BBytes (strtab_of symnames)) ELF_T_BYTE] |};
         {| s_shdr := mk_shdr (str_off shnames 6) SHT_STRTAB
                              (Z.of_nat (length (strtab_of shnames))) 0 0 0;
            s_data := [mk_data (BBytes (strtab_of shnames)) ELF_T_BYTE] |} ] |}.

(** Symbols: the null symbol, a function [main], the probe stub (global,
    no type) and the probe descriptor. *)
Definition syms_of (names : list cstring) : list GElf_Sym :=
  [mk_sym 0 0; mk_sym (str_off names 0) 18; mk_sym (str_off names 1) 16;
   mk_sym (str_off names 2) 1].

(** Text with the given five-byte instructions at the given offsets of
    their displacement fields, NOPs elsewhere. *)
Fixpoint text_with (len : nat) (sites : list (nat * byte)) : list byte :=
  match sites with
  | [] => replicate len x90
  | (off, opc) :: sites' =>
      list_inserts (off - 1) [opc; x00; x00; x00; x00] (text_with len sites')
  end.

(** [CALL __dtrace_probe_foo] at text offset 0x10, with [sdt_foo] in the
    probe linker set. *)
Definition names_foo : list cstring :=
  cstr <$> ["main"; "__dtrace_probe_foo"; "sdt_foo"]%string.

Definition obj_foo : Elf :=
  mk_obj ET_REL (text_with 32 [(16%nat, xe8)]) names_foo (syms_of names_foo)
         [mk_rela 0x10 2 R_X86_64_PLT32] [mk_rela 0 3 R_X86_64_64].

(** The same with a longer probe name. *)
Definition names_lookup : list cstring :=
  cstr <$> ["main"; "__dtrace_probe_vfs_namei_lookup";
            "sdt_vfs_namei_lookup"]%string.

Definition obj_call : Elf :=
  mk_obj ET_REL (text_with 32 [(16%nat, xe8)]) names_lookup
         (syms_of names_lookup)
         [mk_rela 0x10 2 R_X86_64_PLT32] [mk_rela 0 3 R_X86_64_64].

(** Two calls of the same probe, at 0x30 and 0x50. *)
Definition obj_two_calls : Elf :=
  mk_obj ET_REL (text_with 96 [(48%nat, xe8); (80%nat, xe8)]) names_lookup
         (syms_of names_lookup)
         [mk_rela 0x30 2 R_X86_64_PLT32; mk_rela 0x50 2 R_X86_64_PLT32]
         [mk_rela 0 3 R_X86_64_64].

(** A probe-stub relocation at text offset 0. *)
Definition obj_offset0 : Elf :=
  mk_obj ET_REL (replicate 8 x00) names_lookup (syms_of names_lookup)
         [mk_rela 0 2 R_X86_64_PLT32] [mk_rela 0 3 R_X86_64_64].

(** An executable. *)
Definition ET_EXEC : Z := 2.

Definition obj_exec : Elf :=
  mk_obj ET_EXEC (text_with 32 [(16%nat, xe8)]) names_lookup
         (syms_of names_lookup) [] [].

Definition sample_files : files :=
  fun p => if bool_decide (p = "a.out"%string) then Some (ElfFile obj_exec)
           else if bool_decide (p = "call.o"%string) then Some (ElfFile obj_call)
           else None.

(** The first text relocation of a sample object handed to [process_rel]
    the way [process_reloc_scn] does it. *)
Definition sample_symshdr (e : Elf) : GElf_Shdr :=
  default zero_shdr (gelf_getshdr e 5%nat).

Definition sample_text (e : Elf) : list byte := section_bytes e 1%nat.

Definition sample_rel (e : Elf) (off info : Z)
  : result (Z * list byte * Z * probe_list * list msg) :=
  process_rel true e (elf_ehdr e) (sample_symshdr e) 5%nat (sample_text e)
              off info [] [].

Definition stub_lookup : cstring := cstr "__dtrace_probe_vfs_namei_lookup".

(** The section header string table of a sample object, and the object
    once [set_sdt_instance_set] has been added to it. *)
Definition sample_strshdr (e : Elf) : GElf_Shdr :=
  default zero_shdr (gelf_getshdr e 7%nat).

Definition instance_set_name : cstring := cstr "set_sdt_instance_set".

Definition with_instance_set (e : Elf) : Elf :=
  match add_section true e instance_set_name SHT_PROGBITS SHF_ALLOC [] with
  | Ok (e', _, _) => e'
  | _ => e
  end.

(** The object [process_elf] hands to [elf_update]. *)
Definition rewritten (e : Elf) : Elf :=
  match process_elf false "" e [] with
  | Ok (Some e', _) => e'
  | _ => e
  end.

(** The call sites of an instance list as the messages report them. *)
Definition sites_of (plist : probe_list) : list (cstring * Z) :=
  (fun inst => (symname inst, u64 (offset inst - 1))) <$> plist.

(** How a later state of the scan relates to an earlier one: the section
    list keeps its length, messages are only added, and with [verbose] set
    the instance list has grown at its head by the sites the new messages
    report, the last one first. *)
Definition scan_step (verbose : bool) (st0 st : state) : Prop :=
  length (elf_scns st.1.1) = length (elf_scns st0.1.1) ∧
  elf_shstrndx st.1.1 = elf_shstrndx st0.1.1 ∧
  ∃ new, st.2 = st0.2 ++ new ∧
         (verbose = true →
          sites_of st.1.2 = rev (rewritten_sites new) ++ sites_of st0.1.2).

(** The first entry of [.rela.text] of a sample object handed to the body
    of the scanning loop. *)
Definition sample_entry (e : Elf) : result state :=
  process_entry true (elf_ehdr e) (default zero_shdr (gelf_getshdr e 2%nat))
                (sample_symshdr e) 5%nat (1%nat, 0%nat) (2%nat, 0%nat) 0
                (e, [], []).

Definition sample_entry_elf (e : Elf) : Elf :=
  match sample_entry e with Ok (e', _, _) => e' | _ => e end.

(** Messages were added to [out], none of them about a rewritten site. *)
Definition quiet (out out' : list msg) : Prop :=
  ∃ new, out' = out ++ new ∧ rewritten_sites new = [].

(** The data buffer [record_instance] appends for an instance. *)
Definition instance_data (inst : probe_instance) : Elf_Data :=
  {| d_buf := BBytes (sdt_instance_bytes 0 (offset inst));
     d_type := ELF_T_BYTE; d_align := 1; d_version := EV_CURRENT;
     d_dirty := false |}.

(** The messages of a verbose run of [process_elf]. *)
Definition run_log (e : Elf) : list msg :=
  match process_elf true "" e [] with Ok (_, out) => out | _ => [] end.

Definition stub_foo : cstring := cstr "__dtrace_probe_foo".

(** The records of the instance section are in the order in which the
    sites were rewritten. *)
Definition records_in_processing_order (e : Elf) : Prop :=
  ∀ e' out,
    process_elf true "" e [] = Ok (Some e', out) →
    instance_records e' (length (elf_scns e))
    = (fun site => (0, u64 (site.2 + 1))) <$> rewritten_sites out.

(** A second run on the object a first run has written finds nothing to
    rewrite and writes nothing. *)
Definition second_run_is_noop (e : Elf) : Prop :=
  ∀ e' out,
    process_elf false "" e [] = Ok (Some e', out) →
    ∃ out', process_elf false "" e' [] = Ok (None, out').

(** [obj_call] with the name offset of [.text] moved outside the section
    header string table. *)
Definition obj_bad_name : Elf :=
  gelf_update_shdr obj_call 1%nat
    (mk_shdr 4096 SHT_PROGBITS 32 0 0 0).

(** The descriptor [add_section] appends to the section header string
    table for [name]; [strdata] is the first descriptor of the table. *)
Definition name_data (strdata : Elf_Data) (name : cstring) : Elf_Data :=
  {| d_buf := BBytes (name ++ [x00]); d_type := d_type strdata;
     d_align := d_align strdata; d_version := EV_CURRENT; d_dirty := false |}.

(** The header [add_section] leaves on the section it adds. *)
Definition added_shdr (name_off type flags : Z) : GElf_Shdr :=
  {| sh_name := name_off; sh_type := u32 type; sh_flags := u64 flags;
     sh_addr := 0; sh_offset := 0; sh_size := 0; sh_link := 0; sh_info := 0;
     sh_addralign := 8; sh_entsize := 0 |}.

(** The object [add_section] leaves behind, for the string table section
    [strscn] with header [strshdr] and first descriptor [strdata]. *)
Definition with_section (e : Elf) (strscn : scn_ptr) (strshdr : GElf_Shdr)
    (strdata : Elf_Data) (name : cstring) (type flags : Z) : Elf :=
  let len := u64 (strlen name + 1) in
  let size := u64 (sh_size strshdr + len) in
  gelf_update_shdr
    (gelf_update_shdr (elf_newscn (elf_newdata e strscn
                                               (name_data strdata name))).1
                      (length (elf_scns e))
                      (added_shdr (u32 (u64 (size - len))) type flags))
    strscn (set_sh_size strshdr size).

(** Every descriptor of a section holds bytes. *)
Definition byte_section (e : Elf) (scn : scn_ptr) : Prop :=
  Forall (fun d => ∃ l, d_buf d = BBytes l) (scn_data e scn).

(** What the scan keeps of a buffer: its kind and the number of its
    elements; a symbol buffer is kept whole. *)
Definition buf_same (b b' : Buf) : Prop :=
  match b, b' with
  | BBytes l, BBytes l' => length l' = length l
  | BRel l, BRel l' => length l' = length l
  | BRela l, BRela l' => length l' = length l
  | BSym l, BSym l' => l' = l
  | _, _ => False
  end.

(** What the scan keeps of a data descriptor: type, alignment, version
    and the shape of the buffer; a descriptor that differs from what it
    was is flagged [ELF_F_DIRTY]. *)
Definition buffer_kept (d d' : Elf_Data) : Prop :=
  d_type d' = d_type d ∧ d_align d' = d_align d ∧
  d_version d' = d_version d ∧ buf_same (d_buf d) (d_buf d') ∧
  (d' = d ∨ d_dirty d' = true).

(** What the scan keeps of an object: the ELF header, the section
    headers, and for every section the descriptors it has, each kept in
    the sense of [buffer_kept]. *)
Definition layout_kept (e e' : Elf) : Prop :=
  elf_ehdr e' = elf_ehdr e ∧ elf_shstrndx e' = elf_shstrndx e ∧
  length (elf_scns e') = length (elf_scns e) ∧
  (∀ scn, gelf_getshdr e' scn = gelf_getshdr e scn) ∧
  ∀ p, option_Forall2 buffer_kept (get_data e p) (get_data e' p).

(** An instance for a symbol that starts with the probe prefix. *)
Definition probe_named (inst : probe_instance) : Prop :=
  strneq (symname inst) probe_prefix prefixlen = true.

(** The scan of a sample object, and the object it leaves. *)
Definition sample_scan (e : Elf) : result state :=
  scan_sections true (elf_sections e) (elf_ehdr e) (e, [], []).

Definition scanned (e : Elf) : Elf :=
  match sample_scan e with Ok (e', _, _) => e' | _ => e end.

(** [record_instance] for an instance of a sample object to which the
    instance section has been added, and the object it leaves. *)
Definition sample_record (e : Elf) (inst : probe_instance)
  : result (Elf * list msg) :=
  record_instance true (with_instance_set e) (elf_ehdr e) 8%nat 9%nat inst [].

Definition recorded (e : Elf) (inst : probe_instance) : Elf :=
  match sample_record e inst with Ok (e', _) => e' | _ => e end.

(** A relocatable object with [.text] (1) and the section header string
    table (2) and no other section. *)
Definition plain_names : list cstring := cstr <$> [".text"; ".shstrtab"]%string.

Definition obj_plain : Elf :=
  {| elf_ehdr := {| e_type := ET_REL; e_machine := EM_X86_64 |};
     elf_shstrndx := 2;
     elf_scns :=
       [ {| s_shdr := zero_shdr; s_data := [] |};
         {| s_shdr := mk_shdr (str_off plain_names 0) SHT_PROGBITS 4 0 0 0;
            s_data := [mk_data (BBytes (replicate 4 x90)) ELF_T_BYTE] |};
         {| s_shdr := mk_shdr (str_off plain_names 1) SHT_STRTAB
                              (Z.of_nat (length (strtab_of plain_names))) 0 0 0;
            s_data := [mk_data (BBytes (strtab_of plain_names))
                               ELF_T_BYTE] |} ] |}.

(** [name] is the name of the symbol of an entry of the relocation
    descriptor [d], looked up as [record_instance] does it: the symbol
    in the table [symtab], its name in the string table that the header
    [symshdr] of that table links to. *)
Definition entry_symbol (e : Elf) (symtab : scn_ptr) (symshdr : GElf_Shdr)
    (d : Elf_Data) (name : cstring) : Prop :=
  ∃ j off info sym,
    reloc_at d j = Some (off, info) ∧
    symlookup e symtab (to_int (GELF_R_SYM info)) = Ok sym ∧
    elf_strptr e (sh_link symshdr) (st_name sym) = Some name.

(** [name] is the name of a symbol that the probe linker set is
    relocated against: the symbol of an entry of a section of type
    [SHT_REL] or [SHT_RELA] whose [sh_info] is the index of the section
    that [section_by_name] finds for [set_sdt_probes_set]. *)
Definition probe_set_symbol (e : Elf) (name : cstring) : Prop :=
  ∃ probescn proberelscn proberelshdr symtab symshdr d,
    section_by_name e (cstr "set_sdt_probes_set") = Ok (Some probescn) ∧
    proberelscn ∈ elf_sections e ∧
    gelf_getshdr e proberelscn = Some proberelshdr ∧
    (sh_type proberelshdr = SHT_REL ∨ sh_type proberelshdr = SHT_RELA) ∧
    sh_info proberelshdr = elf_ndxscn probescn ∧
    elf_getscn e (sh_link proberelshdr) = Some symtab ∧
    gelf_getshdr e symtab = Some symshdr ∧
    d ∈ scn_data e proberelscn ∧
    entry_symbol e symtab symshdr d name.

(** * Properties *)

(** ** Outcomes and bit fields *)

Lemma or_errx_Ok {A} (o : option A) (what : string) (a : A) :
  or_errx o what = Ok a → o = Some a.
Proof. destruct o; simpl; congruence. Qed.

Lemma deref_Ok {A} (o : option A) (a : A) : deref o = Ok a → o = Some a.
Proof. destruct o; simpl; congruence. Qed.

(** One step of case analysis on a hypothesis that says a run of the
    program has a given outcome. *)
Ltac run_step H :=
  lazymatch type of H with
  | (?m ≫= _) = _ =>
      let E := fresh "E" in
      destruct m eqn:E; cbn beta iota delta [mbind result_bind] in H;
      [| discriminate H ..]
  | (if ?b then _ else _) = _ =>
      let E := fresh "E" in destruct b eqn:E
  | (match ?x with _ => _ end) = _ =>
      let E := fresh "E" in destruct x eqn:E
  end; try discriminate H.

Lemma u64_range z : 0 <= u64 z < 2 ^ 64.
Proof. unfold u64. apply Z.mod_pos_bound. lia. Qed.

Lemma u64_small z : 0 <= z < 2 ^ 64 → u64 z = z.
Proof. intros. unfold u64. apply Z.mod_small. lia. Qed.

Lemma not64_testbit z i :
  0 <= i → Z.testbit (not64 z) i = (i <? 64) && negb (Z.testbit z i).
Proof.
  intros Hi. unfold not64, u64.
  destruct (Z.ltb_spec i 64).
  - rewrite Z.mod_pow2_bits_low by lia. now rewrite Z.lnot_spec by lia.
  - now rewrite Z.mod_pow2_bits_high by lia.
Qed.

Lemma mask32_testbit i : 0 <= i → Z.testbit 0xffffffff i = (i <? 32).
Proof.
  intros Hi. change 0xffffffff with (Z.ones 32).
  destruct (Z.ltb_spec i 32).
  - apply Z.ones_spec_low. lia.
  - apply Z.ones_spec_high. lia.
Qed.

Lemma neutralized_testbit info i :
  0 <= i →
  Z.testbit (neutralized info) i = (32 <=? i) && (i <? 64) && Z.testbit info i.
Proof.
  intros Hi. unfold neutralized, R_X86_64_NONE, GELF_R_TYPE.
  rewrite Z.lor_0_r, Z.land_spec, not64_testbit, Z.land_spec by lia.
  rewrite mask32_testbit by lia.
  destruct (Z.testbit info i), (Z.ltb_spec i 32), (Z.ltb_spec i 64),
    (Z.leb_spec 32 i); simpl; try reflexivity; lia.
Qed.

Lemma neutralized_type info : GELF_R_TYPE (neutralized info) = R_X86_64_NONE.
Proof.
  unfold GELF_R_TYPE at 1. apply Z.bits_inj'. intros i Hi.
  rewrite Z.land_spec, neutralized_testbit, mask32_testbit by lia.
  unfold R_X86_64_NONE. rewrite Z.bits_0.
  destruct (Z.testbit info i), (Z.ltb_spec i 32), (Z.ltb_spec i 64),
    (Z.leb_spec 32 i); simpl; try reflexivity; lia.
Qed.

Lemma testbit_above_64 z i : 0 <= z < 2 ^ 64 → 64 <= i → Z.testbit z i = false.
Proof.
  intros Hz Hi. rewrite <- (Z.mod_small z (2 ^ 64)) by lia.
  apply Z.mod_pow2_bits_high. lia.
Qed.

Lemma neutralized_sym info :
  0 <= info < 2 ^ 64 → GELF_R_SYM (neutralized info) = GELF_R_SYM info.
Proof.
  intros Hr. unfold GELF_R_SYM. apply Z.bits_inj'. intros i Hi.
  rewrite !Z.shiftr_spec, neutralized_testbit by lia.
  destruct (Z.ltb_spec (i + 32) 64), (Z.leb_spec 32 (i + 32)); simpl;
    try reflexivity; try lia.
  symmetry. apply testbit_above_64; [assumption | lia].
Qed.

Lemma neutralized_range info : 0 <= neutralized info < 2 ^ 64.
Proof.
  assert (neutralized info = u64 (neutralized info)) as ->;
    [| apply u64_range].
  apply Z.bits_inj'. intros i Hi. unfold u64.
  destruct (Z.ltb_spec i 64) as [Hlt | Hge].
  - now rewrite Z.mod_pow2_bits_low by lia.
  - rewrite Z.mod_pow2_bits_high, neutralized_testbit by lia.
    destruct (Z.ltb_spec i 64); [lia |]. now rewrite andb_false_r.
Qed.

(** ** The rewriter *)

Lemma load_Ok target idx b :
  load target idx = Ok b → 0 <= idx ∧ target !! Z.to_nat idx = Some b.
Proof.
  unfold load. destruct (Z.leb_spec 0 idx) as [Hle | Hgt]; [| discriminate].
  intros Hd%deref_Ok. auto.
Qed.

Lemma load_lt target idx b :
  load target idx = Ok b → 0 <= idx < Z.of_nat (length target).
Proof.
  intros [H0 H]%load_Ok. apply lookup_lt_Some in H. lia.
Qed.

Section Rewriter.

Context (verbose : bool).

(** What a successful run of the [switch] in [process_rel] did. *)
Lemma rewrite_site_Ok ehdr name target off info target' info' :
  rewrite_site ehdr name target off info = Ok (target', info') →
  e_machine ehdr = EM_X86_64 ∧
  ∃ opc,
    load target (u64 (off - 1)) = Ok opc ∧
    (opc = AMD64_CALL ∨ opc = AMD64_JMP32) ∧
    load target (u64 (off + 3)) = Ok x00 ∧
    u64 (off - 1) + 5 <= Z.of_nat (length target) ∧
    target' =
      (if bool_decide (opc = AMD64_JMP32)
       then <[Z.to_nat (u64 (off - 1)) := AMD64_RETQ]>
       else id)
        (list_inserts (Z.to_nat (u64 (off - 1))) (replicate 5 AMD64_NOP) target) ∧
    info' = neutralized info.
Proof.
  unfold rewrite_site. intros H.
  repeat run_step H. simplify_eq.
  repeat match goal with
         | Hb : bool_decide (_ ≠ _) = false |- _ =>
             apply bool_decide_eq_false, dec_stable in Hb
         end.
  subst. split; [now apply Z.eqb_eq |].
  eexists. split; [reflexivity |]. split.
  { match goal with
    | Ha : _ && _ = false |- _ =>
        apply andb_false_iff in Ha as [Ha | Ha];
        apply bool_decide_eq_false, dec_stable in Ha; auto
    end. }
  split; [reflexivity |].
  match goal with
  | Hm : memset _ _ _ _ = Ok _ |- _ => unfold memset in Hm; run_step Hm
  end.
  split.
  { match goal with
    | Ha : _ && _ = true |- _ =>
        apply andb_true_iff in Ha as [_ Ha]; apply Z.leb_le in Ha; lia
    end. }
  split; [| reflexivity].
  simplify_eq.
  match goal with
  | Hs : (if bool_decide ?P then _ else _) = Ok _ |- _ =>
      destruct (bool_decide P); simpl in *;
      [unfold store in Hs; run_step Hs |]; now simplify_eq
  end.
Qed.

(** What a run of [process_rel] that returns 0 did. *)
Lemma process_rel_rewritten e ehdr symshdr symtab target off info plist out
    target' info' plist' out' :
  process_rel verbose e ehdr symshdr symtab target off info plist out
    = Ok (0, target', info', plist', out') →
  ∃ sym name,
    symlookup e symtab (to_int (GELF_R_SYM info)) = Ok sym ∧
    elf_strptr e (sh_link symshdr) (st_name sym) = Some name ∧
    strneq name probe_prefix prefixlen = true ∧
    GELF_ST_TYPE (st_info sym) = STT_NOTYPE ∧
    GELF_ST_BIND (st_info sym) = STB_GLOBAL ∧
    rewrite_site ehdr name target off info = Ok (target', info') ∧
    plist' = {| symname := name; offset := off |} :: plist ∧
    out' = LOG verbose (M_updated name (u64 (off - 1))) out.
Proof.
  unfold process_rel. intros H.
  run_step H. run_step H. apply or_errx_Ok in E0.
  run_step H. run_step H. run_step H. run_step H.
  destruct a1 as [t i]. simplify_eq.
  exists a, a0. repeat split; try assumption.
  - now apply negb_false_iff in E1.
  - apply negb_false_iff in E2. lia.
  - apply negb_false_iff in E3. lia.
Qed.

(** A run of [process_rel] that does not return 0 returns 1 and has
    changed nothing. *)
Lemma process_rel_skipped e ehdr symshdr symtab target off info plist out
    ret target' info' plist' out' :
  process_rel verbose e ehdr symshdr symtab target off info plist out
    = Ok (ret, target', info', plist', out') →
  ret ≠ 0 →
  ret = 1 ∧ target' = target ∧ info' = info ∧ plist' = plist ∧ out' = out.
Proof.
  unfold process_rel. intros H Hret.
  run_step H. run_step H. run_step H.
  - now simplify_eq.
  - run_step H. run_step H. run_step H. destruct a1. simplify_eq.
Qed.

End Rewriter.

Lemma bytes_at_inserts (l k : list byte) (i : nat) :
  (i + length k ≤ length l)%nat →
  take (length k) (drop i (list_inserts i k l)) = k.
Proof.
  intros Hlen. apply list_eq. intros j.
  destruct (decide (j < length k)%nat) as [Hj | Hj].
  - rewrite lookup_take_lt, lookup_drop by lia.
    rewrite list_lookup_inserts by lia. f_equal. lia.
  - rewrite lookup_take_ge by lia. symmetry. apply lookup_ge_None. lia.
Qed.

Lemma insert_inserts_head (l k : list byte) (i : nat) (x y : byte) :
  <[i := y]> (list_inserts i (x :: k) l) = list_inserts i (y :: k) l.
Proof. simpl. apply list_insert_insert_eq. Qed.

(** C5: after a relocation has been rewritten, whatever its type was, the
    type field of its info word is [R_X86_64_NONE]. *)
Theorem rewritten_type_is_none verbose e ehdr symshdr symtab target off info
    plist out target' info' plist' out' :
  process_rel verbose e ehdr symshdr symtab target off info plist out
    = Ok (0, target', info', plist', out') →
  GELF_R_TYPE info' = R_X86_64_NONE.
Proof.
  intros (sym & name & _ & _ & _ & _ & _ & Hsite & _)%process_rel_rewritten.
  apply rewrite_site_Ok in Hsite as (_ & opc & _ & _ & _ & _ & _ & ->).
  apply neutralized_type.
Qed.

(** At the call of [obj_call], with every bit of the type field set. *)
Lemma rewritten_type_is_none_witness :
  sample_rel obj_call 0x10 (Z.lor (Z.shiftl 2 32) 0xffffffff)
    = Ok (0, replicate 32 x90, Z.shiftl 2 32,
          [{| symname := stub_lookup; offset := 0x10 |}],
          [M_updated stub_lookup 0xf]) ∧
  GELF_R_TYPE (Z.shiftl 2 32) = R_X86_64_NONE.
Proof.
  assert (sample_rel obj_call 0x10 (Z.lor (Z.shiftl 2 32) 0xffffffff)
          = Ok (0, replicate 32 x90, Z.shiftl 2 32,
                [{| symname := stub_lookup; offset := 0x10 |}],
                [M_updated stub_lookup 0xf])) as Hrun
    by (vm_compute; reflexivity).
  split; [exact Hrun |].
  exact (rewritten_type_is_none _ _ _ _ _ _ _ _ _ _ _ _ _ _ Hrun).
Defined.

(** C6: a rewritten call site at relocation offset [off] holds five NOPs
    at [off - 1 .. off + 3] when the opcode at [off - 1] was CALL, and RET
    followed by four NOPs when it was JMP. *)
Theorem rewritten_site_bytes verbose e ehdr symshdr symtab target off info
    plist out target' info' plist' out' :
  process_rel verbose e ehdr symshdr symtab target off info plist out
    = Ok (0, target', info', plist', out') →
  0 <= off < 2 ^ 64 →
  Z.of_nat (length target) < 2 ^ 64 →
  ∃ opc,
    bytes_at target (off - 1) 1 = [opc] ∧
    (opc = AMD64_CALL ∧
       bytes_at target' (off - 1) 5 = [x90; x90; x90; x90; x90]
     ∨ opc = AMD64_JMP32 ∧
       bytes_at target' (off - 1) 5 = [xc3; x90; x90; x90; x90]).
Proof.
  intros (sym & name & _ & _ & _ & _ & _ & Hsite & _)%process_rel_rewritten
         Hoff Hlen.
  apply rewrite_site_Ok in Hsite
    as (_ & opc & Hload & Hopc & _ & Hset & -> & _).
  pose proof (load_lt _ _ _ Hload) as Hidx.
  apply load_Ok in Hload as [_ Hload].
  assert (1 <= off) as Hpos.
  { destruct (decide (off = 0)) as [-> | ?]; [| lia].
    change (u64 (0 - 1)) with (2 ^ 64 - 1) in Hidx. lia. }
  rewrite u64_small in * by lia.
  exists opc. split.
  { unfold bytes_at. apply list_eq. intros [| j]; simpl.
    - rewrite lookup_take_lt, lookup_drop, Nat.add_0_r by lia. exact Hload.
    - rewrite lookup_take_ge by lia. reflexivity. }
  unfold bytes_at.
  destruct Hopc as [-> | ->]; [left | right]; (split; [reflexivity |]).
  - change (bool_decide (AMD64_CALL = AMD64_JMP32)) with false.
    cbv iota. unfold id.
    apply (bytes_at_inserts target (replicate 5 AMD64_NOP)).
    simpl. lia.
  - change (bool_decide (AMD64_JMP32 = AMD64_JMP32)) with true.
    cbv iota.
    change (replicate 5 AMD64_NOP) with (AMD64_NOP :: replicate 4 AMD64_NOP).
    rewrite insert_inserts_head.
    apply (bytes_at_inserts target (AMD64_RETQ :: replicate 4 AMD64_NOP)).
    simpl. lia.
Qed.

(** At the call of [obj_call]. *)
Lemma rewritten_site_bytes_witness :
  0 <= 0x10 < 2 ^ 64 ∧
  Z.of_nat (length (sample_text obj_call)) < 2 ^ 64 ∧
  ∃ opc,
    bytes_at (sample_text obj_call) (0x10 - 1) 1 = [opc] ∧
    (opc = AMD64_CALL ∧
       bytes_at (replicate 32 x90) (0x10 - 1) 5 = [x90; x90; x90; x90; x90]
     ∨ opc = AMD64_JMP32 ∧
       bytes_at (replicate 32 x90) (0x10 - 1) 5 = [xc3; x90; x90; x90; x90]).
Proof.
  assert (sample_rel obj_call 0x10 (Z.lor (Z.shiftl 2 32) R_X86_64_PLT32)
          = Ok (0, replicate 32 x90, Z.shiftl 2 32,
                [{| symname := stub_lookup; offset := 0x10 |}],
                [M_updated stub_lookup 0xf])) as Hrun
    by (vm_compute; reflexivity).
  assert (0 <= 0x10 < 2 ^ 64) as Hoff by lia.
  assert (Z.of_nat (length (sample_text obj_call)) < 2 ^ 64) as Hlen
    by (vm_compute; reflexivity).
  split; [exact Hoff |]. split; [exact Hlen |].
  exact (rewritten_site_bytes _ _ _ _ _ _ _ _ _ _ _ _ _ _ Hrun Hoff Hlen).
Defined.

(** C10: the opcode is read at index [off - 1] with no check that [off]
    is at least 1.  For a probe-stub relocation the run is defined only
    if [1 <= off]; at offset 0 the index read lies outside the buffer. *)
Theorem opcode_read_needs_positive_offset verbose e ehdr symshdr symtab target
    off info plist out sym name :
  symlookup e symtab (to_int (GELF_R_SYM info)) = Ok sym →
  elf_strptr e (sh_link symshdr) (st_name sym) = Some name →
  strneq name probe_prefix prefixlen = true →
  GELF_ST_TYPE (st_info sym) = STT_NOTYPE →
  GELF_ST_BIND (st_info sym) = STB_GLOBAL →
  e_machine ehdr = EM_X86_64 →
  0 <= off < 2 ^ 64 →
  Z.of_nat (length target) < 2 ^ 64 →
  (off = 0 →
   load target (u64 (off - 1)) = Undefined ∧
   process_rel verbose e ehdr symshdr symtab target off info plist out
     = Undefined) ∧
  (process_rel verbose e ehdr symshdr symtab target off info plist out
     ≠ Undefined →
   1 <= off <= Z.of_nat (length target)).
Proof.
  intros Hsym Hname Hpre Hty Hbind Hm Hoff Hlen.
  assert (process_rel verbose e ehdr symshdr symtab target off info plist out
          = '(target, info) ← rewrite_site ehdr name target off info;
            Ok (0, target, info,
                {| symname := name; offset := off |} :: plist,
                LOG verbose (M_updated name (u64 (off - 1))) out)) as ->.
  { unfold process_rel. rewrite Hsym. simpl. rewrite Hname. simpl.
    rewrite Hpre, Hty, Hbind. reflexivity. }
  unfold rewrite_site. rewrite Hm. simpl (_ =? _). cbv iota.
  split.
  - intros ->. change (u64 (0 - 1)) with (2 ^ 64 - 1).
    assert (load target (2 ^ 64 - 1) = Undefined) as Hl.
    { unfold load. simpl (0 <=? _). cbv iota.
      rewrite (proj2 (lookup_ge_None target _)); [reflexivity | lia]. }
    rewrite Hl. split; reflexivity.
  - intros Hdef.
    destruct (load target (u64 (off - 1))) as [opc | f |] eqn:Hload.
    + pose proof (load_lt _ _ _ Hload) as Hidx.
      destruct (decide (off = 0)) as [-> | ?].
      * change (u64 (0 - 1)) with (2 ^ 64 - 1) in Hidx. lia.
      * rewrite u64_small in Hidx by lia. lia.
    + unfold load in Hload. destruct (0 <=? _); [| discriminate].
      destruct (target !! _); discriminate.
    + exfalso. apply Hdef. reflexivity.
Qed.

(** At the relocation of [obj_offset0], whose offset is 0. *)
Lemma opcode_read_needs_positive_offset_witness :
  load (sample_text obj_offset0) (u64 (0 - 1)) = Undefined ∧
  sample_rel obj_offset0 0 (Z.lor (Z.shiftl 2 32) R_X86_64_PLT32) = Undefined.
Proof.
  refine (proj1 (opcode_read_needs_positive_offset true obj_offset0
                   (elf_ehdr obj_offset0) (sample_symshdr obj_offset0) 5%nat
                   (sample_text obj_offset0) 0
                   (Z.lor (Z.shiftl 2 32) R_X86_64_PLT32) [] []
                   (mk_sym (str_off names_lookup 1) 16) stub_lookup
                   _ _ _ _ _ _ _ _) eq_refl);
    try (vm_compute; reflexivity); lia.
Defined.

(** ** The ELF access layer *)

Lemma length_scns_update_shdr e scn h :
  length (elf_scns (gelf_update_shdr e scn h)) = length (elf_scns e).
Proof. simpl. apply length_alter. Qed.

Lemma length_scns_newdata e scn d :
  length (elf_scns (elf_newdata e scn d)) = length (elf_scns e).
Proof. simpl. apply length_alter. Qed.

Lemma length_scns_update_data e p f :
  length (elf_scns (update_data e p f)) = length (elf_scns e).
Proof. simpl. apply length_alter. Qed.

Lemma getshdr_update_shdr e scn h scn' :
  gelf_getshdr (gelf_update_shdr e scn h) scn' =
  if decide (scn = scn') then (fun _ => h) <$> gelf_getshdr e scn'
  else gelf_getshdr e scn'.
Proof.
  unfold gelf_getshdr, gelf_update_shdr. simpl.
  destruct (decide (scn = scn')) as [<- | Hne].
  - rewrite list_lookup_alter_eq. destruct (elf_scns e !! scn); reflexivity.
  - now rewrite list_lookup_alter_ne.
Qed.

Lemma scn_data_update_shdr e scn h scn' :
  scn_data (gelf_update_shdr e scn h) scn' = scn_data e scn'.
Proof.
  unfold scn_data, gelf_update_shdr. simpl.
  destruct (decide (scn = scn')) as [<- | Hne].
  - rewrite list_lookup_alter_eq. destruct (elf_scns e !! scn); reflexivity.
  - now rewrite list_lookup_alter_ne.
Qed.

Lemma getshdr_newdata e scn d scn' :
  gelf_getshdr (elf_newdata e scn d) scn' = gelf_getshdr e scn'.
Proof.
  unfold gelf_getshdr, elf_newdata. simpl.
  destruct (decide (scn = scn')) as [<- | Hne].
  - rewrite list_lookup_alter_eq. destruct (elf_scns e !! scn); reflexivity.
  - now rewrite list_lookup_alter_ne.
Qed.

Lemma scn_data_newdata e scn d scn' :
  scn_data (elf_newdata e scn d) scn' =
  if decide (scn = scn' ∧ is_Some (elf_scns e !! scn))
  then scn_data e scn' ++ [d] else scn_data e scn'.
Proof.
  unfold scn_data, elf_newdata. simpl.
  destruct (decide (scn = scn')) as [<- | Hne].
  - rewrite list_lookup_alter_eq.
    destruct (elf_scns e !! scn) eqn:Hs; simpl.
    + rewrite decide_True; [reflexivity | eauto].
    + rewrite decide_False; [reflexivity |]. intros [_ [? ?]]. discriminate.
  - rewrite list_lookup_alter_ne by assumption.
    rewrite decide_False; [reflexivity | tauto].
Qed.

Lemma getshdr_update_data e p f scn' :
  gelf_getshdr (update_data e p f) scn' = gelf_getshdr e scn'.
Proof.
  unfold gelf_getshdr, update_data. simpl.
  destruct (decide (p.1 = scn')) as [<- | Hne].
  - rewrite list_lookup_alter_eq. destruct (elf_scns e !! p.1); reflexivity.
  - now rewrite list_lookup_alter_ne.
Qed.

Lemma scn_data_update_data e p f scn' :
  scn_data (update_data e p f) scn' =
  if decide (p.1 = scn') then alter f p.2 (scn_data e scn')
  else scn_data e scn'.
Proof.
  unfold scn_data, update_data. simpl.
  destruct (decide (p.1 = scn')) as [<- | Hne].
  - rewrite list_lookup_alter_eq. destruct (elf_scns e !! p.1); reflexivity.
  - now rewrite list_lookup_alter_ne.
Qed.

Lemma getshdr_newscn e scn' :
  gelf_getshdr (elf_newscn e).1 scn' =
  if decide (scn' = length (elf_scns e)) then Some zero_shdr
  else gelf_getshdr e scn'.
Proof.
  unfold gelf_getshdr, elf_newscn. simpl.
  destruct (decide (scn' = length (elf_scns e))) as [-> | Hne].
  - rewrite lookup_app_r, Nat.sub_diag by lia. reflexivity.
  - destruct (decide (scn' < length (elf_scns e))%nat).
    + now rewrite lookup_app_l by lia.
    + rewrite !(proj2 (lookup_ge_None _ _)); [reflexivity | lia |].
      rewrite length_app. simpl. lia.
Qed.

Lemma scn_data_newscn e scn' :
  scn_data (elf_newscn e).1 scn' = scn_data e scn'.
Proof.
  unfold scn_data, elf_newscn. simpl.
  destruct (decide (scn' < length (elf_scns e))%nat).
  - now rewrite lookup_app_l by lia.
  - destruct (decide (scn' = length (elf_scns e))) as [-> | Hne].
    + rewrite lookup_app_r, Nat.sub_diag by lia. simpl.
      now rewrite (proj2 (lookup_ge_None _ _)) by lia.
    + rewrite !(proj2 (lookup_ge_None _ _)); [reflexivity | lia |].
      rewrite length_app. simpl. lia.
Qed.

Lemma elf_getscn_Some e ndx scn :
  elf_getscn e ndx = Some scn →
  scn = Z.to_nat ndx ∧ (scn < length (elf_scns e))%nat.
Proof.
  unfold elf_getscn. intros H. run_step H.
  apply andb_true_iff in E as [E1 E2].
  apply Z.leb_le in E1. apply Z.ltb_lt in E2. simplify_eq. lia.
Qed.

Lemma elf_getscn_range e ndx scn :
  elf_getscn e ndx = Some scn →
  0 <= ndx < Z.of_nat (length (elf_scns e)) ∧ Z.of_nat scn = ndx.
Proof.
  unfold elf_getscn. intros H. run_step H.
  apply andb_true_iff in E as [E1 E2].
  apply Z.leb_le in E1. apply Z.ltb_lt in E2. simplify_eq. lia.
Qed.

Lemma section_bytes_newdata e scn d :
  is_Some (elf_scns e !! scn) →
  section_bytes (elf_newdata e scn d) scn
  = section_bytes e scn ++ buf_bytes (d_buf d).
Proof.
  intros Hs. unfold section_bytes. rewrite scn_data_newdata.
  rewrite decide_True by auto.
  rewrite fmap_app, concat_app. simpl. now rewrite app_nil_r.
Qed.

(** ** Adding a section *)

(** C7: the header of a section added by [add_section] has as [sh_name]
    the size the section header string table had before the name and its
    terminating NUL were appended, and that size grows by the length of
    the name plus one. *)
Theorem add_section_name_offset verbose e name type flags out e' newscn out'
    strscn strshdr :
  add_section verbose e name type flags out = Ok (e', newscn, out') →
  elf_getscn e (elf_shstrndx e) = Some strscn →
  gelf_getshdr e strscn = Some strshdr →
  0 <= sh_size strshdr < 2 ^ 32 →
  sh_size strshdr + (strlen name + 1) < 2 ^ 64 →
  ∃ newshdr strshdr',
    gelf_getshdr e' newscn = Some newshdr ∧
    sh_name newshdr = sh_size strshdr ∧
    gelf_getshdr e' strscn = Some strshdr' ∧
    sh_size strshdr' = sh_size strshdr + (strlen name + 1) ∧
    section_bytes e' strscn = section_bytes e strscn ++ name ++ [x00].
Proof.
  unfold add_section. intros H Hscn Hshdr Hsz Hsum.
  rewrite Hscn in H. cbn [or_errx mbind result_bind] in H.
  rewrite Hshdr in H. cbn [or_errx mbind result_bind] in H.
  run_step H. clear E.
  destruct (elf_newscn _) as [e1 newscn1] eqn:Hnew.
  run_step H. simplify_eq.
  apply elf_getscn_Some in Hscn as [_ Hlt].
  assert (0 <= strlen name) as Hn by (unfold strlen; lia).
  rewrite (u64_small (strlen name + 1)) by lia.
  rewrite (u64_small (sh_size strshdr + _)) by lia.
  set (d := {| d_buf := BBytes (name ++ [x00]); d_type := d_type a;
               d_align := d_align a; d_version := EV_CURRENT;
               d_dirty := false |}) in *.
  pose proof (getshdr_newscn (elf_newdata e strscn d)) as Hh.
  pose proof (scn_data_newscn (elf_newdata e strscn d)) as Hd.
  rewrite Hnew in Hh, Hd. cbn [fst] in Hh, Hd.
  rewrite length_scns_newdata in Hh.
  assert (newscn = length (elf_scns e)) as ->.
  { apply (f_equal snd) in Hnew. cbn [snd elf_newscn] in Hnew.
    rewrite <- Hnew. apply length_scns_newdata. }
  eexists _, _. split.
  { rewrite getshdr_update_shdr, decide_False by lia.
    rewrite getshdr_update_shdr, decide_True by reflexivity.
    rewrite Hh, decide_True by reflexivity. reflexivity. }
  split.
  { cbn [sh_name].
    replace (sh_size strshdr + (strlen name + 1) - (strlen name + 1))
      with (sh_size strshdr) by lia.
    rewrite u64_small by lia. unfold u32. apply Z.mod_small. lia. }
  split.
  { rewrite getshdr_update_shdr, decide_True by reflexivity.
    rewrite getshdr_update_shdr, decide_False by lia.
    rewrite Hh, decide_False by lia.
    rewrite getshdr_newdata, Hshdr. reflexivity. }
  split; [reflexivity |].
  unfold section_bytes at 1. rewrite !scn_data_update_shdr, Hd.
  fold (section_bytes (elf_newdata e strscn d) strscn).
  rewrite section_bytes_newdata; [reflexivity |].
  apply lookup_lt_is_Some. lia.
Qed.

(** At [set_sdt_instance_set] added to [obj_call]. *)
Lemma add_section_name_offset_witness :
  ∃ newshdr strshdr',
    gelf_getshdr (with_instance_set obj_call) 8%nat = Some newshdr ∧
    sh_name newshdr = sh_size (sample_strshdr obj_call) ∧
    gelf_getshdr (with_instance_set obj_call) 7%nat = Some strshdr' ∧
    sh_size strshdr' =
      sh_size (sample_strshdr obj_call) + (strlen instance_set_name + 1) ∧
    section_bytes (with_instance_set obj_call) 7%nat =
      section_bytes obj_call 7%nat ++ instance_set_name ++ [x00].
Proof.
  refine (add_section_name_offset true obj_call instance_set_name
            SHT_PROGBITS SHF_ALLOC [] (with_instance_set obj_call) 8%nat
            [M_added_section instance_set_name] 7%nat
            (sample_strshdr obj_call) _ _ _ _ _);
    vm_compute; try reflexivity; intuition congruence.
Defined.

(** ** The driver *)

Lemma process_objs_app verbose pre post fs out :
  process_objs verbose (pre ++ post) fs out =
  '(fs, out) ← process_objs verbose pre fs out;
  process_objs verbose post fs out.
Proof.
  revert fs out. induction pre as [| obj pre IH]; intros fs out; simpl.
  - reflexivity.
  - destruct (process_obj verbose obj fs out) as [[fs1 out1] | f |]; simpl.
    + apply IH.
    + reflexivity.
    + reflexivity.
Qed.

Lemma process_obj_not_rel verbose obj fs out e :
  fs obj = Some (ElfFile e) →
  e_type (elf_ehdr e) ≠ ET_REL →
  process_obj verbose obj fs out = Ok (fs, out ++ [M_invalid_type obj]).
Proof.
  intros Hf Hty. unfold process_obj, process_elf. rewrite Hf.
  destruct (Z.eqb_spec (e_type (elf_ehdr e)) ET_REL) as [? | _];
    [contradiction | reflexivity].
Qed.

Lemma main_verbose prog args fs :
  args ≠ [] →
  main (prog :: "-v"%string :: args) fs =
  '(fs, out) ← process_objs true args fs []; Ok (0, fs, out).
Proof.
  intros Hne. unfold main.
  rewrite bool_decide_eq_true_2 by reflexivity.
  destruct args as [| a args]; [contradiction |].
  cbn [length drop].
  destruct (Z.leb_spec (Z.of_nat (S (S (length args)))) 1); [lia | reflexivity].
Qed.

Lemma main_plain prog args fs :
  args ≠ [] →
  head args ≠ Some "-v"%string →
  main (prog :: args) fs =
  '(fs, out) ← process_objs false args fs []; Ok (0, fs, out).
Proof.
  intros Hne Hflag. unfold main.
  destruct args as [| a args]; [contradiction |].
  rewrite bool_decide_eq_false_2 by (intros ->; now apply Hflag).
  cbn [length drop].
  destruct (Z.leb_spec (Z.of_nat (S (S (length args)))) 1); [lia | reflexivity].
Qed.

(** C8: an input that is an ELF object but not of type [ET_REL] draws a
    warning and is left as it is; the run goes on with the next input and
    ends with status 0 when the other inputs are processed without a fatal
    error. *)
Theorem non_relocatable_input_is_skipped verbose prog pre obj post fs fs1 out1
    e fs2 out2 :
  process_objs verbose pre fs [] = Ok (fs1, out1) →
  fs1 obj = Some (ElfFile e) →
  e_type (elf_ehdr e) ≠ ET_REL →
  process_objs verbose post fs1 (out1 ++ [M_invalid_type obj]) = Ok (fs2, out2) →
  (verbose = false → head (pre ++ [obj]) ≠ Some "-v"%string) →
  process_obj verbose obj fs1 out1 = Ok (fs1, out1 ++ [M_invalid_type obj]) ∧
  main (prog :: (if verbose then ["-v"%string] else []) ++ pre ++ obj :: post) fs
    = Ok (0, fs2, out2) ∧
  exit_status
    (main (prog :: (if verbose then ["-v"%string] else []) ++ pre ++ obj :: post)
          fs) = Some 0.
Proof.
  intros Hpre Hf Hty Hpost Hflag.
  pose proof (process_obj_not_rel verbose obj fs1 out1 e Hf Hty) as Hobj.
  assert (process_objs verbose (pre ++ obj :: post) fs [] = Ok (fs2, out2))
    as Hall.
  { rewrite process_objs_app, Hpre. simpl. rewrite Hobj. simpl. exact Hpost. }
  assert (main (prog :: (if verbose then ["-v"%string] else [])
                  ++ pre ++ obj :: post) fs = Ok (0, fs2, out2)) as Hmain.
  { destruct verbose.
    - change ([("-v")%string] ++ pre ++ obj :: post)
        with (("-v")%string :: pre ++ obj :: post).
      rewrite main_verbose, Hall; [reflexivity |].
      destruct pre; discriminate.
    - change ([] ++ pre ++ obj :: post) with (pre ++ obj :: post).
      rewrite main_plain, Hall; [reflexivity | |].
      + destruct pre; discriminate.
      + specialize (Hflag eq_refl). destruct pre; exact Hflag. }
  split; [exact Hobj |]. split; [exact Hmain |].
  rewrite Hmain. reflexivity.
Qed.

(** At an executable followed by [obj_call]. *)
Lemma non_relocatable_input_is_skipped_witness :
  process_obj false "a.out" sample_files []
    = Ok (sample_files, [M_invalid_type "a.out"]) ∧
  main ["sdtconvert"; "a.out"; "call.o"]%string sample_files
    = Ok (0, write_file sample_files "call.o" (ElfFile (rewritten obj_call)),
          [M_invalid_type "a.out"]) ∧
  exit_status (main ["sdtconvert"; "a.out"; "call.o"]%string sample_files)
    = Some 0.
Proof.
  refine (non_relocatable_input_is_skipped false "sdtconvert" [] "a.out"
            ["call.o"%string] sample_files sample_files [] obj_exec
            (write_file sample_files "call.o" (ElfFile (rewritten obj_call)))
            [M_invalid_type "a.out"] _ _ _ _ _);
    try (vm_compute; reflexivity); try (vm_compute; congruence).
Defined.

(** ** One relocation entry *)

Lemma get_data_update_data e p f q :
  get_data (update_data e p f) q =
  if decide (p = q) then f <$> get_data e q else get_data e q.
Proof.
  unfold get_data. rewrite scn_data_update_data.
  destruct p as [p1 p2], q as [q1 q2]. cbn [fst snd].
  destruct (decide (p1 = q1)) as [<- | Hne1].
  - destruct (decide (p2 = q2)) as [<- | Hne2].
    + rewrite decide_True by reflexivity. apply list_lookup_alter_eq.
    + rewrite decide_False by congruence. now apply list_lookup_alter_ne.
  - rewrite decide_False by congruence. reflexivity.
Qed.

Lemma rewrite_site_nonempty ehdr name target off info r :
  rewrite_site ehdr name target off info = Ok r → target ≠ [].
Proof.
  destruct r as [t i]. intros (_ & opc & Hload & _)%rewrite_site_Ok ->.
  apply load_Ok in Hload as [_ Hload]. discriminate.
Qed.

Lemma reloc_at_update_rel d i rel l :
  d_buf d = BRel l →
  is_Some (gelf_getrel d i) →
  reloc_at (set_d_dirty (gelf_update_rel d i rel)) i
  = Some (r_offset rel, r_info rel).
Proof.
  unfold reloc_at, gelf_update_rel, gelf_getrel. intros Hb. rewrite Hb.
  cbn [set_d_dirty set_d_buf d_buf].
  destruct (0 <=? i); intros [r Hr]; [| discriminate].
  rewrite list_lookup_insert_eq by eauto using lookup_lt_Some. reflexivity.
Qed.

Lemma reloc_at_update_rela d i rela l :
  d_buf d = BRela l →
  is_Some (gelf_getrela d i) →
  reloc_at (set_d_dirty (gelf_update_rela d i rela)) i
  = Some (ra_offset rela, ra_info rela).
Proof.
  unfold reloc_at, gelf_update_rela, gelf_getrela. intros Hb. rewrite Hb.
  cbn [set_d_dirty set_d_buf d_buf].
  destruct (0 <=? i); intros [r Hr]; [| discriminate].
  rewrite list_lookup_insert_eq by eauto using lookup_lt_Some. reflexivity.
Qed.

Lemma getrel_update_rel d i rel :
  is_Some (gelf_getrel d i) →
  gelf_getrel (set_d_dirty (gelf_update_rel d i rel)) i = Some rel.
Proof.
  unfold gelf_update_rel, gelf_getrel.
  destruct (d_buf d) eqn:Hb; intros [r Hr]; try discriminate.
  cbn [set_d_dirty set_d_buf d_buf].
  destruct (0 <=? i); [| discriminate].
  apply list_lookup_insert_eq. eauto using lookup_lt_Some.
Qed.

Lemma getrela_update_rela d i rela :
  is_Some (gelf_getrela d i) →
  gelf_getrela (set_d_dirty (gelf_update_rela d i rela)) i = Some rela.
Proof.
  unfold gelf_update_rela, gelf_getrela.
  destruct (d_buf d) eqn:Hb; intros [r Hr]; try discriminate.
  cbn [set_d_dirty set_d_buf d_buf].
  destruct (0 <=? i); [| discriminate].
  apply list_lookup_insert_eq. eauto using lookup_lt_Some.
Qed.

Lemma getrel_reloc_at d i rel :
  gelf_getrel d i = Some rel →
  reloc_at d i = Some (r_offset rel, r_info rel) ∧ ∃ l, d_buf d = BRel l.
Proof.
  unfold reloc_at, gelf_getrel. destruct (d_buf d) eqn:Hb; try discriminate.
  intros Hr. rewrite Hr. eauto.
Qed.

Lemma getrela_reloc_at d i rela :
  gelf_getrela d i = Some rela →
  reloc_at d i = Some (ra_offset rela, ra_info rela) ∧ ∃ l, d_buf d = BRela l.
Proof.
  unfold reloc_at, gelf_getrela. destruct (d_buf d) eqn:Hb; try discriminate.
  intros Hr. rewrite Hr. eauto.
Qed.

Section Entry.

Context (verbose : bool).

(** What the body of the scanning loop does for one entry: the entry is
    handed to [process_rel]; if that returns 0 the text buffer and the
    entry are written back and both buffers are flagged, otherwise the
    object is left as it is. *)
Lemma process_entry_Ok ehdr shdr symshdr symscn targdata reldata i e plist out
    e' plist' out' :
  process_entry verbose ehdr shdr symshdr symscn targdata reldata i
                (e, plist, out) = Ok (e', plist', out') →
  ∃ rd td off info ret target' info',
    get_data e reldata = Some rd ∧
    get_data e targdata = Some td ∧
    reloc_at rd i = Some (off, info) ∧
    process_rel verbose e ehdr symshdr symscn (buf_bytes (d_buf td)) off info
                plist out = Ok (ret, target', info', plist', out') ∧
    (ret ≠ 0 ∧ e' = e
     ∨ ret = 0 ∧ targdata ≠ reldata ∧
       (∃ rd', get_data e' reldata = Some rd' ∧
               reloc_at rd' i = Some (off, info')) ∧
       get_data e' targdata = Some (set_d_dirty (set_d_buf td (BBytes target'))) ∧
       (∀ q, q ≠ targdata → q ≠ reldata → get_data e' q = get_data e q) ∧
       (∀ scn, gelf_getshdr e' scn = gelf_getshdr e scn) ∧
       length (elf_scns e') = length (elf_scns e) ∧
       elf_shstrndx e' = elf_shstrndx e ∧
       (∃ rd',
          get_data e' reldata = Some rd' ∧
          (sh_type shdr = SHT_REL ∧
           gelf_getrel rd' i = Some {| r_offset := off; r_info := info' |}
           ∨ sh_type shdr ≠ SHT_REL ∧ sh_type shdr = SHT_RELA ∧
             ∃ a, gelf_getrela rd' i
                  = Some {| ra_offset := off; ra_info := info';
                            ra_addend := a |}))).
Proof.
  unfold process_entry. intros H.
  run_step H. apply deref_Ok in E. rename a into rd.
  run_step H. apply deref_Ok in E0. rename a into td.
  exists rd, td.
  assert (∀ ret target' info' off info,
            process_rel verbose e ehdr symshdr symscn (buf_bytes (d_buf td))
                        off info plist out
              = Ok (ret, target', info', plist', out') →
            ret = 0 → is_Some (reloc_at rd i) → targdata ≠ reldata) as Hdiff.
  { intros ret t' i' off info Hrun -> [oi Hoi] <-.
    apply process_rel_rewritten in Hrun
      as (sym & name & _ & _ & _ & _ & _ & Hsite & _).
    apply rewrite_site_nonempty in Hsite.
    assert (td = rd) as -> by congruence.
    unfold reloc_at in Hoi. destruct (d_buf rd); try discriminate;
      now apply Hsite. }
  run_step H.
  - run_step H. apply or_errx_Ok in E2. rename a into rel.
    run_step H. destruct a as [[[[ret target'] info'] pl] o].
    cbn beta iota in H.
    destruct (getrel_reloc_at _ _ _ E2) as [Hat [l Hl]].
    exists (r_offset rel), (r_info rel), ret, target', info'.
    run_step H; simplify_eq.
    + apply Z.eqb_eq in E4. subst ret.
      split; [assumption |]. split; [assumption |]. split; [assumption |].
      split; [assumption |]. right. split; [reflexivity |].
      pose proof (Hdiff _ _ _ _ _ E3 eq_refl (mk_is_Some _ _ Hat)) as Hne.
      split; [assumption |].
      rewrite !get_data_update_data.
      rewrite !(decide_True (P := reldata = reldata)) by reflexivity.
      rewrite !(decide_True (P := targdata = targdata)) by reflexivity.
      rewrite !(decide_False (P := targdata = reldata)) by assumption.
      rewrite !(decide_False (P := reldata = targdata)) by congruence.
      rewrite E, E0. cbn [fmap option_fmap option_map].
      split.
      { eexists. split; [reflexivity |].
        erewrite reloc_at_update_rel; eauto. }
      split; [reflexivity |].
      split.
      { intros q Hq1 Hq2. rewrite !get_data_update_data.
        rewrite !(decide_False (P := targdata = q)) by congruence.
        rewrite !(decide_False (P := reldata = q)) by congruence.
        reflexivity. }
      split.
      { intros scn. now rewrite !getshdr_update_data. }
      split; [now rewrite !length_scns_update_data |].
      split; [reflexivity |].
      eexists. split; [reflexivity |]. left.
      split; [now apply Z.eqb_eq |].
      apply getrel_update_rel. eauto.
    + apply Z.eqb_neq in E4.
      repeat (split; [assumption |]). left. auto.
  - run_step H.
    run_step H. apply or_errx_Ok in E3. rename a into rela.
    run_step H. destruct a as [[[[ret target'] info'] pl] o].
    cbn beta iota in H.
    destruct (getrela_reloc_at _ _ _ E3) as [Hat [l Hl]].
    exists (ra_offset rela), (ra_info rela), ret, target', info'.
    run_step H; simplify_eq.
    + apply Z.eqb_eq in E5. subst ret.
      split; [assumption |]. split; [assumption |]. split; [assumption |].
      split; [assumption |]. right. split; [reflexivity |].
      pose proof (Hdiff _ _ _ _ _ E4 eq_refl (mk_is_Some _ _ Hat)) as Hne.
      split; [assumption |].
      rewrite !get_data_update_data.
      rewrite !(decide_True (P := reldata = reldata)) by reflexivity.
      rewrite !(decide_True (P := targdata = targdata)) by reflexivity.
      rewrite !(decide_False (P := targdata = reldata)) by assumption.
      rewrite !(decide_False (P := reldata = targdata)) by congruence.
      rewrite E, E0. cbn [fmap option_fmap option_map].
      split.
      { eexists. split; [reflexivity |].
        erewrite reloc_at_update_rela; eauto. }
      split; [reflexivity |].
      split.
      { intros q Hq1 Hq2. rewrite !get_data_update_data.
        rewrite !(decide_False (P := targdata = q)) by congruence.
        rewrite !(decide_False (P := reldata = q)) by congruence.
        reflexivity. }
      split.
      { intros scn. now rewrite !getshdr_update_data. }
      split; [now rewrite !length_scns_update_data |].
      split; [reflexivity |].
      eexists. split; [reflexivity |]. right.
      split; [now apply Z.eqb_neq |].
      split; [apply negb_false_iff in E2; now apply Z.eqb_eq |].
      eexists. apply getrela_update_rela. eauto.
    + apply Z.eqb_neq in E5.
      repeat (split; [assumption |]). left. auto.
Qed.

End Entry.

Lemma entry_at_reloc_at d i off info addend :
  entry_at d i = Some (off, info, addend) → reloc_at d i = Some (off, info).
Proof.
  unfold entry_at, reloc_at. destruct (d_buf d); try discriminate.
  - destruct (gelf_getrel d i); cbn; intros; now simplify_eq.
  - destruct (gelf_getrela d i); cbn; intros; now simplify_eq.
Qed.

Lemma entry_at_updated_rel d i rel x j :
  gelf_getrel d i = Some rel →
  entry_at (set_d_dirty
              (gelf_update_rel d i {| r_offset := r_offset rel; r_info := x |}))
           j
  = if decide (j = i) then Some (r_offset rel, x, None) else entry_at d j.
Proof.
  unfold entry_at, gelf_update_rel, gelf_getrel.
  destruct (d_buf d) as [| l | |] eqn:Hb; try discriminate.
  cbn [set_d_dirty set_d_buf d_buf].
  destruct (Z.leb_spec 0 i); [| discriminate].
  intros Hi. destruct (decide (j = i)) as [-> | Hne].
  - destruct (Z.leb_spec 0 i); [| lia].
    now rewrite list_lookup_insert_eq by eauto using lookup_lt_Some.
  - destruct (Z.leb_spec 0 j); [| reflexivity].
    now rewrite list_lookup_insert_ne by lia.
Qed.

Lemma entry_at_updated_rela d i rela x j :
  gelf_getrela d i = Some rela →
  entry_at (set_d_dirty
              (gelf_update_rela d i {| ra_offset := ra_offset rela;
                                       ra_info := x;
                                       ra_addend := ra_addend rela |}))
           j
  = if decide (j = i) then Some (ra_offset rela, x, Some (ra_addend rela))
    else entry_at d j.
Proof.
  unfold entry_at, gelf_update_rela, gelf_getrela.
  destruct (d_buf d) as [| | l |] eqn:Hb; try discriminate.
  cbn [set_d_dirty set_d_buf d_buf].
  destruct (Z.leb_spec 0 i); [| discriminate].
  intros Hi. destruct (decide (j = i)) as [-> | Hne].
  - destruct (Z.leb_spec 0 i); [| lia].
    now rewrite list_lookup_insert_eq by eauto using lookup_lt_Some.
  - destruct (Z.leb_spec 0 j); [| reflexivity].
    now rewrite list_lookup_insert_ne by lia.
Qed.

Lemma getrel_entry_at d i rel :
  gelf_getrel d i = Some rel →
  entry_at d i = Some (r_offset rel, r_info rel, None).
Proof.
  unfold entry_at, gelf_getrel. destruct (d_buf d) eqn:Hb; try discriminate.
  intros Hr. now rewrite Hr.
Qed.

Lemma getrela_entry_at d i rela :
  gelf_getrela d i = Some rela →
  entry_at d i = Some (ra_offset rela, ra_info rela, Some (ra_addend rela)).
Proof.
  unfold entry_at, gelf_getrela. destruct (d_buf d) eqn:Hb; try discriminate.
  intros Hr. now rewrite Hr.
Qed.

(** C9: rewriting a relocation touches the type field of its info word
    and nothing else.  The entry keeps its offset, the symbol index of
    its info word, so that it still refers to the probe stub, and, in an
    [SHT_RELA] section, its addend; the info word is as it was or is the
    old one with the type cleared; and the other entries of the buffer
    are as they were. *)
Theorem rewrite_keeps_offset_and_symbol verbose ehdr shdr symshdr symscn
    targdata reldata i e plist out e' plist' out' rd off info addend :
  process_entry verbose ehdr shdr symshdr symscn targdata reldata i
                (e, plist, out) = Ok (e', plist', out') →
  get_data e reldata = Some rd →
  entry_at rd i = Some (off, info, addend) →
  0 <= info < 2 ^ 64 →
  ∃ rd' info',
    get_data e' reldata = Some rd' ∧
    entry_at rd' i = Some (off, info', addend) ∧
    reloc_at rd' i = Some (off, info') ∧
    GELF_R_SYM info' = GELF_R_SYM info ∧
    (info' = info ∨ info' = neutralized info) ∧
    ∀ j, j ≠ i → entry_at rd' j = entry_at rd j.
Proof.
  intros Hrun Hrd Hat Hinfo.
  pose proof (process_entry_Ok _ _ _ _ _ _ _ _ _ _ _ _ _ _ Hrun)
    as (rd0 & td & off0 & info0 & ret & target' & info' & Hrd0 & Htd & Hat0
        & Hrel & Hcase).
  assert (rd0 = rd) as -> by congruence.
  assert (off0 = off ∧ info0 = info) as [-> ->].
  { apply entry_at_reloc_at in Hat. rewrite Hat in Hat0. now injection Hat0. }
  destruct Hcase as [[Hret ->] | (-> & Hne & _)].
  { exists rd, info. split; [assumption |]. split; [assumption |].
    split; [assumption |]. auto. }
  pose proof Hrel as Hrel'.
  apply process_rel_rewritten in Hrel'
    as (sym & name & _ & _ & _ & _ & _ & Hsite & _).
  apply rewrite_site_Ok in Hsite as (_ & opc & _ & _ & _ & _ & _ & Hinfo').
  assert (∀ d' : Elf_Data,
            entry_at d' i = Some (off, info', addend) →
            reloc_at d' i = Some (off, info') ∧
            GELF_R_SYM info' = GELF_R_SYM info ∧
            (info' = info ∨ info' = neutralized info)) as Hrest.
  { intros d' Hd'. split; [now apply entry_at_reloc_at in Hd' |].
    subst info'. split; [now apply neutralized_sym | now right]. }
  unfold process_entry in Hrun. rewrite Hrd, Htd in Hrun.
  cbn [deref mbind result_bind] in Hrun.
  run_step Hrun.
  - run_step Hrun. rename a into rel.
    run_step Hrun. destruct a as [[[[ret t'] i'] pl] o]. cbn beta iota in Hrun.
    apply or_errx_Ok in E0.
    pose proof (getrel_entry_at _ _ _ E0) as Hat'.
    assert (off = r_offset rel ∧ info = r_info rel ∧ addend = None)
      as (-> & -> & ->) by (repeat split; congruence).
    assert (ret = 0 ∧ t' = target' ∧ i' = info' ∧ pl = plist' ∧ o = out')
      as (-> & -> & -> & -> & ->) by (repeat split; congruence).
    run_step Hrun; [| discriminate].
    assert (e' = update_data
                   (update_data
                      (update_data
                         (update_data e targdata
                            (fun d => set_d_buf d (BBytes target')))
                         reldata
                         (fun d => gelf_update_rel d i
                                     {| r_offset := r_offset rel;
                                        r_info := info' |}))
                      targdata set_d_dirty)
                   reldata set_d_dirty) as -> by congruence.
    rewrite !get_data_update_data.
    rewrite !(decide_True (P := reldata = reldata)) by reflexivity.
    rewrite !(decide_False (P := targdata = reldata)) by assumption.
    rewrite Hrd. cbn [fmap option_fmap option_map].
    eexists _, _. split; [reflexivity |].
    assert (∀ j, entry_at
                   (set_d_dirty
                      (gelf_update_rel rd i {| r_offset := r_offset rel;
                                               r_info := info' |})) j
                 = if decide (j = i) then Some (r_offset rel, info', None)
                   else entry_at rd j) as Hall
      by (intros j; now apply entry_at_updated_rel).
    pose proof (Hall i) as Hi. rewrite decide_True in Hi by reflexivity.
    split; [exact Hi |].
    destruct (Hrest _ Hi) as (? & ? & ?).
    do 3 (split; [assumption |]).
    intros j Hj. rewrite Hall. now rewrite decide_False by exact Hj.
  - run_step Hrun. run_step Hrun. rename a into rela.
    run_step Hrun. destruct a as [[[[ret t'] i'] pl] o]. cbn beta iota in Hrun.
    apply or_errx_Ok in E1.
    pose proof (getrela_entry_at _ _ _ E1) as Hat'.
    assert (off = ra_offset rela ∧ info = ra_info rela ∧
            addend = Some (ra_addend rela))
      as (-> & -> & ->) by (repeat split; congruence).
    assert (ret = 0 ∧ t' = target' ∧ i' = info' ∧ pl = plist' ∧ o = out')
      as (-> & -> & -> & -> & ->) by (repeat split; congruence).
    run_step Hrun; [| discriminate].
    assert (e' = update_data
                   (update_data
                      (update_data
                         (update_data e targdata
                            (fun d => set_d_buf d (BBytes target')))
                         reldata
                         (fun d => gelf_update_rela d i
                                     {| ra_offset := ra_offset rela;
                                        ra_info := info';
                                        ra_addend := ra_addend rela |}))
                      targdata set_d_dirty)
                   reldata set_d_dirty) as -> by congruence.
    rewrite !get_data_update_data.
    rewrite !(decide_True (P := reldata = reldata)) by reflexivity.
    rewrite !(decide_False (P := targdata = reldata)) by assumption.
    rewrite Hrd. cbn [fmap option_fmap option_map].
    eexists _, _. split; [reflexivity |].
    assert (∀ j, entry_at
                   (set_d_dirty
                      (gelf_update_rela rd i {| ra_offset := ra_offset rela;
                                                ra_info := info';
                                                ra_addend := ra_addend rela |}))
                   j
                 = if decide (j = i)
                   then Some (ra_offset rela, info', Some (ra_addend rela))
                   else entry_at rd j) as Hall
      by (intros j; now apply entry_at_updated_rela).
    pose proof (Hall i) as Hi. rewrite decide_True in Hi by reflexivity.
    split; [exact Hi |].
    destruct (Hrest _ Hi) as (? & ? & ?).
    do 3 (split; [assumption |]).
    intros j Hj. rewrite Hall. now rewrite decide_False by exact Hj.
Qed.

(** At the first text relocation of [obj_call], whose addend is -4. *)
Lemma rewrite_keeps_offset_and_symbol_witness :
  ∃ rd' info',
    get_data (sample_entry_elf obj_call) (2%nat, 0%nat) = Some rd' ∧
    entry_at rd' 0 = Some (0x10, info', Some (-4)) ∧
    reloc_at rd' 0 = Some (0x10, info') ∧
    GELF_R_SYM info' = GELF_R_SYM (Z.lor (Z.shiftl 2 32) R_X86_64_PLT32) ∧
    (info' = Z.lor (Z.shiftl 2 32) R_X86_64_PLT32
     ∨ info' = neutralized (Z.lor (Z.shiftl 2 32) R_X86_64_PLT32)) ∧
    ∀ j, j ≠ 0 →
         entry_at rd' j
         = entry_at (mk_data (BRela [mk_rela 0x10 2 R_X86_64_PLT32])
                             ELF_T_RELA) j.
Proof.
  refine (rewrite_keeps_offset_and_symbol true (elf_ehdr obj_call)
            (default zero_shdr (gelf_getshdr obj_call 2%nat))
            (sample_symshdr obj_call) 5%nat (1%nat, 0%nat) (2%nat, 0%nat) 0
            obj_call [] [] (sample_entry_elf obj_call)
            [{| symname := stub_lookup; offset := 0x10 |}]
            [M_updated stub_lookup 0xf]
            (mk_data (BRela [mk_rela 0x10 2 R_X86_64_PLT32]) ELF_T_RELA)
            0x10 (Z.lor (Z.shiftl 2 32) R_X86_64_PLT32) (Some (-4)) _ _ _ _);
    try (vm_compute; reflexivity); vm_compute; intuition congruence.
Defined.

(** ** The scan *)

Lemma rewritten_sites_app a b :
  rewritten_sites (a ++ b) = rewritten_sites a ++ rewritten_sites b.
Proof. apply omap_app. Qed.

Section Scan.

Context (verbose : bool).

Lemma scan_step_refl st : scan_step verbose st st.
Proof.
  split; [reflexivity |]. split; [reflexivity |].
  exists []. split; [now rewrite app_nil_r | reflexivity].
Qed.

Lemma scan_step_trans st0 st1 st2 :
  scan_step verbose st0 st1 → scan_step verbose st1 st2 →
  scan_step verbose st0 st2.
Proof.
  intros (Hl1 & Hx1 & new1 & Ho1 & Hs1) (Hl2 & Hx2 & new2 & Ho2 & Hs2).
  split; [congruence |]. split; [congruence |].
  exists (new1 ++ new2). split.
  - rewrite Ho2, Ho1. now rewrite app_assoc.
  - intros Hv. rewrite Hs2, Hs1 by assumption.
    rewrite rewritten_sites_app, rev_app_distr. now rewrite app_assoc.
Qed.

Lemma scan_step_log e plist out m :
  rewritten_sites [m] = [] →
  scan_step verbose (e, plist, out) (e, plist, LOG verbose m out).
Proof.
  intros Hm. split; [reflexivity |]. split; [reflexivity |].
  unfold LOG. destruct verbose.
  - exists [m]. split; [reflexivity |]. intros _. now rewrite Hm.
  - exists []. split; [now rewrite app_nil_r | discriminate].
Qed.

Lemma process_entry_step ehdr shdr symshdr symscn targdata reldata i st st' :
  process_entry verbose ehdr shdr symshdr symscn targdata reldata i st = Ok st' →
  scan_step verbose st st'.
Proof.
  destruct st as [[e plist] out], st' as [[e' plist'] out']. intros Hrun.
  apply process_entry_Ok in Hrun
    as (rd & td & off & info & ret & target' & info' & _ & _ & _ & Hrel & Hcase).
  destruct Hcase as [[Hret ->] | (-> & _ & _ & _ & _ & _ & Hlen & Hndx & _)].
  - apply process_rel_skipped in Hrel as (_ & _ & _ & -> & ->); [| assumption].
    apply scan_step_refl.
  - apply process_rel_rewritten in Hrel
      as (sym & name & _ & _ & _ & _ & _ & _ & -> & ->).
    split; [assumption |]. split; [assumption |]. cbn [fst snd].
    unfold LOG. destruct verbose.
    + eexists [_]. split; [reflexivity |]. intros _. reflexivity.
    + exists []. split; [now rewrite app_nil_r | discriminate].
Qed.

Lemma entry_loop_step fuel ehdr shdr symshdr symscn targdata reldata n i st
    i' st' :
  entry_loop verbose fuel ehdr shdr symshdr symscn targdata reldata n i st
    = Ok (i', st') →
  scan_step verbose st st'.
Proof.
  revert i st. induction fuel as [| fuel IH]; intros i st H; simpl in H.
  - run_step H. simplify_eq. apply scan_step_refl.
  - run_step H.
    + simplify_eq. apply scan_step_refl.
    + run_step H. apply process_entry_step in E0. apply IH in H.
      eapply scan_step_trans; eassumption.
Qed.

(** Below 2^32 entries the counter does not wrap and the loop ends by
    itself: iterations beyond [loop_fuel] change nothing. *)
Lemma entry_loop_fuel k fuel ehdr shdr symshdr symscn targdata reldata
    n i st :
  0 <= i → n < 2 ^ 32 → (Z.to_nat (n - i) ≤ fuel)%nat →
  entry_loop verbose (fuel + k) ehdr shdr symshdr symscn targdata reldata n i st
  = entry_loop verbose fuel ehdr shdr symshdr symscn targdata reldata n i st.
Proof.
  revert i st. induction fuel as [| fuel IH]; intros i st Hi Hn Hfuel.
  - destruct k; cbn [Nat.add entry_loop];
      destruct (Z.ltb_spec i n); (reflexivity || lia).
  - cbn [Nat.add entry_loop]. destruct (Z.ltb_spec i n); [| reflexivity].
    cbn [negb].
    destruct (process_entry _ _ _ _ _ _ _ _ _) as [st1 | f |];
      cbn [mbind result_bind]; try reflexivity.
    assert (u32 (i + 1) = i + 1) as ->
      by (unfold u32; apply Z.mod_small; lia).
    apply IH; lia.
Qed.

Lemma data_loop_step ks ehdr shdr symshdr scn symscn targdata i st st' :
  data_loop verbose ks ehdr shdr symshdr scn symscn targdata i st = Ok st' →
  scan_step verbose st st'.
Proof.
  revert i st. induction ks as [| k ks IH]; intros i st H; simpl in H.
  - simplify_eq. apply scan_step_refl.
  - run_step H. run_step H. destruct a0 as [i1 st1]. cbn beta iota in H.
    apply entry_loop_step in E0. apply IH in H.
    eapply scan_step_trans; eassumption.
Qed.

Lemma process_reloc_scn_step e ehdr shdr scn plist out st' :
  process_reloc_scn verbose e ehdr shdr scn plist out = Ok st' →
  scan_step verbose (e, plist, out) st'.
Proof.
  unfold process_reloc_scn. intros H.
  do 4 run_step H. run_step H.
  - simplify_eq. now apply scan_step_log.
  - do 2 run_step H. now apply data_loop_step in H.
Qed.

Lemma scan_sections_step scns ehdr st st' :
  scan_sections verbose scns ehdr st = Ok st' → scan_step verbose st st'.
Proof.
  revert st. induction scns as [| scn scns IH]; intros st H; simpl in H.
  - simplify_eq. apply scan_step_refl.
  - destruct st as [[e plist] out]. run_step H. run_step H.
    apply IH in H. eapply scan_step_trans; [| eassumption].
    run_step E0.
    + now apply process_reloc_scn_step in E0.
    + simplify_eq. apply scan_step_refl.
Qed.

End Scan.

(** ** Instance records *)

Lemma Z_of_byte_of_Z z : Z_of_byte (byte_of_Z z) = z mod 256.
Proof.
  unfold Z_of_byte, byte_of_Z.
  pose proof (Z.mod_pos_bound z 256 ltac:(lia)) as Hr.
  destruct (Byte.of_N (Z.to_N (z mod 256))) as [b |] eqn:Hb.
  - apply Byte.to_of_N in Hb. rewrite Hb. lia.
  - apply Byte.of_N_None_iff in Hb. lia.
Qed.

Lemma le_value_le_bytes n z : le_value (le_bytes n z) = z mod 2 ^ (8 * Z.of_nat n).
Proof.
  revert z. induction n as [| n IH]; intros z.
  - simpl. now rewrite Z.mod_1_r.
  - cbn [le_bytes le_value]. rewrite IH, Z_of_byte_of_Z, Z.shiftr_div_pow2 by lia.
    replace (8 * Z.of_nat (S n)) with (8 + 8 * Z.of_nat n) by lia.
    rewrite Z.pow_add_r by lia. change (2 ^ 8) with 256.
    rewrite (Z.rem_mul_r z 256 (2 ^ (8 * Z.of_nat n))) by lia. reflexivity.
Qed.

Lemma length_le_bytes n z : length (le_bytes n z) = n.
Proof. revert z. induction n; intros z; simpl; auto. Qed.

Lemma length_sdt_instance_bytes p o : length (sdt_instance_bytes p o) = 16%nat.
Proof. unfold sdt_instance_bytes. now rewrite length_app, !length_le_bytes. Qed.

Lemma decode_sdt_instance_bytes p o :
  decode_instance (sdt_instance_bytes p o) = (u64 p, u64 o).
Proof.
  unfold decode_instance, sdt_instance_bytes.
  rewrite take_app_length' by (now rewrite length_le_bytes).
  rewrite drop_app_length' by (now rewrite length_le_bytes).
  rewrite take_ge by (rewrite length_le_bytes; lia).
  now rewrite !le_value_le_bytes.
Qed.

Lemma records_of_app b l :
  length b = 16%nat → records_of (b ++ l) = decode_instance b :: records_of l.
Proof.
  intros Hb. unfold records_of. rewrite length_app, Hb.
  replace ((16 + length l) / 16)%nat with (S (length l / 16))%nat.
  2:{ replace (16 + length l)%nat with (1 * 16 + length l)%nat by lia.
      rewrite Nat.div_add_l by lia. lia. }
  cbn [seq fmap list_fmap]. f_equal.
  - now rewrite Nat.mul_0_r, drop_0, take_app_length' by (now rewrite Hb).
  - rewrite <- fmap_S_seq, <- list_fmap_compose.
    apply list_fmap_ext. intros _ i _. cbn [compose].
    replace (16 * S i)%nat with (length b + 16 * i)%nat by lia.
    now rewrite drop_app_add.
Qed.

Lemma records_of_instances plist :
  records_of (concat ((fun inst => sdt_instance_bytes 0 (offset inst)) <$> plist))
  = (fun inst => (0, u64 (offset inst))) <$> plist.
Proof.
  induction plist as [| inst plist IH]; [reflexivity |].
  cbn [fmap list_fmap concat].
  rewrite records_of_app by apply length_sdt_instance_bytes.
  rewrite decode_sdt_instance_bytes. f_equal. exact IH.
Qed.

(** ** The emitter *)

Lemma scn_data_ge e scn : (length (elf_scns e) ≤ scn)%nat → scn_data e scn = [].
Proof.
  intros Hge. unfold scn_data.
  now rewrite (proj2 (lookup_ge_None _ _)) by lia.
Qed.

Lemma quiet_refl out : quiet out out.
Proof. exists []. split; [now rewrite app_nil_r | reflexivity]. Qed.

Lemma quiet_trans a b c : quiet a b → quiet b c → quiet a c.
Proof.
  intros (n1 & -> & H1) (n2 & -> & H2). exists (n1 ++ n2).
  split; [now rewrite app_assoc |].
  now rewrite rewritten_sites_app, H1, H2.
Qed.

Section Emitter.

Context (verbose : bool).

Lemma quiet_LOG m out : rewritten_sites [m] = [] → quiet out (LOG verbose m out).
Proof.
  intros Hm. unfold LOG. destruct verbose; [| apply quiet_refl].
  exists [m]. auto.
Qed.

(** What [add_section] leaves behind: a new last section without data;
    the data of every section but the string table is as before. *)
Lemma add_section_Ok e name type flags out e' newscn out' :
  add_section verbose e name type flags out = Ok (e', newscn, out') →
  newscn = length (elf_scns e) ∧
  length (elf_scns e') = S (length (elf_scns e)) ∧
  elf_shstrndx e' = elf_shstrndx e ∧
  0 <= elf_shstrndx e < Z.of_nat (length (elf_scns e)) ∧
  scn_data e' newscn = [] ∧
  (∀ scn, Z.of_nat scn ≠ elf_shstrndx e → scn_data e' scn = scn_data e scn) ∧
  quiet out out'.
Proof.
  unfold add_section. intros H.
  run_step H. apply or_errx_Ok in E. rename a into strscn.
  pose proof (elf_getscn_range _ _ _ E) as [Hrange _].
  apply elf_getscn_Some in E as [-> Hlt].
  do 2 run_step H. clear E E0.
  destruct (elf_newscn _) as [e1 newscn1] eqn:Hnew.
  run_step H. clear E. simplify_eq.
  set (d := {| d_buf := BBytes (name ++ [x00]); d_type := d_type a0;
               d_align := d_align a0; d_version := EV_CURRENT;
               d_dirty := false |}) in *.
  pose proof (scn_data_newscn (elf_newdata e (Z.to_nat (elf_shstrndx e)) d))
    as Hd.
  rewrite Hnew in Hd. cbn [fst] in Hd.
  assert (newscn = length (elf_scns e)) as ->.
  { apply (f_equal snd) in Hnew. cbn [snd elf_newscn] in Hnew.
    rewrite <- Hnew. apply length_scns_newdata. }
  assert (length (elf_scns e1) = S (length (elf_scns e))) as Hlen.
  { apply (f_equal fst) in Hnew. cbn [fst elf_newscn] in Hnew. subst e1.
    cbn [set_scns elf_scns]. rewrite length_app, length_scns_newdata.
    simpl. lia. }
  assert (elf_shstrndx e1 = elf_shstrndx e) as Hndx.
  { apply (f_equal fst) in Hnew. cbn [fst elf_newscn] in Hnew. now subst e1. }
  split; [reflexivity |]. split.
  { now rewrite !length_scns_update_shdr. }
  split; [exact Hndx |]. split; [exact Hrange |]. split.
  { rewrite !scn_data_update_shdr, Hd, scn_data_newdata.
    rewrite decide_False by lia. now apply scn_data_ge. }
  split.
  { intros scn Hscn. rewrite !scn_data_update_shdr, Hd, scn_data_newdata.
    rewrite decide_False; [reflexivity | lia]. }
  apply quiet_LOG. reflexivity.
Qed.

Lemma match_loop_quiet fuel e proberelshdr symshdr symtab inst d n i found out
    i' found' out' :
  match_loop verbose fuel e proberelshdr symshdr symtab inst d n i found out
    = Ok (i', found', out') →
  quiet out out'.
Proof.
  revert i. induction fuel as [| fuel IH]; intros i H; simpl in H.
  - run_step H. simplify_eq. apply quiet_refl.
  - run_step H; [simplify_eq; apply quiet_refl |].
    run_step H. destruct a as [info off]. cbn beta iota in H.
    do 2 run_step H. run_step H; [now apply IH in H |].
    run_step H; [| now apply IH in H].
    simplify_eq. apply quiet_LOG. reflexivity.
Qed.

Lemma match_data_loop_quiet ds e proberelshdr symshdr symtab inst i found out
    found' out' :
  match_data_loop verbose ds e proberelshdr symshdr symtab inst i found out
    = Ok (found', out') →
  quiet out out'.
Proof.
  revert i found out. induction ds as [| d ds IH]; intros i found out H;
    simpl in H.
  - simplify_eq. apply quiet_refl.
  - do 2 run_step H. destruct a0 as [[i1 found1] out1]. cbn beta iota in H.
    apply match_loop_quiet in E0. apply IH in H.
    eapply quiet_trans; eassumption.
Qed.

(** What [record_instance] leaves behind: one more buffer in the instance
    section, holding the record of the instance; the data of the other
    sections is as before. *)
Lemma record_instance_Ok e ehdr instscn relscn inst out e' out' :
  record_instance verbose e ehdr instscn relscn inst out = Ok (e', out') →
  scn_data e' instscn = scn_data e instscn ++ [instance_data inst] ∧
  (∀ scn, scn ≠ instscn → scn_data e' scn = scn_data e scn) ∧
  length (elf_scns e') = length (elf_scns e) ∧
  quiet out out'.
Proof.
  unfold record_instance. intros H.
  run_step H. apply or_errx_Ok in E.
  fold (instance_data inst) in H.
  do 2 run_step H. clear E0. run_step H. clear E1.
  run_step H. run_step H. clear E2.
  destruct p as [[[proberelscn proberelshdr] symtab] symshdr].
  run_step H. destruct a3 as [found out1]. cbn beta iota in H.
  run_step H. simplify_eq.
  apply match_data_loop_quiet in E2.
  assert (is_Some (elf_scns e !! instscn)) as Hs.
  { unfold gelf_getshdr in E. destruct (elf_scns e !! instscn); [eauto |].
    discriminate. }
  split.
  { rewrite scn_data_update_shdr, scn_data_newdata.
    now rewrite decide_True by auto. }
  split.
  { intros scn Hne. rewrite scn_data_update_shdr, scn_data_newdata.
    rewrite decide_False; [reflexivity |]. intros [? _]. congruence. }
  split; [| assumption].
  now rewrite length_scns_update_shdr, length_scns_newdata.
Qed.

Lemma record_instances_Ok plist e ehdr instscn relscn out e' out' :
  record_instances verbose plist e ehdr instscn relscn out = Ok (e', out') →
  scn_data e' instscn = scn_data e instscn ++ (instance_data <$> plist) ∧
  (∀ scn, scn ≠ instscn → scn_data e' scn = scn_data e scn) ∧
  length (elf_scns e') = length (elf_scns e) ∧
  quiet out out'.
Proof.
  revert e out. induction plist as [| inst plist IH]; intros e out H;
    simpl in H.
  - simplify_eq. rewrite app_nil_r. auto using quiet_refl.
  - run_step H. destruct a as [e1 out1]. cbn beta iota in H.
    apply record_instance_Ok in E as (Hd1 & Hf1 & Hl1 & Hq1).
    apply IH in H as (Hd & Hf & Hl & Hq).
    split.
    { rewrite Hd, Hd1. cbn [fmap list_fmap]. now rewrite <- app_assoc. }
    split.
    { intros scn Hne. now rewrite Hf, Hf1. }
    split; [congruence |].
    eapply quiet_trans; eassumption.
Qed.

End Emitter.

(** ** Verbosity *)

(** The flag [-v] decides which messages are written and nothing else:
    a run without it and a run with it end the same way. *)

Ltac run_both H :=
  run_step H; cbn beta iota delta [mbind result_bind].

(** Replay in the verbose run the call that a hypothesis records for
    the quiet one. *)
Ltac replay lem :=
  match goal with
  | Hp : _ = Ok _ |- _ =>
      eapply lem in Hp; destruct Hp as [? Hp]; rewrite Hp; clear Hp;
      cbn beta iota delta [mbind result_bind] in *
  end.

Lemma add_section_verbose e name type flags out r out' :
  add_section false e name type flags out = Ok (r, out') →
  ∀ out2, ∃ out2', add_section true e name type flags out2 = Ok (r, out2').
Proof.
  unfold add_section. intros H out2. do 3 run_both H.
  destruct (elf_newscn _) as [e1 newscn]. run_both H.
  simplify_eq. eauto.
Qed.

Lemma process_rel_verbose e ehdr symshdr symtab target off info plist out r out' :
  process_rel false e ehdr symshdr symtab target off info plist out
    = Ok (r, out') →
  ∀ out2, ∃ out2',
    process_rel true e ehdr symshdr symtab target off info plist out2
    = Ok (r, out2').
Proof.
  unfold process_rel. intros H out2. do 2 run_both H.
  run_both H; [simplify_eq; eauto |].
  do 3 run_both H. destruct a1 as [t i]. simplify_eq. eauto.
Qed.

Lemma process_entry_verbose ehdr shdr symshdr symscn targdata reldata i e plist
    out st out' :
  process_entry false ehdr shdr symshdr symscn targdata reldata i
                (e, plist, out) = Ok (st, out') →
  ∀ out2, ∃ out2',
    process_entry true ehdr shdr symshdr symscn targdata reldata i
                  (e, plist, out2) = Ok (st, out2').
Proof.
  unfold process_entry. intros H out2. do 2 run_both H.
  run_both H.
  - run_both H. run_step H. destruct a2 as [r o].
    replay process_rel_verbose.
    destruct r as [[[ret t] inf] pl].
    run_both H; simplify_eq; eauto.
  - run_both H. run_both H. run_step H. destruct a2 as [r o].
    replay process_rel_verbose.
    destruct r as [[[ret t] inf] pl].
    run_both H; simplify_eq; eauto.
Qed.

Lemma entry_loop_verbose fuel ehdr shdr symshdr symscn targdata reldata n i e
    plist out i' st out' :
  entry_loop false fuel ehdr shdr symshdr symscn targdata reldata n i
             (e, plist, out) = Ok (i', (st, out')) →
  ∀ out2, ∃ out2',
    entry_loop true fuel ehdr shdr symshdr symscn targdata reldata n i
               (e, plist, out2) = Ok (i', (st, out2')).
Proof.
  revert i e plist out.
  induction fuel as [| fuel IH]; intros i e plist out H out2; cbn [entry_loop] in *.
  - run_both H. simplify_eq. eauto.
  - run_both H; [simplify_eq; eauto |].
    run_step H. destruct a as [[e1 pl1] o1].
    replay process_entry_verbose.
    eapply IH. eassumption.
Qed.

Lemma data_loop_verbose ks ehdr shdr symshdr scn symscn targdata i e plist out
    st out' :
  data_loop false ks ehdr shdr symshdr scn symscn targdata i (e, plist, out)
    = Ok (st, out') →
  ∀ out2, ∃ out2',
    data_loop true ks ehdr shdr symshdr scn symscn targdata i (e, plist, out2)
    = Ok (st, out2').
Proof.
  revert i e plist out.
  induction ks as [| k ks IH]; intros i e plist out H out2; cbn [data_loop] in *.
  - simplify_eq. eauto.
  - run_both H. run_step H. destruct a0 as [i1 [[e1 pl1] o1]].
    replay entry_loop_verbose.
    eapply IH. eassumption.
Qed.

Lemma process_reloc_scn_verbose e ehdr shdr scn plist out st out' :
  process_reloc_scn false e ehdr shdr scn plist out = Ok (st, out') →
  ∀ out2, ∃ out2',
    process_reloc_scn true e ehdr shdr scn plist out2 = Ok (st, out2').
Proof.
  unfold process_reloc_scn. intros H out2. do 4 run_both H.
  run_both H; [simplify_eq; eauto |].
  do 2 run_both H. eapply data_loop_verbose. eassumption.
Qed.

Lemma scan_sections_verbose scns ehdr e plist out st out' :
  scan_sections false scns ehdr (e, plist, out) = Ok (st, out') →
  ∀ out2, ∃ out2', scan_sections true scns ehdr (e, plist, out2) = Ok (st, out2').
Proof.
  revert e plist out.
  induction scns as [| scn scns IH]; intros e plist out H out2; cbn [scan_sections] in *.
  - simplify_eq. eauto.
  - run_both H. run_step H. destruct a0 as [[e1 pl1] o1].
    destruct ((sh_type a =? SHT_REL) || (sh_type a =? SHT_RELA)).
    + replay process_reloc_scn_verbose. eapply IH. eassumption.
    + simplify_eq. cbn beta iota delta [mbind result_bind].
      eapply IH. eassumption.
Qed.

Lemma match_loop_verbose fuel e proberelshdr symshdr symtab inst d n i found out
    r out' :
  match_loop false fuel e proberelshdr symshdr symtab inst d n i found out
    = Ok (r, out') →
  ∀ out2, ∃ out2',
    match_loop true fuel e proberelshdr symshdr symtab inst d n i found out2
    = Ok (r, out2').
Proof.
  revert i. induction fuel as [| fuel IH]; intros i H out2; cbn [match_loop] in *.
  - run_both H. simplify_eq. eauto.
  - run_both H; [simplify_eq; eauto |].
    run_both H. destruct a as [info off]. cbn beta iota in *.
    do 2 run_both H. run_both H; [now apply IH |].
    run_both H; [simplify_eq; eauto | now apply IH].
Qed.

Lemma match_data_loop_verbose ds e proberelshdr symshdr symtab inst i found out
    r out' :
  match_data_loop false ds e proberelshdr symshdr symtab inst i found out
    = Ok (r, out') →
  ∀ out2, ∃ out2',
    match_data_loop true ds e proberelshdr symshdr symtab inst i found out2
    = Ok (r, out2').
Proof.
  revert i found out.
  induction ds as [| d ds IH]; intros i found out H out2; cbn [match_data_loop] in *.
  - simplify_eq. eauto.
  - run_both H. run_step H. destruct a0 as [[i1 f1] o1].
    replay match_loop_verbose.
    eapply IH. eassumption.
Qed.

Lemma record_instance_verbose e ehdr instscn relscn inst out r out' :
  record_instance false e ehdr instscn relscn inst out = Ok (r, out') →
  ∀ out2, ∃ out2',
    record_instance true e ehdr instscn relscn inst out2 = Ok (r, out2').
Proof.
  unfold record_instance. intros H out2. do 3 run_both H.
  run_both H. run_both H. run_both H.
  destruct p as [[[proberelscn proberelshdr] symtab] symshdr].
  run_step H. destruct a3 as [found o1].
  replay match_data_loop_verbose.
  run_both H. simplify_eq. eauto.
Qed.

Lemma record_instances_verbose plist e ehdr instscn relscn out r out' :
  record_instances false plist e ehdr instscn relscn out = Ok (r, out') →
  ∀ out2, ∃ out2',
    record_instances true plist e ehdr instscn relscn out2 = Ok (r, out2').
Proof.
  revert e out.
  induction plist as [| inst plist IH]; intros e out H out2; cbn [record_instances] in *.
  - simplify_eq. eauto.
  - run_step H. destruct a as [e1 o1].
    replay record_instance_verbose.
    eapply IH. eassumption.
Qed.

Lemma process_elf_verbose verbose obj e out w out' :
  process_elf verbose obj e out = Ok (w, out') →
  ∃ out2', process_elf true obj e out = Ok (w, out2').
Proof.
  destruct verbose; [eauto |].
  unfold process_elf. intros H. run_both H; [simplify_eq; eauto |].
  run_step H. destruct a as [[e1 plist] o1].
  replay scan_sections_verbose.
  run_both H; [simplify_eq; eauto |].
  run_step H. destruct a as [[e2 instscn] o3].
  replay add_section_verbose.
  run_step H. destruct a as [[e3 instrelscn] o5].
  replay add_section_verbose.
  run_step H. destruct a as [e4 o7].
  replay record_instances_verbose.
  simplify_eq. eauto.
Qed.

(** ** A whole object *)

Lemma u64_pred_succ z : u64 (u64 (z - 1) + 1) = u64 z.
Proof.
  unfold u64. rewrite Zplus_mod_idemp_l. f_equal. lia.
Qed.

Lemma section_bytes_instances e scn plist :
  scn_data e scn = instance_data <$> plist →
  section_bytes e scn
  = concat ((fun inst => sdt_instance_bytes 0 (offset inst)) <$> plist).
Proof.
  intros Hd. unfold section_bytes. rewrite Hd, <- list_fmap_compose.
  reflexivity.
Qed.

(** What a run of [process_elf] that hands an object to [elf_update] did:
    the scan left a non-empty instance list; two sections were added at
    the end; the first holds one buffer per instance, in the order of the
    list, and the second holds nothing. *)
Lemma process_elf_Ok verbose obj e out e' out' :
  process_elf verbose obj e out = Ok (Some e', out') →
  ∃ e1 plist out1,
    scan_sections verbose (elf_sections e) (elf_ehdr e) (e, [], out)
      = Ok (e1, plist, out1) ∧
    plist ≠ [] ∧
    length (elf_scns e') = S (S (length (elf_scns e))) ∧
    scn_data e' (length (elf_scns e)) = instance_data <$> plist ∧
    scn_data e' (S (length (elf_scns e))) = [] ∧
    quiet out1 out'.
Proof.
  unfold process_elf. intros H.
  run_step H. run_step H. destruct a as [[e1 plist] out1].
  cbn beta iota in H. exists e1, plist, out1.
  split; [reflexivity |].
  pose proof (scan_sections_step _ _ _ _ _ E0) as (Hlen & _ & _).
  cbn [fst snd] in Hlen.
  assert (plist ≠ []) as Hne by (intros ->; discriminate).
  destruct plist as [| inst plist']; [contradiction |].
  set (plist := inst :: plist') in *. clearbody plist.
  run_step H. destruct a as [[e2 instscn] out2]. cbn beta iota in H.
  run_step H. destruct a as [[e3 instrelscn] out3]. cbn beta iota in H.
  run_step H. destruct a as [e4 out4]. cbn beta iota in H. simplify_eq.
  apply add_section_Ok in E1 as (-> & Hl2 & Hx2 & Hr2 & Hn2 & Hf2 & Hq2).
  apply add_section_Ok in E2 as (-> & Hl3 & Hx3 & Hr3 & Hn3 & Hf3 & Hq3).
  apply record_instances_Ok in E3 as (Hd4 & Hf4 & Hl4 & Hq4).
  rewrite <- Hlen.
  split; [exact Hne |].
  split; [congruence |].
  split.
  { rewrite Hd4, Hf3, Hn2 by lia. reflexivity. }
  split.
  { rewrite Hf4 by lia. rewrite <- Hl2. exact Hn3. }
  eauto using quiet_trans.
Qed.

(** The records of the instance section follow the instance list from
    its head, and with [-v] the sites are reported in the reverse of that
    order. *)
Lemma records_follow_instance_list verbose obj e out e' out' :
  process_elf verbose obj e out = Ok (Some e', out') →
  ∃ e1 plist out1,
    scan_sections verbose (elf_sections e) (elf_ehdr e) (e, [], out)
      = Ok (e1, plist, out1) ∧
    instance_records e' (length (elf_scns e))
      = (fun inst => (0, u64 (offset inst))) <$> plist ∧
    (verbose = true →
     ∃ new, out' = out ++ new ∧
            instance_records e' (length (elf_scns e))
            = (fun site => (0, u64 (site.2 + 1))) <$> rev (rewritten_sites new)).
Proof.
  intros Hrun.
  apply process_elf_Ok in Hrun
    as (e1 & plist & out1 & Hscan & _ & _ & Hdata & _ & Hq).
  exists e1, plist, out1. split; [exact Hscan |].
  assert (instance_records e' (length (elf_scns e))
          = (fun inst => (0, u64 (offset inst))) <$> plist) as Hrec.
  { unfold instance_records.
    rewrite (section_bytes_instances _ _ _ Hdata).
    apply records_of_instances. }
  split; [exact Hrec |].
  intros Hv.
  apply scan_sections_step in Hscan as (_ & _ & new1 & Hout1 & Hsites).
  cbn [fst snd] in Hout1, Hsites. specialize (Hsites Hv).
  destruct Hq as (new2 & -> & Hnew2).
  exists (new1 ++ new2). split.
  { rewrite Hout1. now rewrite app_assoc. }
  rewrite Hrec, rewritten_sites_app, Hnew2, app_nil_r.
  change (sites_of []) with (@nil (list byte * Z)) in Hsites.
  rewrite app_nil_r in Hsites. rewrite <- Hsites.
  unfold sites_of. rewrite <- list_fmap_compose.
  apply list_fmap_ext. intros _ inst _. cbn [compose snd].
  now rewrite u64_pred_succ.
Qed.

(** C4 (as amended): the records of the instance section are in the
    reverse of the order in which the sites were rewritten.  Whether [-v]
    is given or not, the object written is the one the run with [-v]
    writes, and its records, first to last, are the sites that run
    reports as rewritten, last to first. *)
Theorem records_in_reverse_processing_order verbose obj e out e' out' :
  process_elf verbose obj e out = Ok (Some e', out') →
  ∃ new,
    process_elf true obj e out = Ok (Some e', out ++ new) ∧
    instance_records e' (length (elf_scns e))
    = (fun site => (0, u64 (site.2 + 1))) <$> rev (rewritten_sites new).
Proof.
  intros Hrun.
  apply process_elf_verbose in Hrun as [out2 Hrun].
  destruct (records_follow_instance_list _ _ _ _ _ _ Hrun)
    as (_ & _ & _ & _ & _ & Hlog).
  destruct (Hlog eq_refl) as (new & -> & Hrec).
  exists new. auto.
Qed.

(** At the two calls of [obj_two_calls], without [-v]. *)
Lemma records_in_reverse_processing_order_witness :
  ∃ new,
    process_elf true "" obj_two_calls []
      = Ok (Some (rewritten obj_two_calls), [] ++ new) ∧
    instance_records (rewritten obj_two_calls) (length (elf_scns obj_two_calls))
    = (fun site => (0, u64 (site.2 + 1))) <$> rev (rewritten_sites new).
Proof.
  refine (records_in_reverse_processing_order false "" obj_two_calls []
            (rewritten obj_two_calls) [] _).
  vm_compute. reflexivity.
Defined.

(** C4, counterexample: with calls at 0x30 and 0x50, rewritten in that
    order, the first record is the one of 0x50. *)
Lemma records_not_in_processing_order :
  rewritten_sites (run_log obj_two_calls)
    = [(stub_lookup, 0x2f); (stub_lookup, 0x4f)] ∧
  instance_records (rewritten obj_two_calls) 8 = [(0, 0x50); (0, 0x30)] ∧
  ¬ records_in_processing_order obj_two_calls.
Proof.
  split; [vm_compute; reflexivity |]. split; [vm_compute; reflexivity |].
  intros Hclaim.
  specialize (Hclaim (rewritten obj_two_calls) (run_log obj_two_calls)).
  assert (process_elf true "" obj_two_calls []
          = Ok (Some (rewritten obj_two_calls), run_log obj_two_calls)) as Hrun
    by (vm_compute; reflexivity).
  specialize (Hclaim Hrun). vm_compute in Hclaim. discriminate Hclaim.
Qed.

(** ** Running twice *)

Lemma rewritten_opcode (target : list byte) (idx : nat) (jmp : bool) :
  (idx + 5 ≤ length target)%nat →
  (if jmp then <[idx := AMD64_RETQ]> else id)
    (list_inserts idx (replicate 5 AMD64_NOP) target) !! idx
  = Some (if jmp then AMD64_RETQ else AMD64_NOP).
Proof.
  intros Hlen. destruct jmp.
  - apply list_lookup_insert_eq. rewrite length_inserts. lia.
  - unfold id. rewrite list_lookup_inserts by (simpl; lia).
    now rewrite Nat.sub_diag.
Qed.

(** [process_rel] on what it has rewritten: the info word still names the
    probe stub, so the opcode check is reached, and it finds the NOP or
    RET written the first time. *)
Lemma process_rel_again verbose e ehdr symshdr symtab target off info
    plist out target' info' plist' out' e2 symshdr2 symtab2 plist2 out2 :
  process_rel verbose e ehdr symshdr symtab target off info plist out
    = Ok (0, target', info', plist', out') →
  0 <= info < 2 ^ 64 →
  symlookup e2 symtab2 (to_int (GELF_R_SYM info))
    = symlookup e symtab (to_int (GELF_R_SYM info)) →
  (∀ sym, symlookup e symtab (to_int (GELF_R_SYM info)) = Ok sym →
          elf_strptr e2 (sh_link symshdr2) (st_name sym)
          = elf_strptr e (sh_link symshdr) (st_name sym)) →
  ∃ opc name,
    (opc = AMD64_NOP ∨ opc = AMD64_RETQ) ∧
    GELF_R_SYM info' = GELF_R_SYM info ∧
    process_rel verbose e2 ehdr symshdr2 symtab2 target' off info' plist2 out2
      = Fatal (F_opcode opc name off).
Proof.
  intros Hrun Hinfo Hsym2 Hname2.
  apply process_rel_rewritten in Hrun
    as (sym & name & Hsym & Hname & Hpre & Hty & Hbind & Hsite & _).
  apply rewrite_site_Ok in Hsite
    as (Hm & opc & Hload & Hopc & _ & Hset & -> & ->).
  pose proof (load_lt _ _ _ Hload) as Hidx.
  exists (if bool_decide (opc = AMD64_JMP32) then AMD64_RETQ else AMD64_NOP),
         name.
  split; [destruct (bool_decide _); auto |].
  split; [now apply neutralized_sym |].
  unfold process_rel.
  rewrite neutralized_sym, Hsym2, Hsym by assumption.
  cbn [mbind result_bind]. rewrite (Hname2 _ Hsym), Hname.
  cbn [or_errx mbind result_bind]. rewrite Hpre, Hty, Hbind.
  unfold rewrite_site. rewrite Hm.
  change (negb (STT_NOTYPE =? STT_NOTYPE)) with false.
  change (negb (STB_GLOBAL =? STB_GLOBAL)) with false.
  change (EM_X86_64 =? EM_X86_64) with true. cbv iota.
  assert (load ((if bool_decide (opc = AMD64_JMP32)
                 then <[Z.to_nat (u64 (off - 1)) := AMD64_RETQ]> else id)
                  (list_inserts (Z.to_nat (u64 (off - 1)))
                                (replicate 5 AMD64_NOP) target))
               (u64 (off - 1))
          = Ok (if bool_decide (opc = AMD64_JMP32)
                then AMD64_RETQ else AMD64_NOP)) as ->.
  { unfold load.
    destruct (Z.leb_spec 0 (u64 (off - 1))) as [_ | ?]; [| lia].
    rewrite rewritten_opcode by lia. reflexivity. }
  cbn [mbind result_bind].
  destruct (bool_decide (opc = AMD64_JMP32)); reflexivity.
Qed.

Lemma getdata_first e scn :
  elf_getdata_first e scn ≫= get_data e = get_data e (scn, 0%nat).
Proof.
  unfold elf_getdata_first, get_data. cbn [fst snd].
  destruct (scn_data e scn) eqn:Hd; cbn; [reflexivity |].
  unfold get_data. cbn [fst snd]. now rewrite Hd.
Qed.

Lemma symlookup_same e e' symtab ndx :
  get_data e' (symtab, 0%nat) = get_data e (symtab, 0%nat) →
  symlookup e' symtab ndx = symlookup e symtab ndx.
Proof. intros Hd. unfold symlookup. now rewrite !getdata_first, Hd. Qed.

Lemma symlookup_Ok_BSym e symtab ndx sym :
  symlookup e symtab ndx = Ok sym →
  ∃ d l, get_data e (symtab, 0%nat) = Some d ∧ d_buf d = BSym l.
Proof.
  unfold symlookup. rewrite getdata_first. intros H.
  run_step H. apply or_errx_Ok in E. do 2 run_step H.
  destruct (d_buf a) eqn:Hb; try discriminate. eauto.
Qed.

Lemma elf_strptr_same e e' ndx off :
  length (elf_scns e') = length (elf_scns e) →
  elf_scns e' !! Z.to_nat ndx = elf_scns e !! Z.to_nat ndx →
  elf_strptr e' ndx off = elf_strptr e ndx off.
Proof.
  intros Hlen Hs. unfold elf_strptr, elf_getscn. rewrite Hlen.
  destruct ((0 <=? ndx) && (ndx <? Z.of_nat (length (elf_scns e))));
    [| reflexivity].
  cbn. now rewrite Hs.
Qed.

Lemma section_same e e' scn :
  length (elf_scns e') = length (elf_scns e) →
  gelf_getshdr e' scn = gelf_getshdr e scn →
  (∀ k, get_data e' (scn, k) = get_data e (scn, k)) →
  elf_scns e' !! scn = elf_scns e !! scn.
Proof.
  unfold gelf_getshdr, get_data, scn_data. cbn [fst snd].
  intros Hlen Hh Hd.
  destruct (elf_scns e' !! scn) as [s' |] eqn:Hs',
           (elf_scns e !! scn) as [s |] eqn:Hs; cbn in Hh;
    try discriminate; [| reflexivity].
  destruct s' as [h' d'], s as [h d]. cbn in *.
  f_equal. f_equal; [congruence |]. now apply list_eq.
Qed.

(** C2 (as amended): a relocation that has been rewritten is not skipped
    when the scan comes to it again.  Its info word still names the probe
    stub, so [process_rel] goes on to the opcode check, finds the NOP or
    RET it wrote the first time, and ends the run with a fatal error.
    [plist' ≠ plist] says that the first run rewrote the entry; the
    symbol names are taken to lie outside the text section and the
    relocation section. *)
Theorem second_rewrite_is_fatal verbose ehdr shdr symshdr symscn targdata
    reldata i e plist out e' plist' out' rd off info plist2 out2 :
  process_entry verbose ehdr shdr symshdr symscn targdata reldata i
                (e, plist, out) = Ok (e', plist', out') →
  plist' ≠ plist →
  get_data e reldata = Some rd →
  reloc_at rd i = Some (off, info) →
  0 <= info < 2 ^ 64 →
  Z.to_nat (sh_link symshdr) ≠ targdata.1 →
  Z.to_nat (sh_link symshdr) ≠ reldata.1 →
  ∃ opc name,
    (opc = AMD64_NOP ∨ opc = AMD64_RETQ) ∧
    process_entry verbose ehdr shdr symshdr symscn targdata reldata i
                  (e', plist2, out2) = Fatal (F_opcode opc name off).
Proof.
  intros Hrun Hrew Hrd Hat Hinfo Hl1 Hl2.
  apply process_entry_Ok in Hrun
    as (rd0 & td & off0 & info0 & ret & target' & info' & Hrd0 & Htd & Hat0
        & Hrel & Hcase).
  assert (rd0 = rd) as -> by congruence.
  assert (off0 = off ∧ info0 = info) as [-> ->]
    by (rewrite Hat in Hat0; now injection Hat0).
  destruct Hcase
    as [[Hret ->]
       | (-> & Hne & _ & Htd' & Hframe & Hshdr & Hlen & _ & rd' & Hrd' & Hkind)].
  { apply process_rel_skipped in Hrel as (_ & _ & _ & -> & _); [| assumption].
    contradiction. }
  pose proof (process_rel_rewritten _ _ _ _ _ _ _ _ _ _ _ _ _ _ Hrel)
    as (sym & name & Hsym & _ & _ & _ & _ & Hsite & _).
  assert (get_data e' (symscn, 0%nat) = get_data e (symscn, 0%nat)) as Hsymdata.
  { apply symlookup_Ok_BSym in Hsym as (d & l & Hd & Hb).
    apply Hframe.
    - intros <-. apply rewrite_site_nonempty in Hsite.
      assert (td = d) as -> by congruence. rewrite Hb in Hsite.
      now apply Hsite.
    - intros <-. assert (rd = d) as -> by congruence.
      unfold reloc_at in Hat. rewrite Hb in Hat. discriminate. }
  assert (∀ o, elf_strptr e' (sh_link symshdr) o
               = elf_strptr e (sh_link symshdr) o) as Hstr.
  { intros o. apply elf_strptr_same; [assumption |].
    apply section_same; [assumption | apply Hshdr |].
    intros k. apply Hframe; intros <-; cbn [fst] in *; congruence. }
  destruct (process_rel_again verbose e ehdr symshdr symscn _ off info plist out
              target' info' plist' out' e' symshdr symscn plist2 out2
              Hrel Hinfo (symlookup_same _ _ _ _ Hsymdata)
              (fun sym _ => Hstr (st_name sym)))
    as (opc & name' & Hopc & _ & Hagain).
  exists opc, name'. split; [exact Hopc |].
  unfold process_entry. rewrite Hrd', Htd'.
  cbn [deref mbind result_bind buf_bytes d_buf set_d_dirty set_d_buf].
  destruct Hkind as [[Hty Hget] | (Hty & Hty' & a & Hget)].
  - rewrite Hty, Z.eqb_refl, Hget.
    cbn [or_errx mbind result_bind r_offset r_info].
    rewrite Hagain. reflexivity.
  - apply Z.eqb_neq in Hty. rewrite Hty, Hty', Z.eqb_refl, Hget.
    cbn [negb or_errx mbind result_bind ra_offset ra_info].
    rewrite Hagain. reflexivity.
Qed.

(** At the first text relocation of [obj_call], processed twice. *)
Lemma second_rewrite_is_fatal_witness :
  ∃ opc name,
    (opc = AMD64_NOP ∨ opc = AMD64_RETQ) ∧
    process_entry true (elf_ehdr obj_call)
                  (default zero_shdr (gelf_getshdr obj_call 2%nat))
                  (sample_symshdr obj_call) 5%nat (1%nat, 0%nat)
                  (2%nat, 0%nat) 0 (sample_entry_elf obj_call, [], [])
    = Fatal (F_opcode opc name 0x10).
Proof.
  refine (second_rewrite_is_fatal true (elf_ehdr obj_call)
            (default zero_shdr (gelf_getshdr obj_call 2%nat))
            (sample_symshdr obj_call) 5%nat (1%nat, 0%nat) (2%nat, 0%nat) 0
            obj_call [] [] (sample_entry_elf obj_call)
            [{| symname := stub_lookup; offset := 0x10 |}]
            [M_updated stub_lookup 0xf]
            (mk_data (BRela [mk_rela 0x10 2 R_X86_64_PLT32]) ELF_T_RELA)
            0x10 (Z.lor (Z.shiftl 2 32) R_X86_64_PLT32) [] [] _ _ _ _ _ _ _);
    try (vm_compute; reflexivity); try (vm_compute; congruence);
    vm_compute; intuition congruence.
Defined.

(** C2, counterexample: the second run on the object written for one call
    of a probe ends with a fatal error at the site the first run
    rewrote. *)
Lemma second_run_is_not_noop :
  process_elf false "" obj_call [] = Ok (Some (rewritten obj_call), []) ∧
  process_elf false "" (rewritten obj_call) []
    = Fatal (F_opcode x90 stub_lookup 0x10) ∧
  ¬ second_run_is_noop obj_call.
Proof.
  assert (process_elf false "" obj_call [] = Ok (Some (rewritten obj_call), []))
    as Hrun by (vm_compute; reflexivity).
  assert (process_elf false "" (rewritten obj_call) []
          = Fatal (F_opcode x90 stub_lookup 0x10)) as Hagain
    by (vm_compute; reflexivity).
  split; [exact Hrun |]. split; [exact Hagain |].
  intros Hclaim. destruct (Hclaim _ _ Hrun) as [out' Hnoop].
  rewrite Hagain in Hnoop. discriminate Hnoop.
Qed.

(** ** Probe names and the companion relocations *)

(** The search of [record_instance] passes over every entry whose symbol
    has a name shorter than the stub prefix, whatever the name is. *)
Lemma short_name_is_passed_over verbose fuel e proberelshdr symshdr symtab inst
    d n i found out off info sym name :
  i < n →
  (sh_type proberelshdr = SHT_REL ∧
   gelf_getrel d i = Some {| r_offset := off; r_info := info |}
   ∨ sh_type proberelshdr = SHT_RELA ∧
     ∃ a, gelf_getrela d i
          = Some {| ra_offset := off; ra_info := info; ra_addend := a |}) →
  symlookup e symtab (to_int (GELF_R_SYM info)) = Ok sym →
  elf_strptr e (sh_link symshdr) (st_name sym) = Some name →
  strlen name < prefixlen →
  match_loop verbose (S fuel) e proberelshdr symshdr symtab inst d n i found out
  = match_loop verbose fuel e proberelshdr symshdr symtab inst d n (u32 (i + 1))
               found out.
Proof.
  intros Hi Hkind Hsym Hname Hshort. cbn [match_loop].
  destruct (Z.ltb_spec i n) as [_ | ?]; [| lia]. cbn [negb].
  destruct Hkind as [[-> ->] | (-> & a & ->)];
    cbn [Z.eqb Pos.eqb negb or_errx mbind result_bind r_info r_offset
         ra_info ra_offset];
    change (SHT_REL =? SHT_REL) with true;
    change (SHT_RELA =? SHT_REL) with false;
    change (SHT_RELA =? SHT_RELA) with true;
    cbn [negb or_errx mbind result_bind r_info r_offset ra_info ra_offset];
    rewrite Hsym; cbn [mbind result_bind]; rewrite Hname;
    cbn [deref mbind result_bind];
    destruct (Z.ltb_spec (strlen name) prefixlen); (reflexivity || lia).
Qed.

(** C1: for [CALL __dtrace_probe_foo] with [sdt_foo] in the probe linker
    set, the site is rewritten but the search of [record_instance] passes
    over [sdt_foo], whose length is below that of the stub prefix, and the
    run ends with a fatal error. *)
Theorem short_probe_name_is_not_resolved :
  (strlen (cstr "sdt_foo") <? prefixlen) = true ∧
  streq (stradd (cstr "sdt_foo") (strlen (cstr "sdt_")))
        (stradd stub_foo prefixlen) = true ∧
  rewritten_sites (match scan_sections true (elf_sections obj_foo)
                           (elf_ehdr obj_foo) (obj_foo, [], []) with
                   | Ok (_, _, out) => out
                   | _ => []
                   end) = [(stub_foo, 0xf)] ∧
  process_elf false "foo.o" obj_foo [] = Fatal (F_no_probe_reloc stub_foo).
Proof. repeat split; vm_compute; reflexivity. Qed.

(** No run of [process_elf] puts a relocation into the second section it
    adds, and the first one holds at least one record. *)
Lemma no_relocation_is_emitted verbose obj e out e' out' :
  process_elf verbose obj e out = Ok (Some e', out') →
  reloc_count e' (S (length (elf_scns e))) = 0%nat ∧
  instance_records e' (length (elf_scns e)) ≠ [].
Proof.
  intros Hrun.
  pose proof (process_elf_Ok _ _ _ _ _ _ Hrun)
    as (e1 & plist & out1 & _ & Hne & _ & Hdata & Hrela & _).
  split.
  - unfold reloc_count. now rewrite Hrela.
  - unfold instance_records.
    rewrite (section_bytes_instances _ _ _ Hdata), records_of_instances.
    destruct plist; [contradiction | discriminate].
Qed.

(** C3: for one call of a probe the instance section holds one record,
    and the section [.relaset_sdt_instance_set] holds no relocation. *)
Theorem one_record_and_no_relocation :
  process_elf false "" obj_call [] = Ok (Some (rewritten obj_call), []) ∧
  get_scn_name (rewritten obj_call) 8%nat
    = Ok (Some (cstr "set_sdt_instance_set")) ∧
  get_scn_name (rewritten obj_call) 9%nat
    = Ok (Some (cstr ".relaset_sdt_instance_set")) ∧
  instance_records (rewritten obj_call) 8%nat = [(0, 0x10)] ∧
  reloc_count (rewritten obj_call) 9%nat = 0%nat ∧
  sh_size <$> gelf_getshdr (rewritten obj_call) 9%nat = Some 0.
Proof. repeat split; vm_compute; reflexivity. Qed.

(** * Further properties *)

(** ** The rewriter: which sites are rewritten, and what is left alone *)

Lemma bytes_at_lookup (l k : list byte) (idx : Z) (n j : nat) :
  0 <= idx →
  bytes_at l idx n = k → (j < length k)%nat →
  l !! (Z.to_nat idx + j)%nat = k !! j.
Proof.
  unfold bytes_at. intros Hidx <- Hj.
  rewrite length_take in Hj.
  rewrite lookup_take_lt, lookup_drop by lia. reflexivity.
Qed.

Lemma bytes_at_length (l k : list byte) (idx : Z) (n : nat) :
  bytes_at l idx n = k → (Z.to_nat idx + length k ≤ length l)%nat ∨ k = [].
Proof.
  unfold bytes_at. intros <-. rewrite length_take, length_drop.
  destruct (decide (Z.to_nat idx ≤ length l)%nat) as [Hle | Hgt]; [left; lia |].
  right. rewrite drop_ge by lia. now rewrite take_nil.
Qed.

Lemma load_at (target : list byte) (idx : Z) (b : byte) :
  0 <= idx → target !! Z.to_nat idx = Some b → load target idx = Ok b.
Proof.
  intros Hidx Hb. unfold load.
  destruct (Z.leb_spec 0 idx); [| lia]. now rewrite Hb.
Qed.

(** The outcome of the [switch] of [process_rel] at a well-formed site. *)
Lemma rewrite_site_run ehdr name target off info opc :
  e_machine ehdr = EM_X86_64 →
  1 <= off → off + 3 < 2 ^ 64 →
  opc = AMD64_CALL ∨ opc = AMD64_JMP32 →
  bytes_at target (off - 1) 5 = [opc; x00; x00; x00; x00] →
  rewrite_site ehdr name target off info
  = Ok ((if bool_decide (opc = AMD64_JMP32)
         then <[Z.to_nat (off - 1) := AMD64_RETQ]> else id)
          (list_inserts (Z.to_nat (off - 1)) (replicate 5 AMD64_NOP) target),
        neutralized info).
Proof.
  intros Hm Hlo Hhi Hopc Hbytes.
  pose proof (bytes_at_length _ _ _ _ Hbytes) as [Hlen | ?]; [| discriminate].
  cbn [length] in Hlen.
  assert (∀ j b, [opc; x00; x00; x00; x00] !! j = Some b →
                 load target (off - 1 + Z.of_nat j) = Ok b) as Hload.
  { intros j b Hj. apply load_at; [lia |].
    replace (Z.to_nat (off - 1 + Z.of_nat j))
      with (Z.to_nat (off - 1) + j)%nat by lia.
    assert (0 <= off - 1) as Hidx by lia.
    rewrite (bytes_at_lookup _ _ _ _ j Hidx Hbytes); [exact Hj |].
    apply lookup_lt_Some in Hj. exact Hj. }
  unfold rewrite_site. rewrite Hm. change (EM_X86_64 =? EM_X86_64) with true.
  cbv iota.
  rewrite !u64_small by lia.
  pose proof (Hload 0%nat opc eq_refl) as H0.
  pose proof (Hload 1%nat x00 eq_refl) as H1.
  pose proof (Hload 2%nat x00 eq_refl) as H2.
  pose proof (Hload 3%nat x00 eq_refl) as H3.
  pose proof (Hload 4%nat x00 eq_refl) as H4.
  replace (off - 1 + Z.of_nat 0) with (off - 1) in H0 by lia.
  replace (off - 1 + Z.of_nat 1) with (off + 0) in H1 by lia.
  replace (off - 1 + Z.of_nat 2) with (off + 1) in H2 by lia.
  replace (off - 1 + Z.of_nat 3) with (off + 2) in H3 by lia.
  replace (off - 1 + Z.of_nat 4) with (off + 3) in H4 by lia.
  rewrite H0. cbn [mbind result_bind].
  assert (bool_decide (opc ≠ AMD64_CALL) && bool_decide (opc ≠ AMD64_JMP32)
          = false) as ->.
  { destruct Hopc as [-> | ->]; reflexivity. }
  rewrite H1. cbn [mbind result_bind].
  change (bool_decide (x00 ≠ x00)) with false. cbv iota.
  rewrite H2. cbn [mbind result_bind]. rewrite H3. cbn [mbind result_bind].
  rewrite H4. cbn [mbind result_bind].
  unfold memset.
  destruct (Z.leb_spec 0 (off - 1)); [| lia].
  destruct (Z.leb_spec (off - 1 + Z.of_nat 5) (Z.of_nat (length target)));
    [| lia].
  cbn [andb mbind result_bind].
  destruct Hopc as [-> | ->].
  - reflexivity.
  - change (bool_decide (AMD64_JMP32 = AMD64_JMP32)) with true. cbv iota.
    unfold store. rewrite length_inserts.
    destruct (Z.leb_spec 0 (off - 1)); [| lia].
    destruct (Z.ltb_spec (off - 1) (Z.of_nat (length target))); [| lia].
    reflexivity.
Qed.

Lemma take_drop_5 (l : list byte) (i : nat) (a b c d f : byte) :
  l !! i = Some a → l !! (i + 1)%nat = Some b → l !! (i + 2)%nat = Some c →
  l !! (i + 3)%nat = Some d → l !! (i + 4)%nat = Some f →
  take 5 (drop i l) = [a; b; c; d; f].
Proof.
  intros Ha Hb Hc Hd Hf. apply list_eq. intros j.
  destruct (decide (j < 5)%nat) as [Hj | Hj].
  - rewrite lookup_take_lt, lookup_drop by lia.
    destruct j as [| [| [| [| [| j]]]]]; try lia; cbn [lookup list_lookup].
    + now rewrite Nat.add_0_r.
    + exact Hb.
    + exact Hc.
    + exact Hd.
    + exact Hf.
  - rewrite lookup_take_ge by lia. symmetry. apply lookup_ge_None.
    simpl. lia.
Qed.

(** What the [switch] of [process_rel] found at a site it rewrote. *)
Lemma rewrite_site_Ok_bytes ehdr name target off info r :
  rewrite_site ehdr name target off info = Ok r →
  1 <= off → off + 3 < 2 ^ 64 →
  ∃ opc, (opc = AMD64_CALL ∨ opc = AMD64_JMP32) ∧
         bytes_at target (off - 1) 5 = [opc; x00; x00; x00; x00].
Proof.
  unfold rewrite_site. intros H Hlo Hhi.
  rewrite !u64_small in H by lia.
  repeat run_step H.
  repeat match goal with
         | Hb : bool_decide (_ ≠ _) = false |- _ =>
             apply bool_decide_eq_false, dec_stable in Hb
         end.
  subst.
  repeat match goal with
         | Hl : load _ _ = Ok _ |- _ => apply load_Ok in Hl as [_ Hl]
         end.
  match goal with
  | Hl : target !! Z.to_nat (off - 1) = Some ?opc |- _ => exists opc
  end.
  split.
  { match goal with
    | Ha : _ && _ = false |- _ =>
        apply andb_false_iff in Ha as [Ha | Ha];
        apply bool_decide_eq_false, dec_stable in Ha; auto
    end. }
  unfold bytes_at.
  apply take_drop_5; [assumption | ..].
  all: match goal with
       | Hl : ?t !! Z.to_nat (?o + ?k) = Some x00
         |- ?t !! (Z.to_nat (?o - 1) + ?j)%nat = Some x00 =>
           replace (Z.to_nat (o - 1) + j)%nat with (Z.to_nat (o + k)) by lia;
           exact Hl
       end.
Qed.

Section Sites.

Context (verbose : bool).

(** X2: a relocation is rewritten exactly when its symbol has the stub
    prefix, no type and global binding, the machine is x86-64, and the
    five bytes from [off - 1] are CALL or JMP with a zero displacement. *)
Theorem site_is_rewritten_iff e ehdr symshdr symtab target off info plist out
    sym name :
  symlookup e symtab (to_int (GELF_R_SYM info)) = Ok sym →
  elf_strptr e (sh_link symshdr) (st_name sym) = Some name →
  1 <= off → off + 3 < 2 ^ 64 →
  (∃ target' info' plist' out',
     process_rel verbose e ehdr symshdr symtab target off info plist out
       = Ok (0, target', info', plist', out'))
  ↔ strneq name probe_prefix prefixlen = true ∧
    GELF_ST_TYPE (st_info sym) = STT_NOTYPE ∧
    GELF_ST_BIND (st_info sym) = STB_GLOBAL ∧
    e_machine ehdr = EM_X86_64 ∧
    ∃ opc, (opc = AMD64_CALL ∨ opc = AMD64_JMP32) ∧
           bytes_at target (off - 1) 5 = [opc; x00; x00; x00; x00].
Proof.
  intros Hsym Hname Hlo Hhi. split.
  - intros (target' & info' & plist' & out' & Hrun).
    apply process_rel_rewritten in Hrun
      as (sym' & name' & Hsym' & Hname' & Hpre & Hty & Hbind & Hsite & _).
    assert (sym' = sym) as -> by congruence.
    assert (name' = name) as -> by congruence.
    repeat (split; [assumption |]).
    split.
    { now apply rewrite_site_Ok in Hsite as [Hm _]. }
    eapply rewrite_site_Ok_bytes; eassumption.
  - intros (Hpre & Hty & Hbind & Hm & opc & Hopc & Hbytes).
    unfold process_rel. rewrite Hsym. cbn [mbind result_bind].
    rewrite Hname. cbn [or_errx mbind result_bind].
    rewrite Hpre, Hty, Hbind.
    change (negb (STT_NOTYPE =? STT_NOTYPE)) with false.
    change (negb (STB_GLOBAL =? STB_GLOBAL)) with false.
    cbn [negb].
    rewrite (rewrite_site_run _ _ _ _ _ opc Hm Hlo Hhi Hopc Hbytes).
    cbn [mbind result_bind]. eauto.
Qed.

(** X1: rewriting a site keeps the length of the text buffer and every
    byte outside the five at [off - 1 .. off + 3]. *)
Theorem rewrite_touches_five_bytes e ehdr symshdr symtab target off info plist
    out target' info' plist' out' :
  process_rel verbose e ehdr symshdr symtab target off info plist out
    = Ok (0, target', info', plist', out') →
  0 <= off < 2 ^ 64 →
  Z.of_nat (length target) < 2 ^ 64 →
  length target' = length target ∧
  ∀ j : nat, Z.of_nat j < off - 1 ∨ off + 4 <= Z.of_nat j →
             target' !! j = target !! j.
Proof.
  intros (sym & name & _ & _ & _ & _ & _ & Hsite & _)%process_rel_rewritten
         Hoff Hlen.
  apply rewrite_site_Ok in Hsite
    as (_ & opc & Hload & _ & _ & Hset & -> & _).
  pose proof (load_lt _ _ _ Hload) as Hidx.
  assert (1 <= off) as Hpos.
  { destruct (decide (off = 0)) as [-> | ?]; [| lia].
    change (u64 (0 - 1)) with (2 ^ 64 - 1) in Hidx. lia. }
  rewrite u64_small in * by lia.
  split.
  - destruct (bool_decide (opc = AMD64_JMP32)); unfold id;
      now rewrite ?length_insert, length_inserts.
  - intros j Hj.
    assert (list_inserts (Z.to_nat (off - 1)) (replicate 5 AMD64_NOP) target !! j
            = target !! j) as Hins.
    { destruct Hj as [Hj | Hj].
      - apply list_lookup_inserts_lt. lia.
      - apply list_lookup_inserts_ge. simpl. lia. }
    destruct (bool_decide (opc = AMD64_JMP32)); unfold id; [| exact Hins].
    rewrite list_lookup_insert_ne by lia. exact Hins.
Qed.

(** X3: a relocation against a stub symbol is never passed over.  When
    the five bytes of the site lie inside the text buffer, [process_rel]
    either rewrites the site or ends the run with one of its five fatal
    errors. *)
Theorem stub_relocation_is_rewritten_or_fatal e ehdr symshdr symtab target off
    info plist out sym name :
  symlookup e symtab (to_int (GELF_R_SYM info)) = Ok sym →
  elf_strptr e (sh_link symshdr) (st_name sym) = Some name →
  strneq name probe_prefix prefixlen = true →
  1 <= off → off + 3 < Z.of_nat (length target) →
  Z.of_nat (length target) < 2 ^ 64 →
  (∃ target' info',
     process_rel verbose e ehdr symshdr symtab target off info plist out
     = Ok (0, target', info',
           {| symname := name; offset := off |} :: plist,
           LOG verbose (M_updated name (off - 1)) out))
  ∨ ∃ f,
      process_rel verbose e ehdr symshdr symtab target off info plist out
        = Fatal f ∧
      (f = F_symtype (GELF_ST_TYPE (st_info sym)) name
       ∨ f = F_binding (GELF_ST_BIND (st_info sym)) name
       ∨ f = F_machine (e_machine ehdr)
       ∨ (∃ opc, f = F_opcode opc name off)
       ∨ f = F_addr name off).
Proof.
  intros Hsym Hname Hpre Hlo Hhi Hlen.
  unfold process_rel. rewrite Hsym. cbn [mbind result_bind].
  rewrite Hname. cbn [or_errx mbind result_bind]. rewrite Hpre. cbn [negb].
  destruct (negb (GELF_ST_TYPE (st_info sym) =? STT_NOTYPE)); [right; eauto |].
  destruct (negb (GELF_ST_BIND (st_info sym) =? STB_GLOBAL));
    [right; eauto 6 |].
  unfold rewrite_site.
  destruct (e_machine ehdr =? EM_X86_64); [| right; eauto 6].
  rewrite !u64_small by lia.
  assert (∀ k, 0 <= k <= 4 → ∃ b, load target (off - 1 + k) = Ok b) as Hin.
  { intros k Hk.
    destruct (lookup_lt_is_Some_2 target (Z.to_nat (off - 1 + k)) ltac:(lia))
      as [b Hb].
    exists b. apply load_at; [lia | exact Hb]. }
  destruct (Hin 0 ltac:(lia)) as [opc H0].
  destruct (Hin 1 ltac:(lia)) as [b0 H1].
  destruct (Hin 2 ltac:(lia)) as [b1 H2].
  destruct (Hin 3 ltac:(lia)) as [b2 H3].
  destruct (Hin 4 ltac:(lia)) as [b3 H4].
  replace (off - 1 + 0) with (off - 1) in H0 by lia.
  replace (off - 1 + 1) with (off + 0) in H1 by lia.
  replace (off - 1 + 2) with (off + 1) in H2 by lia.
  replace (off - 1 + 3) with (off + 2) in H3 by lia.
  replace (off - 1 + 4) with (off + 3) in H4 by lia.
  rewrite H0. cbn [mbind result_bind].
  destruct (bool_decide (opc ≠ AMD64_CALL) && bool_decide (opc ≠ AMD64_JMP32));
    [right; eauto 8 |].
  rewrite H1. cbn [mbind result_bind].
  destruct (bool_decide (b0 ≠ x00)); [right; eauto 8 |].
  rewrite H2. cbn [mbind result_bind].
  destruct (bool_decide (b1 ≠ x00)); [right; eauto 8 |].
  rewrite H3. cbn [mbind result_bind].
  destruct (bool_decide (b2 ≠ x00)); [right; eauto 8 |].
  rewrite H4. cbn [mbind result_bind].
  destruct (bool_decide (b3 ≠ x00)); [right; eauto 8 |].
  unfold memset.
  destruct (Z.leb_spec 0 (off - 1)); [| lia].
  destruct (Z.leb_spec (off - 1 + Z.of_nat 5) (Z.of_nat (length target)));
    [| lia].
  cbn [andb mbind result_bind].
  destruct (bool_decide (opc = AMD64_JMP32)).
  - unfold store. rewrite length_inserts.
    destruct (Z.leb_spec 0 (off - 1)); [| lia].
    destruct (Z.ltb_spec (off - 1) (Z.of_nat (length target))); [| lia].
    cbn [andb mbind result_bind]. left. eauto.
  - cbn [mbind result_bind]. left. eauto.
Qed.

End Sites.

(** At the call of [obj_call]. *)
Lemma site_is_rewritten_iff_witness :
  (∃ target' info' plist' out',
     sample_rel obj_call 0x10 (Z.lor (Z.shiftl 2 32) R_X86_64_PLT32)
       = Ok (0, target', info', plist', out'))
  ↔ strneq stub_lookup probe_prefix prefixlen = true ∧
    GELF_ST_TYPE 16 = STT_NOTYPE ∧
    GELF_ST_BIND 16 = STB_GLOBAL ∧
    e_machine (elf_ehdr obj_call) = EM_X86_64 ∧
    ∃ opc, (opc = AMD64_CALL ∨ opc = AMD64_JMP32) ∧
           bytes_at (sample_text obj_call) (0x10 - 1) 5
           = [opc; x00; x00; x00; x00].
Proof.
  refine (site_is_rewritten_iff true obj_call (elf_ehdr obj_call)
            (sample_symshdr obj_call) 5%nat (sample_text obj_call) 0x10
            (Z.lor (Z.shiftl 2 32) R_X86_64_PLT32) [] []
            (mk_sym (str_off names_lookup 1) 16) stub_lookup _ _ _ _);
    try (vm_compute; reflexivity); lia.
Defined.

(** At the call of [obj_call]. *)
Lemma rewrite_touches_five_bytes_witness :
  length (replicate 32 x90) = length (sample_text obj_call) ∧
  ∀ j : nat, Z.of_nat j < 0x10 - 1 ∨ 0x10 + 4 <= Z.of_nat j →
             replicate 32 x90 !! j = sample_text obj_call !! j.
Proof.
  assert (sample_rel obj_call 0x10 (Z.lor (Z.shiftl 2 32) R_X86_64_PLT32)
          = Ok (0, replicate 32 x90, Z.shiftl 2 32,
                [{| symname := stub_lookup; offset := 0x10 |}],
                [M_updated stub_lookup 0xf])) as Hrun
    by (vm_compute; reflexivity).
  assert (0 <= 0x10 < 2 ^ 64) as Hoff by lia.
  assert (Z.of_nat (length (sample_text obj_call)) < 2 ^ 64) as Hlen
    by (vm_compute; reflexivity).
  exact (rewrite_touches_five_bytes true _ _ _ _ _ _ _ _ _ _ _ _ _
           Hrun Hoff Hlen).
Defined.

(** At the call of [obj_call]. *)
Lemma stub_relocation_is_rewritten_or_fatal_witness :
  (∃ target' info',
     sample_rel obj_call 0x10 (Z.lor (Z.shiftl 2 32) R_X86_64_PLT32)
     = Ok (0, target', info',
           [{| symname := stub_lookup; offset := 0x10 |}],
           LOG true (M_updated stub_lookup (0x10 - 1)) []))
  ∨ ∃ f,
      sample_rel obj_call 0x10 (Z.lor (Z.shiftl 2 32) R_X86_64_PLT32)
        = Fatal f ∧
      (f = F_symtype (GELF_ST_TYPE 16) stub_lookup
       ∨ f = F_binding (GELF_ST_BIND 16) stub_lookup
       ∨ f = F_machine (e_machine (elf_ehdr obj_call))
       ∨ (∃ opc, f = F_opcode opc stub_lookup 0x10)
       ∨ f = F_addr stub_lookup 0x10).
Proof.
  refine (stub_relocation_is_rewritten_or_fatal true obj_call
            (elf_ehdr obj_call) (sample_symshdr obj_call) 5%nat
            (sample_text obj_call) 0x10
            (Z.lor (Z.shiftl 2 32) R_X86_64_PLT32) [] []
            (mk_sym (str_off names_lookup 1) 16) stub_lookup _ _ _ _ _ _);
    try (vm_compute; reflexivity); lia.
Defined.

(** ** Symbol lookup *)

Lemma symlookup_first e symtab d ds ndx :
  scn_data e symtab = d :: ds →
  symlookup e symtab ndx
  = if ndx =? INT_MAX then Undefined
    else if d_size d <? u64 ((ndx + 1) * sizeof_GElf_Sym)
    then Fatal (F_symndx ndx)
    else match d_buf d with
         | BSym l => if 0 <=? ndx then deref (l !! Z.to_nat ndx) else Undefined
         | _ => Undefined
         end.
Proof.
  intros Hd. unfold symlookup, elf_getdata_first, get_data.
  rewrite Hd. cbn. rewrite Hd. reflexivity.
Qed.

Lemma d_size_nonneg d : 0 <= d_size d.
Proof. unfold d_size, sizeof_GElf_Rel, sizeof_GElf_Rela, sizeof_GElf_Sym.
  destruct (d_buf d); lia. Qed.

(** X4: [symlookup] with an index that is not negative and below
    [INT_MAX]: the symbol at that index of the first buffer of the symbol
    table when the buffer has one, and the "invalid symbol index" error
    otherwise; it reads nothing outside the buffer. *)
Theorem symlookup_checks_index e symtab d ds l ndx :
  scn_data e symtab = d :: ds →
  d_buf d = BSym l →
  0 <= ndx < INT_MAX →
  symlookup e symtab ndx
  = match l !! Z.to_nat ndx with
    | Some sym => Ok sym
    | None => Fatal (F_symndx ndx)
    end.
Proof.
  intros Hd Hb Hndx. rewrite (symlookup_first _ _ _ _ _ Hd).
  unfold INT_MAX in *.
  destruct (ndx =? 2 ^ 31 - 1) eqn:E; [apply Z.eqb_eq in E; lia |].
  rewrite u64_small by (unfold sizeof_GElf_Sym; lia).
  unfold d_size. rewrite Hb. unfold sizeof_GElf_Sym.
  destruct (l !! Z.to_nat ndx) as [sym |] eqn:El.
  - apply lookup_lt_Some in El.
    destruct (_ <? _) eqn:E1; [apply Z.ltb_lt in E1; lia |].
    destruct (0 <=? ndx) eqn:E2; [| apply Z.leb_gt in E2; lia].
    reflexivity.
  - apply lookup_ge_None in El.
    destruct (_ <? _) eqn:E1; [reflexivity | apply Z.ltb_ge in E1; lia].
Qed.

Lemma symlookup_checks_index_witness :
  symlookup obj_call 5%nat 2
  = match syms_of names_lookup !! Z.to_nat 2 with
    | Some sym => Ok sym
    | None => Fatal (F_symndx 2)
    end.
Proof.
  refine (symlookup_checks_index obj_call 5%nat
            (mk_data (BSym (syms_of names_lookup)) ELF_T_SYM) []
            (syms_of names_lookup) 2 _ _ _);
    try reflexivity. unfold INT_MAX. lia.
Defined.

(** X5: the bounds check of [symlookup] does not reject the index -1:
    [(ndx + 1) * sizeof(GElf_Sym)] is 0 then, and no size is below it.  A
    relocation whose symbol field is 0xffffffff makes [process_rel] read
    the symbol before the start of the symbol buffer. *)
Theorem symbol_index_minus_one_passes_check verbose e ehdr symshdr symtab
    target off info plist out :
  GELF_R_SYM info = 0xffffffff →
  scn_data e symtab ≠ [] →
  symlookup e symtab (to_int (GELF_R_SYM info)) = Undefined ∧
  process_rel verbose e ehdr symshdr symtab target off info plist out
  = Undefined.
Proof.
  intros Hs Hd. destruct (scn_data e symtab) as [| d ds] eqn:Ed; [done |].
  assert (symlookup e symtab (to_int (GELF_R_SYM info)) = Undefined) as Hl.
  { rewrite (symlookup_first _ _ _ _ _ Ed), Hs.
    change (to_int 0xffffffff) with (-1).
    change (-1 =? INT_MAX) with false. cbv iota.
    change (u64 ((-1 + 1) * sizeof_GElf_Sym)) with 0.
    pose proof (d_size_nonneg d).
    destruct (d_size d <? 0) eqn:E; [apply Z.ltb_lt in E; lia |].
    destruct (d_buf d); reflexivity. }
  split; [exact Hl |]. unfold process_rel. rewrite Hl. reflexivity.
Qed.

Lemma symbol_index_minus_one_passes_check_witness :
  symlookup obj_call 5%nat (to_int (GELF_R_SYM (Z.shiftl 0xffffffff 32)))
  = Undefined ∧
  sample_rel obj_call 0x10 (Z.shiftl 0xffffffff 32) = Undefined.
Proof.
  refine (symbol_index_minus_one_passes_check true obj_call _ _ 5%nat _ 0x10
            (Z.shiftl 0xffffffff 32) [] [] _ _).
  - reflexivity.
  - vm_compute. discriminate.
Defined.

(** X6: any other negative index is rejected by the bounds check, for a
    symbol buffer of less than 2^63 bytes: the product wraps to a size no
    such buffer has. *)
Theorem symlookup_rejects_other_negative_index e symtab d ds ndx :
  scn_data e symtab = d :: ds →
  d_size d < 2 ^ 63 →
  - 2 ^ 31 <= ndx < -1 →
  symlookup e symtab ndx = Fatal (F_symndx ndx).
Proof.
  intros Hd Hsz Hndx. rewrite (symlookup_first _ _ _ _ _ Hd).
  unfold INT_MAX.
  destruct (ndx =? 2 ^ 31 - 1) eqn:E; [apply Z.eqb_eq in E; lia |].
  assert (u64 ((ndx + 1) * sizeof_GElf_Sym)
          = 2 ^ 64 + (ndx + 1) * sizeof_GElf_Sym) as ->.
  { unfold u64, sizeof_GElf_Sym. symmetry.
    apply (Z.mod_unique _ _ (-1)); lia. }
  unfold sizeof_GElf_Sym.
  destruct (_ <? _) eqn:E1; [reflexivity | apply Z.ltb_ge in E1; lia].
Qed.

Lemma symlookup_rejects_other_negative_index_witness :
  symlookup obj_call 5%nat (-2) = Fatal (F_symndx (-2)).
Proof.
  refine (symlookup_rejects_other_negative_index obj_call 5%nat
            (mk_data (BSym (syms_of names_lookup)) ELF_T_SYM) [] (-2) _ _ _).
  - reflexivity.
  - vm_compute. reflexivity.
  - lia.
Defined.

(** ** Sections by name *)

(** The name of a section as [strcmp] gets it in [section_by_name]. *)
Lemma section_by_name_from_cons e name scn scns :
  section_by_name_from e name (scn :: scns)
  = match get_scn_name e scn with
    | Ok (Some n) =>
        if streq n name then Ok (Some scn)
        else section_by_name_from e name scns
    | Ok None => Undefined
    | Fatal f => Fatal f
    | Undefined => Undefined
    end.
Proof.
  cbn [section_by_name_from].
  destruct (get_scn_name e scn) as [[n |] | |]; reflexivity.
Qed.

Lemma section_by_name_from_seq e name len : ∀ start r,
  section_by_name_from e name (seq start len) = Ok r ↔
  (∀ s, (start ≤ s < default (start + len) r)%nat →
        ∃ n, get_scn_name e s = Ok (Some n) ∧ n ≠ name) ∧
  match r with
  | Some scn => (start ≤ scn < start + len)%nat ∧
                get_scn_name e scn = Ok (Some name)
  | None => True
  end.
Proof.
  induction len as [| len IH]; intros start r.
  - cbn [seq section_by_name_from]. split.
    + intros [= <-]. cbn. split; [intros; lia | exact I].
    + intros [_ Hr]. destruct r as [scn |]; [lia | reflexivity].
  - cbn [seq]. rewrite section_by_name_from_cons.
    destruct (get_scn_name e start) as [[n |] | |] eqn:En.
    + unfold streq. case_bool_decide as Hn.
      * subst n. split.
        -- intros [= <-]. cbn. split; [intros; lia |]. split; [lia | exact En].
        -- intros [Hb Hr]. destruct r as [scn |].
           ++ cbn in Hb. destruct (decide (scn = start)) as [-> | Hne];
                [reflexivity |].
              destruct (Hb start) as (n & Hn & Hne'); [lia |]. congruence.
           ++ cbn in Hb. destruct (Hb start) as (n & Hn & Hne'); [lia |].
              congruence.
      * rewrite IH. replace (S start + len)%nat with (start + S len)%nat by lia.
        split.
        -- intros [Hb Hr]. split.
           ++ intros s Hs. destruct (decide (s = start)) as [-> | Hne];
                [eauto |]. apply Hb. lia.
           ++ destruct r as [scn |]; [| exact I]. split; [lia | apply Hr].
        -- intros [Hb Hr]. split.
           ++ intros s Hs. apply Hb. lia.
           ++ destruct r as [scn |]; [| exact I]. split; [| apply Hr].
              destruct (decide (scn = start)) as [-> | Hne]; [| lia].
              destruct Hr as [_ Hr]. congruence.
    + split; [discriminate |]. intros [Hb Hr].
      assert (∃ n, get_scn_name e start = Ok (Some n)) as [n Hn];
        [| congruence].
      destruct r as [scn |]; cbn in Hb.
      * destruct (decide (scn = start)) as [-> | Hne];
          [destruct Hr; eauto |].
        destruct (Hb start) as (n & Hn & _); [lia | eauto].
      * destruct (Hb start) as (n & Hn & _); [lia | eauto].
    + split; [discriminate |]. intros [Hb Hr].
      assert (∃ n, get_scn_name e start = Ok (Some n)) as [n Hn];
        [| congruence].
      destruct r as [scn |]; cbn in Hb.
      * destruct (decide (scn = start)) as [-> | Hne];
          [destruct Hr; eauto |].
        destruct (Hb start) as (n & Hn & _); [lia | eauto].
      * destruct (Hb start) as (n & Hn & _); [lia | eauto].
    + split; [discriminate |]. intros [Hb Hr].
      assert (∃ n, get_scn_name e start = Ok (Some n)) as [n Hn];
        [| congruence].
      destruct r as [scn |]; cbn in Hb.
      * destruct (decide (scn = start)) as [-> | Hne];
          [destruct Hr; eauto |].
        destruct (Hb start) as (n & Hn & _); [lia | eauto].
      * destruct (Hb start) as (n & Hn & _); [lia | eauto].
Qed.

(** X7: [section_by_name] returns a section exactly when that section
    bears the name and every section before it, from index 1 on, has a
    name that [elf_strptr] resolves and that differs: the first section
    with the name, never the one at index 0. *)
Theorem section_by_name_is_first_match e name scn :
  section_by_name e name = Ok (Some scn) ↔
  (1 ≤ scn < length (elf_scns e))%nat ∧
  get_scn_name e scn = Ok (Some name) ∧
  ∀ s, (1 ≤ s < scn)%nat →
       ∃ n, get_scn_name e s = Ok (Some n) ∧ n ≠ name.
Proof.
  unfold section_by_name, elf_sections.
  rewrite section_by_name_from_seq. cbn [default]. split.
  - intros (Hb & Hr & Hn). split; [lia |]. split; [exact Hn |]. exact Hb.
  - intros (Hr & Hn & Hb). split; [exact Hb |]. split; [lia | exact Hn].
Qed.

(** X8: [section_by_name] returns NULL exactly when every section from
    index 1 on has a name that resolves and differs from the one asked
    for. *)
Theorem section_by_name_null_iff e name :
  section_by_name e name = Ok None ↔
  ∀ s, (1 ≤ s < length (elf_scns e))%nat →
       ∃ n, get_scn_name e s = Ok (Some n) ∧ n ≠ name.
Proof.
  unfold section_by_name, elf_sections.
  rewrite section_by_name_from_seq. cbn [default]. split.
  - intros [Hb _] s Hs. apply Hb. lia.
  - intros Hb. split; [| exact I]. intros s Hs. apply Hb. lia.
Qed.

Lemma section_by_name_from_null_name e name len : ∀ start s,
  (start ≤ s < start + len)%nat →
  get_scn_name e s = Ok None →
  (∀ s', (start ≤ s' < s)%nat →
         ∃ n, get_scn_name e s' = Ok (Some n) ∧ n ≠ name) →
  section_by_name_from e name (seq start len) = Undefined.
Proof.
  induction len as [| len IH]; intros start s Hs Hnone Hb; [lia |].
  cbn [seq]. rewrite section_by_name_from_cons.
  destruct (decide (s = start)) as [-> | Hne].
  - rewrite Hnone. reflexivity.
  - destruct (Hb start) as (n & -> & Hn); [lia |].
    unfold streq. rewrite bool_decide_eq_false_2 by exact Hn.
    apply (IH (S start) s); [lia | exact Hnone |].
    intros s' Hs'. apply Hb. lia.
Qed.

(** X9: [section_by_name] hands the result of [get_scn_name] to [strcmp]
    without a NULL check.  When the search reaches a section whose name
    offset [elf_strptr] does not resolve, before any section with the
    name, the comparison reads through a NULL pointer. *)
Theorem section_by_name_compares_null_name e name s :
  (1 ≤ s < length (elf_scns e))%nat →
  get_scn_name e s = Ok None →
  (∀ s', (1 ≤ s' < s)%nat →
         ∃ n, get_scn_name e s' = Ok (Some n) ∧ n ≠ name) →
  section_by_name e name = Undefined.
Proof.
  intros Hs Hnone Hb. unfold section_by_name, elf_sections.
  apply (section_by_name_from_null_name _ _ _ _ s); [lia | assumption ..].
Qed.

Lemma section_by_name_compares_null_name_witness :
  section_by_name obj_bad_name (cstr "set_sdt_probes_set") = Undefined.
Proof.
  refine (section_by_name_compares_null_name obj_bad_name _ 1%nat _ _ _).
  - vm_compute. lia.
  - vm_compute. reflexivity.
  - intros s' Hs'. lia.
Defined.

(** ** Adding a section: outcome, header and names *)

Lemma getshdr_is_Some e scn :
  (scn < length (elf_scns e))%nat → is_Some (gelf_getshdr e scn).
Proof.
  intros Hlt. unfold gelf_getshdr.
  destruct (lookup_lt_is_Some_2 (elf_scns e) scn Hlt) as [s ->]. eauto.
Qed.

(** The three ways [add_section] ends. *)
Lemma add_section_cases verbose e name type flags out :
  (elf_getscn e (elf_shstrndx e) = None ∧
   add_section verbose e name type flags out
   = Fatal (F_elf "elf_getscn on shdrstrtab"))
  ∨ (∃ strscn, elf_getscn e (elf_shstrndx e) = Some strscn ∧
               scn_data e strscn = [] ∧
               add_section verbose e name type flags out
               = Fatal (F_elf "elf_getdata on shdrstrtab"))
  ∨ (∃ strscn strshdr strdata ds,
       elf_getscn e (elf_shstrndx e) = Some strscn ∧
       gelf_getshdr e strscn = Some strshdr ∧
       scn_data e strscn = strdata :: ds ∧
       add_section verbose e name type flags out
       = Ok (with_section e strscn strshdr strdata name type flags,
             length (elf_scns e), LOG verbose (M_added_section name) out)).
Proof.
  destruct (elf_getscn e (elf_shstrndx e)) as [strscn |] eqn:Escn.
  2: { left. split; [reflexivity |]. unfold add_section. now rewrite Escn. }
  right. pose proof (elf_getscn_Some _ _ _ Escn) as [_ Hlt].
  destruct (getshdr_is_Some e strscn Hlt) as [strshdr Hshdr].
  destruct (scn_data e strscn) as [| strdata ds] eqn:Ed.
  - left. exists strscn. do 2 (split; [first [reflexivity | assumption] |]).
    unfold add_section. rewrite Escn. cbn [or_errx mbind result_bind].
    rewrite Hshdr. cbn [or_errx mbind result_bind].
    unfold elf_getdata_first. now rewrite Ed.
  - right. exists strscn, strshdr, strdata, ds.
    do 3 (split; [first [reflexivity | assumption] |]).
    unfold add_section. rewrite Escn. cbn [or_errx mbind result_bind].
    rewrite Hshdr. cbn [or_errx mbind result_bind].
    unfold elf_getdata_first, get_data. rewrite Ed.
    cbn [mbind option_bind fst snd]. rewrite Ed.
    cbn [lookup list_lookup or_errx mbind result_bind].
    fold (name_data strdata name).
    pose proof (getshdr_newscn (elf_newdata e strscn (name_data strdata name))
                               (length (elf_scns e))) as Hh.
    rewrite length_scns_newdata, decide_True in Hh by reflexivity.
    unfold elf_newscn in *. cbn [fst] in Hh. rewrite length_scns_newdata.
    rewrite Hh. reflexivity.
Qed.

Lemma with_section_getshdr e strscn strshdr strdata name type flags scn :
  (strscn < length (elf_scns e))%nat →
  gelf_getshdr (with_section e strscn strshdr strdata name type flags) scn
  = if decide (scn = strscn)
    then Some (set_sh_size strshdr
                 (u64 (sh_size strshdr + u64 (strlen name + 1))))
    else if decide (scn = length (elf_scns e))
    then Some (added_shdr
                 (u32 (u64 (u64 (sh_size strshdr + u64 (strlen name + 1))
                            - u64 (strlen name + 1)))) type flags)
    else gelf_getshdr e scn.
Proof.
  intros Hlt. unfold with_section.
  pose proof (getshdr_newscn (elf_newdata e strscn (name_data strdata name)))
    as Hh.
  rewrite length_scns_newdata in Hh.
  destruct (getshdr_is_Some e strscn Hlt) as [h0 Hh0].
  rewrite getshdr_update_shdr.
  destruct (decide (scn = strscn)) as [-> | Hne].
  - rewrite decide_True by reflexivity.
    rewrite getshdr_update_shdr, decide_False by lia.
    rewrite Hh, decide_False by lia.
    rewrite getshdr_newdata, Hh0. reflexivity.
  - rewrite decide_False by congruence.
    rewrite getshdr_update_shdr.
    destruct (decide (scn = length (elf_scns e))) as [-> | Hne2].
    + rewrite decide_True by reflexivity.
      rewrite Hh, decide_True by reflexivity. reflexivity.
    + rewrite decide_False by congruence.
      rewrite Hh, decide_False by congruence. apply getshdr_newdata.
Qed.

Lemma with_section_data e strscn strshdr strdata name type flags scn :
  (strscn < length (elf_scns e))%nat →
  scn_data (with_section e strscn strshdr strdata name type flags) scn
  = if decide (scn = strscn)
    then scn_data e scn ++ [name_data strdata name]
    else scn_data e scn.
Proof.
  intros Hlt. unfold with_section.
  rewrite !scn_data_update_shdr, scn_data_newscn, scn_data_newdata.
  destruct (decide (scn = strscn)) as [-> | Hne].
  - rewrite decide_True; [reflexivity |]. split; [reflexivity |].
    now apply lookup_lt_is_Some_2.
  - rewrite decide_False; [reflexivity |]. intros [? _]. congruence.
Qed.

(** X11: what [add_section] builds.  The new section has the type
    (cut to 32 bits) and flags asked for, alignment 8, size, link, info
    and entry size 0, and no data.  The string table has one more
    descriptor, with the name and its NUL and with the type and alignment
    of its first descriptor, and its header differs in the size only.
    Every other section, and the ELF header, is as before. *)
Theorem add_section_builds verbose e name type flags out e' newscn out' :
  add_section verbose e name type flags out = Ok (e', newscn, out') →
  ∃ strscn strshdr strdata name_off,
    elf_getscn e (elf_shstrndx e) = Some strscn ∧
    gelf_getshdr e strscn = Some strshdr ∧
    head (scn_data e strscn) = Some strdata ∧
    elf_ehdr e' = elf_ehdr e ∧
    gelf_getshdr e' newscn = Some (added_shdr name_off type flags) ∧
    scn_data e' newscn = [] ∧
    gelf_getshdr e' strscn
    = Some (set_sh_size strshdr (u64 (sh_size strshdr + u64 (strlen name + 1)))) ∧
    scn_data e' strscn = scn_data e strscn ++ [name_data strdata name] ∧
    ∀ scn, scn ≠ strscn → scn ≠ newscn →
           gelf_getshdr e' scn = gelf_getshdr e scn ∧
           scn_data e' scn = scn_data e scn.
Proof.
  intros H.
  destruct (add_section_cases verbose e name type flags out)
    as [[_ H'] | [(strscn & _ & _ & H')
                 | (strscn & strshdr & strdata & ds & Hscn & Hshdr & Hd & H')]];
    rewrite H' in H; try discriminate.
  injection H as <- <- <-.
  pose proof (elf_getscn_Some _ _ _ Hscn) as [_ Hlt].
  exists strscn, strshdr, strdata. eexists.
  split; [exact Hscn |]. split; [exact Hshdr |].
  split; [now rewrite Hd |]. split; [reflexivity |].
  split.
  { rewrite with_section_getshdr by exact Hlt.
    rewrite decide_False by lia. rewrite decide_True by reflexivity.
    reflexivity. }
  split.
  { rewrite with_section_data by exact Hlt. rewrite decide_False by lia.
    now apply scn_data_ge. }
  split.
  { rewrite with_section_getshdr by exact Hlt.
    now rewrite decide_True by reflexivity. }
  split.
  { rewrite with_section_data by exact Hlt.
    now rewrite decide_True by reflexivity. }
  intros scn Hne1 Hne2. split.
  - rewrite with_section_getshdr by exact Hlt.
    now rewrite !decide_False by assumption.
  - rewrite with_section_data by exact Hlt.
    now rewrite decide_False by assumption.
Qed.

Lemma add_section_builds_witness :
  ∃ strscn strshdr strdata name_off,
    elf_getscn obj_call (elf_shstrndx obj_call) = Some strscn ∧
    gelf_getshdr obj_call strscn = Some strshdr ∧
    head (scn_data obj_call strscn) = Some strdata ∧
    elf_ehdr (with_instance_set obj_call) = elf_ehdr obj_call ∧
    gelf_getshdr (with_instance_set obj_call) 8%nat
    = Some (added_shdr name_off SHT_PROGBITS SHF_ALLOC) ∧
    scn_data (with_instance_set obj_call) 8%nat = [] ∧
    gelf_getshdr (with_instance_set obj_call) strscn
    = Some (set_sh_size strshdr
              (u64 (sh_size strshdr + u64 (strlen instance_set_name + 1)))) ∧
    scn_data (with_instance_set obj_call) strscn
    = scn_data obj_call strscn ++ [name_data strdata instance_set_name] ∧
    ∀ scn, scn ≠ strscn → scn ≠ 8%nat →
           gelf_getshdr (with_instance_set obj_call) scn
           = gelf_getshdr obj_call scn ∧
           scn_data (with_instance_set obj_call) scn = scn_data obj_call scn.
Proof.
  refine (add_section_builds true obj_call instance_set_name SHT_PROGBITS
            SHF_ALLOC [] (with_instance_set obj_call) 8%nat
            [M_added_section instance_set_name] _).
  vm_compute. reflexivity.
Defined.

Lemma elf_strptr_sections e ndx off :
  elf_strptr e ndx off
  = scn ← elf_getscn e ndx;
    shdr ← gelf_getshdr e scn;
    if bool_decide (sh_type shdr = SHT_STRTAB) && (0 <=? off)
       && (off <? sh_size shdr)
    then strptr_data (scn_data e scn) 0 off
    else None.
Proof.
  unfold elf_strptr, gelf_getshdr, scn_data.
  destruct (elf_getscn e ndx) as [scn |]; [| reflexivity].
  cbn [mbind option_bind]. destruct (elf_scns e !! scn); reflexivity.
Qed.

Lemma strptr_data_app ds ds' off s : ∀ count,
  strptr_data ds count off = Some s →
  strptr_data (ds ++ ds') count off = Some s.
Proof.
  induction ds as [| d ds IH]; intros count H; [discriminate |].
  cbn [strptr_data app] in *. destruct (d_buf d); try discriminate.
  destruct (off <? _); [exact H | now apply IH].
Qed.

Lemma strptr_data_end ds d : ∀ count,
  Forall (fun d => ∃ l, d_buf d = BBytes l) ds →
  strptr_data (ds ++ [d]) count
    (count + Z.of_nat (length (concat ((fun d => buf_bytes (d_buf d)) <$> ds))))
  = strptr_data [d]
      (count + Z.of_nat (length (concat ((fun d => buf_bytes (d_buf d)) <$> ds))))
      (count + Z.of_nat (length (concat ((fun d => buf_bytes (d_buf d)) <$> ds)))).
Proof.
  induction ds as [| d0 ds IH]; intros count Hb.
  - cbn [fmap list_fmap concat length app]. change (Z.of_nat 0) with 0.
    now rewrite Z.add_0_r.
  - apply Forall_cons in Hb as [[l Hl] Hb].
    cbn [app strptr_data fmap list_fmap concat]. rewrite Hl. cbn [buf_bytes].
    rewrite length_app, Nat2Z.inj_add.
    destruct (_ <? _) eqn:E; [apply Z.ltb_lt in E; lia |].
    specialize (IH (count + Z.of_nat (length l)) Hb).
    rewrite <- !Z.add_assoc in IH. exact IH.
Qed.

Lemma until_nul_name (name rest : list byte) :
  x00 ∉ name → until_nul (name ++ x00 :: rest) = name.
Proof.
  induction name as [| b name IH]; intros Hn; cbn [app until_nul].
  - now rewrite bool_decide_eq_true_2.
  - apply not_elem_of_cons in Hn as [Hb Hn].
    rewrite bool_decide_eq_false_2 by congruence. now rewrite IH.
Qed.

(** X12: the name given to [add_section] is the name [get_scn_name]
    reads back for the new section, and the sections named before keep
    their names.  This holds for a section header string table of type
    [SHT_STRTAB] whose descriptors hold bytes and whose header gives
    their total size, for a name without NUL that ends below offset 2^32
    of the table. *)
Theorem added_section_bears_its_name verbose e name type flags out e' newscn
    out' strscn strshdr :
  add_section verbose e name type flags out = Ok (e', newscn, out') →
  elf_getscn e (elf_shstrndx e) = Some strscn →
  gelf_getshdr e strscn = Some strshdr →
  sh_type strshdr = SHT_STRTAB →
  byte_section e strscn →
  sh_size strshdr = Z.of_nat (length (section_bytes e strscn)) →
  sh_size strshdr + strlen name + 1 <= 2 ^ 32 →
  x00 ∉ name →
  get_scn_name e' newscn = Ok (Some name) ∧
  ∀ scn n, get_scn_name e scn = Ok (Some n) →
           get_scn_name e' scn = Ok (Some n).
Proof.
  intros H Hscn Hshdr Hty Hbytes Hsz Hfit Hnul.
  destruct (add_section_cases verbose e name type flags out)
    as [[_ H'] | [(strscn' & _ & _ & H')
                 | (strscn' & strshdr' & strdata & ds & Hscn' & Hshdr' & Hd & H')]];
    rewrite H' in H; try discriminate.
  injection H as <- <- <-.
  assert (strscn' = strscn) as -> by congruence.
  assert (strshdr' = strshdr) as -> by congruence.
  pose proof (elf_getscn_Some _ _ _ Hscn) as [Hndx Hlt].
  pose proof (elf_getscn_range _ _ _ Hscn) as [Hrange _].
  assert (0 <= strlen name) as Hname by (unfold strlen; lia).
  assert (0 <= sh_size strshdr) as Hpos by lia.
  set (e' := with_section e strscn strshdr strdata name type flags).
  assert (elf_getscn e' (elf_shstrndx e') = Some strscn) as Hscn1.
  { change (elf_shstrndx e') with (elf_shstrndx e).
    unfold elf_getscn in *.
    replace (length (elf_scns e')) with (S (length (elf_scns e))).
    - destruct (0 <=? elf_shstrndx e) eqn:E1; [| discriminate].
      destruct (elf_shstrndx e <? Z.of_nat (length (elf_scns e))) eqn:E2;
        [| discriminate].
      destruct (elf_shstrndx e <? Z.of_nat (S (length (elf_scns e)))) eqn:E3;
        [exact Hscn |].
      apply Z.ltb_lt in E2. apply Z.ltb_ge in E3. lia.
    - unfold e', with_section. rewrite !length_scns_update_shdr.
      unfold elf_newscn. cbn [fst set_scns elf_scns].
      rewrite length_app, length_scns_newdata. cbn. lia. }
  assert (gelf_getshdr e' strscn
          = Some (set_sh_size strshdr (sh_size strshdr + (strlen name + 1))))
    as Hshdr1.
  { unfold e'. rewrite with_section_getshdr by exact Hlt.
    rewrite decide_True by reflexivity.
    rewrite (u64_small (strlen name + 1)) by lia.
    rewrite u64_small by lia. reflexivity. }
  assert (scn_data e' strscn = scn_data e strscn ++ [name_data strdata name])
    as Hdata1.
  { unfold e'. rewrite with_section_data by exact Hlt.
    now rewrite decide_True by reflexivity. }
  assert (gelf_getshdr e' (length (elf_scns e))
          = Some (added_shdr (sh_size strshdr) type flags)) as Hnew.
  { unfold e'. rewrite with_section_getshdr by exact Hlt.
    rewrite decide_False by lia. rewrite decide_True by reflexivity.
    rewrite (u64_small (strlen name + 1)) by lia.
    rewrite (u64_small (sh_size strshdr + _)) by lia.
    replace (sh_size strshdr + (strlen name + 1) - (strlen name + 1))
      with (sh_size strshdr) by lia.
    rewrite u64_small by lia.
    unfold u32. now rewrite Z.mod_small by lia. }
  assert (∀ scn shdr, scn ≠ strscn → scn ≠ length (elf_scns e) →
                      gelf_getshdr e scn = Some shdr →
                      gelf_getshdr e' scn = Some shdr) as Hother.
  { intros scn shdr Hne1 Hne2 Hh. unfold e'.
    rewrite with_section_getshdr by exact Hlt.
    now rewrite !decide_False by assumption. }
  assert (elf_shstrndx e' = elf_shstrndx e) as Hndx1 by reflexivity.
  clearbody e'.
  split.
  - unfold get_scn_name. rewrite Hnew.
    cbn [or_errx mbind result_bind added_shdr sh_name].
    rewrite elf_strptr_sections, Hscn1. cbn [mbind option_bind].
    rewrite Hshdr1. cbn [mbind option_bind set_sh_size sh_type sh_size].
    rewrite bool_decide_eq_true_2 by exact Hty.
    destruct (0 <=? sh_size strshdr) eqn:E1; [| apply Z.leb_gt in E1; lia].
    destruct (sh_size strshdr <? _) eqn:E2; [| apply Z.ltb_ge in E2; lia].
    cbn [andb]. rewrite Hdata1, Hsz. unfold section_bytes.
    pose proof (strptr_data_end (scn_data e strscn) (name_data strdata name) 0
                                Hbytes) as Hend.
    rewrite !Z.add_0_l in Hend. rewrite Hend.
    cbn [strptr_data name_data d_buf].
    match goal with
    | |- context [if ?c then Some _ else None] => destruct c eqn:E3
    end.
    + rewrite Z.sub_diag. unfold string_at.
      change (Z.to_nat 0) with 0%nat. rewrite drop_0.
      now rewrite until_nul_name.
    + apply Z.ltb_ge in E3. rewrite length_app in E3. cbn in E3. lia.
  - intros scn n Hn. unfold get_scn_name in *.
    destruct (gelf_getshdr e scn) as [shdr |] eqn:Eh; [| discriminate].
    cbn [or_errx mbind result_bind] in Hn. injection Hn as Hn.
    assert (gelf_getshdr e' scn
            = Some (if decide (scn = strscn)
                    then set_sh_size shdr (sh_size strshdr + (strlen name + 1))
                    else shdr)) as Hh.
    { destruct (decide (scn = strscn)) as [-> | Hne].
      - rewrite Hshdr1. congruence.
      - apply Hother; [exact Hne | | exact Eh]. intros ->.
        unfold gelf_getshdr in Eh.
        rewrite (proj2 (lookup_ge_None _ _)) in Eh by lia. discriminate. }
    rewrite Hh. cbn [or_errx mbind result_bind]. f_equal.
    replace (sh_name (if decide (scn = strscn)
                      then set_sh_size shdr (sh_size strshdr + (strlen name + 1))
                      else shdr)) with (sh_name shdr)
      by (destruct (decide (scn = strscn)); reflexivity).
    rewrite elf_strptr_sections in *. rewrite Hscn1. rewrite Hscn in Hn.
    cbn [mbind option_bind] in *. rewrite Hshdr1. rewrite Hshdr in Hn.
    cbn [mbind option_bind set_sh_size sh_type sh_size] in *.
    destruct (bool_decide (sh_type strshdr = SHT_STRTAB)); [| discriminate].
    destruct (0 <=? sh_name shdr); [| discriminate].
    destruct (sh_name shdr <? sh_size strshdr) eqn:E2; [| discriminate].
    apply Z.ltb_lt in E2.
    destruct (sh_name shdr <? sh_size strshdr + (strlen name + 1)) eqn:E3;
      [| apply Z.ltb_ge in E3; lia].
    cbn [andb] in *. rewrite Hdata1. now apply strptr_data_app.
Qed.

Lemma added_section_bears_its_name_witness :
  get_scn_name (with_instance_set obj_call) 8%nat
  = Ok (Some instance_set_name) ∧
  ∀ scn n, get_scn_name obj_call scn = Ok (Some n) →
           get_scn_name (with_instance_set obj_call) scn = Ok (Some n).
Proof.
  refine (added_section_bears_its_name true obj_call instance_set_name
            SHT_PROGBITS SHF_ALLOC [] (with_instance_set obj_call) 8%nat
            [M_added_section instance_set_name] 7%nat
            (sample_strshdr obj_call) _ _ _ _ _ _ _ _);
    try (vm_compute; reflexivity).
  - repeat constructor; eexists; reflexivity.
  - vm_compute. discriminate.
  - vm_compute. intros H. repeat (apply elem_of_cons in H as [H | H]; [discriminate |]).
    now apply elem_of_nil in H.
Defined.

(** ** What the scan keeps *)

(** A relation between the states of the scan that holds across one
    entry and across a message holds across the whole scan. *)
Section ScanInvariant.

Context (verbose : bool) (R : state → state → Prop).
Hypothesis R_refl : ∀ st, R st st.
Hypothesis R_trans : ∀ st0 st1 st2, R st0 st1 → R st1 st2 → R st0 st2.
Hypothesis R_entry :
  ∀ ehdr shdr symshdr symscn targdata reldata i st st',
    process_entry verbose ehdr shdr symshdr symscn targdata reldata i st
      = Ok st' → R st st'.
Hypothesis R_log :
  ∀ e plist out m, R (e, plist, out) (e, plist, LOG verbose m out).

Lemma entry_loop_invariant fuel ehdr shdr symshdr symscn targdata reldata n i
    st i' st' :
  entry_loop verbose fuel ehdr shdr symshdr symscn targdata reldata n i st
    = Ok (i', st') →
  R st st'.
Proof.
  revert i st. induction fuel as [| fuel IH]; intros i st H;
    cbn [entry_loop] in H.
  - run_step H. simplify_eq. apply R_refl.
  - run_step H; [simplify_eq; apply R_refl |].
    run_step H. apply R_entry in E0. apply IH in H. eauto.
Qed.

Lemma data_loop_invariant ks ehdr shdr symshdr scn symscn targdata i st st' :
  data_loop verbose ks ehdr shdr symshdr scn symscn targdata i st = Ok st' →
  R st st'.
Proof.
  revert i st. induction ks as [| k ks IH]; intros i st H;
    cbn [data_loop] in H.
  - simplify_eq. apply R_refl.
  - run_step H. run_step H. destruct a0 as [i1 st1]. cbn beta iota in H.
    apply entry_loop_invariant in E0. apply IH in H. eauto.
Qed.

Lemma process_reloc_scn_invariant e ehdr shdr scn plist out st' :
  process_reloc_scn verbose e ehdr shdr scn plist out = Ok st' →
  R (e, plist, out) st'.
Proof.
  unfold process_reloc_scn. intros H.
  do 4 run_step H. run_step H.
  - simplify_eq. apply R_log.
  - do 2 run_step H. now apply data_loop_invariant in H.
Qed.

Lemma scan_sections_invariant scns ehdr st st' :
  scan_sections verbose scns ehdr st = Ok st' → R st st'.
Proof.
  revert st. induction scns as [| scn scns IH]; intros st H;
    cbn [scan_sections] in H.
  - simplify_eq. apply R_refl.
  - destruct st as [[e plist] out]. run_step H. run_step H.
    apply IH in H. eapply R_trans; [| eassumption].
    run_step E0.
    + now apply process_reloc_scn_invariant in E0.
    + simplify_eq. apply R_refl.
Qed.

End ScanInvariant.

Lemma buf_same_refl b : buf_same b b.
Proof. destruct b; reflexivity. Qed.

Lemma buf_same_trans b0 b1 b2 : buf_same b0 b1 → buf_same b1 b2 → buf_same b0 b2.
Proof. destruct b0, b1, b2; cbn; try tauto; congruence. Qed.

Lemma buffer_kept_refl d : buffer_kept d d.
Proof. repeat split; auto using buf_same_refl. Qed.

Lemma buffer_kept_trans d0 d1 d2 :
  buffer_kept d0 d1 → buffer_kept d1 d2 → buffer_kept d0 d2.
Proof.
  intros (? & ? & ? & ? & Hd1) (? & ? & ? & ? & Hd2).
  split; [congruence |]. split; [congruence |]. split; [congruence |].
  split; [eauto using buf_same_trans |].
  destruct Hd2 as [-> | Hd2]; auto.
Qed.

Lemma layout_kept_refl e : layout_kept e e.
Proof.
  repeat split; auto. intros p.
  destruct (get_data e p); constructor. apply buffer_kept_refl.
Qed.

Lemma layout_kept_trans e0 e1 e2 :
  layout_kept e0 e1 → layout_kept e1 e2 → layout_kept e0 e2.
Proof.
  intros (? & ? & ? & Hh1 & Hd1) (? & ? & ? & Hh2 & Hd2).
  split; [congruence |]. split; [congruence |]. split; [congruence |].
  split; [intros scn; now rewrite Hh2 |].
  intros p. specialize (Hd1 p). specialize (Hd2 p).
  destruct Hd1; inversion Hd2; subst; constructor.
  eauto using buffer_kept_trans.
Qed.

Lemma rewrite_site_length ehdr name target off info target' info' :
  rewrite_site ehdr name target off info = Ok (target', info') →
  length target' = length target.
Proof.
  unfold rewrite_site, memset, store. intros H.
  repeat run_step H.
  repeat match goal with
         | Hx : (if _ then _ else _) = Ok _ |- _ => run_step Hx
         end;
    simplify_eq; rewrite ?length_insert, ?length_inserts; reflexivity.
Qed.

(** The object after an entry has been rewritten: the text descriptor
    and the relocation descriptor are replaced and flagged. *)
Lemma layout_kept_flagged e t r td rd (F G : Elf_Data → Elf_Data) :
  t ≠ r →
  get_data e t = Some td → get_data e r = Some rd →
  buffer_kept td (set_d_dirty (F td)) →
  buffer_kept rd (set_d_dirty (G rd)) →
  layout_kept e
    (update_data (update_data (update_data (update_data e t F) r G)
                              t set_d_dirty) r set_d_dirty).
Proof.
  intros Hne Ht Hr HF HG.
  split; [reflexivity |]. split; [reflexivity |].
  split; [now rewrite !length_scns_update_data |].
  split; [intros scn; now rewrite !getshdr_update_data |].
  intros p. rewrite !get_data_update_data.
  destruct (decide (r = p)) as [<- | Hrp].
  - rewrite !(decide_False (P := t = r)) by exact Hne.
    rewrite Hr. cbn. constructor. exact HG.
  - destruct (decide (t = p)) as [<- | Htp].
    + rewrite Ht. cbn. constructor. exact HF.
    + destruct (get_data e p); constructor. apply buffer_kept_refl.
Qed.

Lemma process_entry_layout verbose ehdr shdr symshdr symscn targdata reldata i
    e plist out e' plist' out' :
  process_entry verbose ehdr shdr symshdr symscn targdata reldata i
                (e, plist, out) = Ok (e', plist', out') →
  layout_kept e e'.
Proof.
  intros Hrun.
  pose proof (process_entry_Ok _ _ _ _ _ _ _ _ _ _ _ _ _ _ Hrun)
    as (rd & td & off & info & ret & target' & info' & Hrd & Htd & Hat & Hrel
        & Hcase).
  destruct Hcase as [[_ ->] | (-> & Hne & _)]; [apply layout_kept_refl |].
  pose proof Hrel as Hrel'.
  apply process_rel_rewritten in Hrel'
    as (sym & name & _ & _ & _ & _ & _ & Hsite & _).
  pose proof (rewrite_site_nonempty _ _ _ _ _ _ Hsite) as Hnonempty.
  pose proof (rewrite_site_length _ _ _ _ _ _ _ Hsite) as Hlen.
  assert (buffer_kept td (set_d_dirty (set_d_buf td (BBytes target')))) as HF.
  { repeat split; auto. cbn [set_d_dirty set_d_buf d_buf].
    destruct (d_buf td); cbn in *; (exact Hlen || contradiction). }
  unfold process_entry in Hrun. rewrite Hrd, Htd in Hrun.
  cbn [deref mbind result_bind] in Hrun.
  run_step Hrun.
  - run_step Hrun. rename a into rel.
    run_step Hrun. destruct a as [[[[ret t'] i'] pl] o]. cbn beta iota in Hrun.
    apply or_errx_Ok in E0.
    destruct (getrel_reloc_at _ _ _ E0) as [Hat' _].
    assert (off = r_offset rel ∧ info = r_info rel) as [-> ->]
      by (split; congruence).
    rewrite E1 in Hrel. simplify_eq.
    run_step Hrun; [| discriminate]. simplify_eq.
    apply (layout_kept_flagged e targdata reldata td rd); auto.
    repeat split; auto; unfold gelf_update_rel;
      destruct (d_buf rd) eqn:Eb; cbn [set_d_dirty set_d_buf d_buf d_type
        d_align d_version]; rewrite ?Eb; cbn [buf_same];
        rewrite ?length_insert; auto.
  - run_step Hrun. run_step Hrun. rename a into rela.
    run_step Hrun. destruct a as [[[[ret t'] i'] pl] o]. cbn beta iota in Hrun.
    apply or_errx_Ok in E1.
    destruct (getrela_reloc_at _ _ _ E1) as [Hat' _].
    assert (off = ra_offset rela ∧ info = ra_info rela) as [-> ->]
      by (split; congruence).
    rewrite E2 in Hrel. simplify_eq.
    run_step Hrun; [| discriminate]. simplify_eq.
    apply (layout_kept_flagged e targdata reldata td rd); auto.
    repeat split; auto; unfold gelf_update_rela;
      destruct (d_buf rd) eqn:Eb; cbn [set_d_dirty set_d_buf d_buf d_type
        d_align d_version]; rewrite ?Eb; cbn [buf_same];
        rewrite ?length_insert; auto.
Qed.

(** X13: the scan of [process_obj] leaves the layout of the object as it
    is.  The ELF header and every section header are unchanged; no
    section gains or loses a data descriptor; a descriptor keeps its
    type, alignment, version, the kind of its buffer and the number of
    elements in it, and a symbol buffer keeps its symbols; and every
    descriptor that is not as it was is flagged [ELF_F_DIRTY]. *)
Theorem scan_keeps_layout verbose scns ehdr e plist out e' plist' out' :
  scan_sections verbose scns ehdr (e, plist, out) = Ok (e', plist', out') →
  layout_kept e e'.
Proof.
  intros H.
  apply (scan_sections_invariant verbose
           (fun st st' => layout_kept st.1.1 st'.1.1)) in H; [exact H | ..].
  - intros st. apply layout_kept_refl.
  - intros st0 st1 st2. apply layout_kept_trans.
  - intros ??????? [[e0 pl0] o0] [[e1 pl1] o1] Hrun.
    now apply process_entry_layout in Hrun.
  - intros. apply layout_kept_refl.
Qed.

Lemma scan_keeps_layout_witness : layout_kept obj_call (scanned obj_call).
Proof.
  refine (scan_keeps_layout true (elf_sections obj_call) (elf_ehdr obj_call)
            obj_call [] [] (scanned obj_call)
            [{| symname := stub_lookup; offset := 0x10 |}]
            [M_updated stub_lookup 0xf;
             M_skipping (cstr "set_sdt_probes_set")] _).
  vm_compute. reflexivity.
Defined.

(** ** The instance list *)

Lemma process_entry_instances verbose ehdr shdr symshdr symscn targdata reldata
    i e plist out e' plist' out' :
  process_entry verbose ehdr shdr symshdr symscn targdata reldata i
                (e, plist, out) = Ok (e', plist', out') →
  ∃ new, plist' = new ++ plist ∧ Forall probe_named new.
Proof.
  intros Hrun.
  apply process_entry_Ok in Hrun
    as (rd & td & off & info & ret & target' & info' & _ & _ & _ & Hrel
        & Hcase).
  destruct Hcase as [[Hret _] | (-> & _)].
  - apply process_rel_skipped in Hrel as (_ & _ & _ & -> & _); [| assumption].
    exists []. split; [reflexivity | constructor].
  - apply process_rel_rewritten in Hrel
      as (sym & name & _ & _ & Hpre & _ & _ & _ & -> & _).
    exists [{| symname := name; offset := off |}].
    split; [reflexivity |]. repeat constructor. exact Hpre.
Qed.

(** X14: the scan adds instances at the head of the list and keeps the
    ones that were there; every instance it adds is for a symbol whose
    name starts with [__dtrace_probe_]. *)
Theorem scan_records_probe_stubs_only verbose scns ehdr e plist out e' plist'
    out' :
  scan_sections verbose scns ehdr (e, plist, out) = Ok (e', plist', out') →
  ∃ new, plist' = new ++ plist ∧ Forall probe_named new.
Proof.
  intros H.
  apply (scan_sections_invariant verbose
           (fun st st' => ∃ new, st'.1.2 = new ++ st.1.2 ∧
                                 Forall probe_named new)) in H;
    [exact H | ..].
  - intros st. exists []. split; [reflexivity | constructor].
  - intros st0 st1 st2 (n1 & H1 & F1) (n2 & H2 & F2).
    exists (n2 ++ n1). split; [now rewrite H2, H1, app_assoc |].
    apply Forall_app. auto.
  - intros ??????? [[e0 pl0] o0] [[e1 pl1] o1] Hrun.
    now apply process_entry_instances in Hrun.
  - intros. exists []. split; [reflexivity | constructor].
Qed.

Lemma scan_records_probe_stubs_only_witness :
  ∃ new, [{| symname := stub_lookup; offset := 0x10 |}] = new ++ [] ∧
         Forall probe_named new.
Proof.
  refine (scan_records_probe_stubs_only true (elf_sections obj_call)
            (elf_ehdr obj_call) obj_call [] [] (scanned obj_call)
            [{| symname := stub_lookup; offset := 0x10 |}]
            [M_updated stub_lookup 0xf;
             M_skipping (cstr "set_sdt_probes_set")] _).
  vm_compute. reflexivity.
Defined.

Lemma probe_named_length inst : probe_named inst → prefixlen <= strlen (symname inst).
Proof.
  unfold probe_named, strneq, strlen. intros H.
  apply bool_decide_eq_true in H. apply (f_equal length) in H.
  rewrite !length_take in H. change (Z.to_nat prefixlen) with 15%nat in H.
  change (length probe_prefix) with 15%nat in H. unfold prefixlen. lia.
Qed.

Lemma match_loop_found verbose fuel e proberelshdr symshdr symtab inst d : ∀ n i
    found out i' found' out',
  match_loop verbose fuel e proberelshdr symshdr symtab inst d n i found out
    = Ok (i', found', out') →
  found' = true →
  found = true ∨
  ∃ name, prefixlen <= strlen name ∧
          stradd name (strlen (cstr "sdt_")) = stradd (symname inst) prefixlen.
Proof.
  induction fuel as [| fuel IH]; intros n i found out i' found' out' H Hf;
    cbn [match_loop] in H.
  - run_step H. simplify_eq. auto.
  - run_step H; [simplify_eq; auto |].
    run_step H. destruct a as [info off]. cbn beta iota in H.
    run_step H. run_step H. apply deref_Ok in E2.
    run_step H; [eauto |].
    apply Z.ltb_ge in E3.
    run_step H; [| eauto].
    right. exists a0. split; [exact E3 |].
    unfold streq in E4. now apply bool_decide_eq_true in E4.
Qed.

Lemma match_data_loop_found verbose ds e proberelshdr symshdr symtab inst : ∀ i
    found out found' out',
  match_data_loop verbose ds e proberelshdr symshdr symtab inst i found out
    = Ok (found', out') →
  found' = true →
  found = true ∨
  ∃ name, prefixlen <= strlen name ∧
          stradd name (strlen (cstr "sdt_")) = stradd (symname inst) prefixlen.
Proof.
  induction ds as [| d ds IH]; intros i found out found' out' H Hf;
    cbn [match_data_loop] in H.
  - simplify_eq. auto.
  - run_step H. run_step H. destruct a0 as [[i1 found1] out1].
    cbn beta iota in H.
    destruct (IH _ _ _ _ _ H Hf) as [-> | Hn]; [| auto].
    now apply match_loop_found in E0.
Qed.

Lemma record_instance_match verbose e ehdr instscn relscn inst out e' out' :
  record_instance verbose e ehdr instscn relscn inst out = Ok (e', out') →
  ∃ name, prefixlen <= strlen name ∧
          stradd name (strlen (cstr "sdt_")) = stradd (symname inst) prefixlen.
Proof.
  unfold record_instance. intros H.
  do 3 run_step H. run_step H. run_step H. run_step H.
  destruct p as [[[proberelscn proberelshdr] symtab] symshdr].
  run_step H. destruct a3 as [found out1]. cbn beta iota in H.
  run_step H.
  match goal with Hn : negb found = false |- _ =>
    apply negb_false_iff in Hn; subst found end.
  match goal with Hm : match_data_loop _ _ _ _ _ _ _ _ _ _ = Ok _ |- _ =>
    apply match_data_loop_found in Hm as [? | ?];
      [discriminate | assumption | reflexivity] end.
Qed.

Lemma match_needs_long_name (name symname : list byte) :
  prefixlen <= strlen name →
  stradd name (strlen (cstr "sdt_")) = stradd symname prefixlen →
  26 <= strlen symname.
Proof.
  unfold stradd, strlen, prefixlen. intros Hlen Heq.
  apply (f_equal length) in Heq. rewrite !length_drop in Heq.
  change (Z.to_nat (Z.of_nat (length (cstr "sdt_")))) with 4%nat in Heq.
  change (Z.to_nat 15) with 15%nat in Heq. lia.
Qed.

Lemma match_loop_search verbose fuel e proberelshdr symshdr symtab inst d : ∀ n i
    found out i' found' out',
  match_loop verbose fuel e proberelshdr symshdr symtab inst d n i found out
    = Ok (i', found', out') →
  found' = true →
  found = true ∨
  ∃ name, entry_symbol e symtab symshdr d name ∧
          prefixlen <= strlen name ∧
          stradd name (strlen (cstr "sdt_")) = stradd (symname inst) prefixlen.
Proof.
  induction fuel as [| fuel IH]; intros n i found out i' found' out' H Hf;
    cbn [match_loop] in H.
  - run_step H. simplify_eq. auto.
  - run_step H; [simplify_eq; auto |].
    run_step H. destruct a as [info off]. cbn beta iota in H.
    assert (reloc_at d i = Some (off, info)) as Hat.
    { clear H. run_step E0.
      - run_step E0. apply or_errx_Ok in E2.
        apply getrel_reloc_at in E2 as [Hat _]. now simplify_eq.
      - run_step E0. run_step E0. apply or_errx_Ok in E3.
        apply getrela_reloc_at in E3 as [Hat _]. now simplify_eq. }
    run_step H. run_step H.
    match goal with Hn : deref _ = Ok _ |- _ => apply deref_Ok in Hn end.
    run_step H; [eauto |].
    match goal with Hl : (strlen _ <? prefixlen) = false |- _ =>
      apply Z.ltb_ge in Hl end.
    run_step H; [| eauto].
    right. eexists. split; [| split; [eassumption |]].
    + exists i, off, info. eauto.
    + match goal with Hs : streq _ _ = true |- _ =>
        unfold streq in Hs; now apply bool_decide_eq_true in Hs end.
Qed.

Lemma match_data_loop_search verbose ds e proberelshdr symshdr symtab inst : ∀ i
    found out found' out',
  match_data_loop verbose ds e proberelshdr symshdr symtab inst i found out
    = Ok (found', out') →
  found' = true →
  found = true ∨
  ∃ d name, d ∈ ds ∧ entry_symbol e symtab symshdr d name ∧
            prefixlen <= strlen name ∧
            stradd name (strlen (cstr "sdt_"))
            = stradd (symname inst) prefixlen.
Proof.
  induction ds as [| d ds IH]; intros i found out found' out' H Hf;
    cbn [match_data_loop] in H.
  - simplify_eq. auto.
  - run_step H. run_step H. destruct a0 as [[i1 found1] out1].
    cbn beta iota in H.
    destruct (IH _ _ _ _ _ H Hf) as [-> | (d' & name & Hin & Hrest)].
    + match goal with Hm : match_loop _ _ _ _ _ _ _ _ _ _ _ _ = Ok _ |- _ =>
        apply match_loop_search in Hm as [? | (name & ?)];
          [auto | | reflexivity] end.
      right. exists d, name. split; [now left | assumption].
    + right. exists d', name. split; [now right | assumption].
Qed.

Lemma find_proberelscn_Ok e probescn : ∀ scns proberelscn proberelshdr symtab
    symshdr,
  find_proberelscn e probescn scns
    = Ok (Some (proberelscn, proberelshdr, symtab, symshdr)) →
  proberelscn ∈ scns ∧
  gelf_getshdr e proberelscn = Some proberelshdr ∧
  (sh_type proberelshdr = SHT_REL ∨ sh_type proberelshdr = SHT_RELA) ∧
  sh_info proberelshdr = elf_ndxscn probescn ∧
  elf_getscn e (sh_link proberelshdr) = Some symtab ∧
  gelf_getshdr e symtab = Some symshdr.
Proof.
  induction scns as [| scn scns IH]; intros prs prh st sh H;
    cbn [find_proberelscn] in H; [discriminate |].
  run_step H. apply or_errx_Ok in E. run_step H.
  - apply andb_true_iff in E0 as [Hty Hinfo].
    apply orb_true_iff in Hty. apply Z.eqb_eq in Hinfo.
    do 2 run_step H.
    match goal with Hs : or_errx (elf_getscn _ _) _ = Ok _ |- _ =>
      apply or_errx_Ok in Hs end.
    match goal with Hs : or_errx (gelf_getshdr _ _) _ = Ok _ |- _ =>
      apply or_errx_Ok in Hs end.
    simplify_eq. split; [now left |]. split; [assumption |].
    split; [destruct Hty as [Hty | Hty]; apply Z.eqb_eq in Hty; auto |].
    auto.
  - apply IH in H as (Hin & Hrest). split; [now right | exact Hrest].
Qed.

Lemma record_instance_search verbose e ehdr instscn relscn inst out e' out' :
  record_instance verbose e ehdr instscn relscn inst out = Ok (e', out') →
  ∃ name, probe_set_symbol (elf_newdata e instscn (instance_data inst)) name ∧
          prefixlen <= strlen name ∧
          stradd name (strlen (cstr "sdt_")) = stradd (symname inst) prefixlen.
Proof.
  unfold record_instance. intros H.
  fold (instance_data inst) in H.
  set (e1 := elf_newdata e instscn (instance_data inst)) in *.
  do 2 run_step H.
  destruct (section_by_name e1 (cstr "set_sdt_probes_set"))
    as [[probescn |] | |] eqn:Hsec;
    cbn beta iota delta [mbind result_bind] in H; try discriminate.
  destruct (find_proberelscn e1 probescn (elf_sections e1))
    as [[[[[prs prh] st] sh] |] | |] eqn:Hfind;
    cbn beta iota delta [mbind result_bind] in H; try discriminate.
  apply find_proberelscn_Ok in Hfind as (Hin & Hh & Hty & Hinfo & Hst & Hsh).
  destruct (match_data_loop verbose (scn_data e1 prs) e1 prh sh st inst 0 false
                            out) as [[found out1] | |] eqn:Hloop;
    cbn beta iota delta [mbind result_bind] in H; try discriminate.
  destruct found; [| discriminate].
  apply match_data_loop_search in Hloop
    as [? | (d & name & Hd & Hsym & Hlen & Heq)];
    [discriminate | | reflexivity].
  exists name. split; [| auto].
  exists probescn, prs, prh, st, sh, d. auto 10.
Qed.

(** X15: [record_instance] succeeds for an instance only when the
    object has a symbol that the probe linker set is relocated against
    (see [probe_set_symbol]), of at least 15 characters, whose name from
    its fifth character on is the name of the instance's symbol from its
    sixteenth character on.  The search runs on the object that has the
    new descriptor of the instance.  The symbol of such an instance has
    at least 26 characters: an instance for a probe whose name is shorter
    than 11 characters is never resolved. *)
Theorem record_instance_needs_long_name verbose e ehdr instscn relscn inst out
    e' out' :
  record_instance verbose e ehdr instscn relscn inst out = Ok (e', out') →
  probe_named inst →
  (∃ name,
     probe_set_symbol (elf_newdata e instscn (instance_data inst)) name ∧
     prefixlen <= strlen name ∧
     stradd name (strlen (cstr "sdt_")) = stradd (symname inst) prefixlen) ∧
  26 <= strlen (symname inst).
Proof.
  intros H _. apply record_instance_search in H as (name & Hsym & Hlen & Heq).
  split; [eauto |]. eapply match_needs_long_name; eassumption.
Qed.

Lemma record_instance_needs_long_name_witness :
  (∃ name,
     probe_set_symbol
       (elf_newdata (with_instance_set obj_call) 8%nat
                    (instance_data {| symname := stub_lookup; offset := 0x10 |}))
       name ∧
     prefixlen <= strlen name ∧
     stradd name (strlen (cstr "sdt_")) = stradd stub_lookup prefixlen) ∧
  26 <= strlen stub_lookup.
Proof.
  refine (record_instance_needs_long_name true (with_instance_set obj_call)
            (elf_ehdr obj_call) 8%nat 9%nat
            {| symname := stub_lookup; offset := 0x10 |} []
            (recorded obj_call {| symname := stub_lookup; offset := 0x10 |})
            [M_found 0 stub_lookup] _ _);
    vm_compute; reflexivity.
Defined.

(** The calls behind a run of [process_elf] that hands an object to
    [elf_update]. *)
Lemma process_elf_runs verbose obj e out e' out' :
  process_elf verbose obj e out = Ok (Some e', out') →
  ∃ e1 plist out1 e2 instscn out2 e3 instrelscn out3,
    e_type (elf_ehdr e) = ET_REL ∧
    scan_sections verbose (elf_sections e) (elf_ehdr e) (e, [], out)
      = Ok (e1, plist, out1) ∧
    plist ≠ [] ∧
    add_section verbose e1 (cstr "set_sdt_instance_set") SHT_PROGBITS
                SHF_ALLOC out1 = Ok (e2, instscn, out2) ∧
    add_section verbose e2 (cstr ".relaset_sdt_instance_set") SHT_RELA 0 out2
      = Ok (e3, instrelscn, out3) ∧
    record_instances verbose plist e3 (elf_ehdr e) instscn instrelscn out3
      = Ok (e', out').
Proof.
  unfold process_elf. intros H.
  run_step H. apply negb_false_iff, Z.eqb_eq in E.
  run_step H. destruct a as [[e1 plist] out1]. cbn beta iota in H.
  assert (plist ≠ []) as Hne by (intros ->; discriminate).
  destruct plist as [| inst plist']; [contradiction |].
  set (plist := inst :: plist') in *. clearbody plist.
  run_step H. destruct a as [[e2 instscn] out2]. cbn beta iota in H.
  run_step H. destruct a as [[e3 instrelscn] out3]. cbn beta iota in H.
  run_step H. destruct a as [e4 out4]. cbn beta iota in H. simplify_eq.
  exists e1, plist, out1, e2, instscn, out2, e3, instrelscn, out3. auto 10.
Qed.

Lemma record_instances_each verbose plist ehdr instscn relscn : ∀ e out e' out',
  record_instances verbose plist e ehdr instscn relscn out = Ok (e', out') →
  Forall (fun inst =>
            ∃ e0 out0 e1 out1,
              record_instance verbose e0 ehdr instscn relscn inst out0
              = Ok (e1, out1)) plist.
Proof.
  induction plist as [| inst plist IH]; intros e out e' out' H;
    cbn [record_instances] in H; [constructor |].
  run_step H. destruct a as [e1 out1]. cbn beta iota in H.
  constructor; [eauto 6 | eauto].
Qed.

Lemma elem_of_rewritten_sites name addr out :
  (name, addr) ∈ rewritten_sites out ↔ M_updated name addr ∈ out.
Proof.
  unfold rewritten_sites. rewrite list_elem_of_omap. split.
  - intros (m & Hm & Hs). destruct m; simplify_eq. exact Hm.
  - intros Hm. exists (M_updated name addr). auto.
Qed.

(** X16: when [process_elf] hands an object to [elf_update], every call
    site it rewrote is a call of a stub whose name has at least 26
    characters.  An object with a rewritten call of a probe whose name
    has fewer than 11 characters is never written.  The sites are read
    off the messages of the run with [-v], which writes the same object. *)
Theorem written_object_has_long_probe_names verbose obj e e' out' :
  process_elf verbose obj e [] = Ok (Some e', out') →
  ∃ log,
    process_elf true obj e [] = Ok (Some e', log) ∧
    ∀ name addr, M_updated name addr ∈ log → 26 <= strlen name.
Proof.
  intros H. apply process_elf_verbose in H as [log Hlog].
  exists log. split; [exact Hlog |].
  intros name addr Hin.
  apply process_elf_runs in Hlog
    as (e1 & plist & out1 & e2 & instscn & out2 & e3 & instrelscn & out3 & _
        & Hscan & _ & Hadd1 & Hadd2 & Hrec).
  pose proof (scan_sections_step _ _ _ _ _ Hscan)
    as (_ & _ & new & Hnew & Hsites).
  cbn [fst snd] in Hnew, Hsites. specialize (Hsites eq_refl).
  apply add_section_Ok in Hadd1 as (_ & _ & _ & _ & _ & _ & (n1 & -> & Hq1)).
  apply add_section_Ok in Hadd2 as (_ & _ & _ & _ & _ & _ & (n2 & -> & Hq2)).
  pose proof (record_instances_Ok _ _ _ _ _ _ _ _ _ Hrec)
    as (_ & _ & _ & (n3 & -> & Hq3)).
  apply elem_of_rewritten_sites in Hin.
  rewrite !rewritten_sites_app, Hq1, Hq2, Hq3, !app_nil_r in Hin.
  subst out1. cbn [app] in Hin.
  apply list_elem_of_In, in_rev, list_elem_of_In in Hin.
  rewrite app_nil_r in Hsites.
  rewrite <- Hsites in Hin. unfold sites_of in Hin.
  apply list_elem_of_fmap in Hin as (inst & Heq & Hinst).
  injection Heq as -> _.
  apply record_instances_each in Hrec.
  rewrite Forall_forall in Hrec.
  destruct (Hrec _ Hinst) as (e0 & o0 & e4 & o4 & Hone).
  apply record_instance_match in Hone as (n & Hlen & Heq).
  eapply match_needs_long_name; eassumption.
Qed.

Lemma written_object_has_long_probe_names_witness :
  ∃ log,
    process_elf true "" obj_call [] = Ok (Some (rewritten obj_call), log) ∧
    ∀ name addr, M_updated name addr ∈ log → 26 <= strlen name.
Proof.
  refine (written_object_has_long_probe_names false "" obj_call
            (rewritten obj_call) [] _).
  vm_compute. reflexivity.
Defined.

(** ** The loops of [process_reloc_scn] *)

Lemma entry_loop_exit verbose fuel ehdr shdr symshdr symscn targdata reldata n :
  ∀ i st i' st',
    entry_loop verbose fuel ehdr shdr symshdr symscn targdata reldata n i st
      = Ok (i', st') →
    n <= i'.
Proof.
  induction fuel as [| fuel IH]; intros i st i' st' H; cbn [entry_loop] in H.
  - run_step H. simplify_eq. apply negb_true_iff, Z.ltb_ge in E. exact E.
  - run_step H.
    + simplify_eq. apply negb_true_iff, Z.ltb_ge in E. exact E.
    + run_step H. eauto.
Qed.

Lemma entry_loop_done verbose fuel ehdr shdr symshdr symscn targdata reldata n i
    st :
  n <= i →
  entry_loop verbose fuel ehdr shdr symshdr symscn targdata reldata n i st
  = Ok (i, st).
Proof.
  intros Hle. destruct fuel; cbn [entry_loop];
    (destruct (i <? n) eqn:E; [apply Z.ltb_lt in E; lia | reflexivity]).
Qed.

Lemma data_loop_done verbose ks ehdr shdr symshdr scn symscn targdata n i st :
  entry_count shdr = Ok n → n <= i →
  data_loop verbose ks ehdr shdr symshdr scn symscn targdata i st = Ok st.
Proof.
  intros Hn Hle. induction ks as [| k ks IH]; cbn [data_loop];
    [reflexivity |].
  rewrite Hn. cbn [mbind result_bind].
  rewrite entry_loop_done by exact Hle. exact IH.
Qed.

(** X17: the entry counter of [process_reloc_scn] is not reset between
    the data descriptors of a relocation section.  The loop over the
    first descriptor leaves it at the entry count or above, so the
    entries of any further descriptor are not examined: the loops over
    all descriptors do what the loop over the first one does. *)
Theorem only_first_descriptor_is_scanned verbose k ks ehdr shdr symshdr scn
    symscn targdata i st :
  data_loop verbose (k :: ks) ehdr shdr symshdr scn symscn targdata i st
  = data_loop verbose [k] ehdr shdr symshdr scn symscn targdata i st.
Proof.
  cbn [data_loop].
  destruct (entry_count shdr) as [n | f |] eqn:En; cbn [mbind result_bind];
    try reflexivity.
  destruct (entry_loop _ _ _ _ _ _ _ _ _ _ _) as [[i' st'] | f |] eqn:El;
    cbn [mbind result_bind]; try reflexivity.
  apply entry_loop_exit in El. now apply (data_loop_done _ _ _ _ _ _ _ _ n).
Qed.

Lemma get_scn_name_Ok e scn shdr :
  gelf_getshdr e scn = Some shdr →
  get_scn_name e scn = Ok (elf_strptr e (elf_shstrndx e) (sh_name shdr)).
Proof. intros H. unfold get_scn_name. now rewrite H. Qed.

(** X18: a relocation section whose target section is not named [.text]
    is left alone: [process_reloc_scn] changes neither the object nor the
    instance list, and says with [-v] that it skips the section.  The
    target must have data for that: the data of the target is looked up
    before its name. *)
Theorem other_targets_are_skipped verbose e ehdr shdr scn plist out targscn name :
  elf_getscn e (sh_info shdr) = Some targscn →
  get_scn_name e targscn = Ok (Some name) →
  name ≠ cstr ".text" →
  process_reloc_scn verbose e ehdr shdr scn plist out
  = match scn_data e targscn with
    | [] => Fatal (F_elf "failed to look up target section data")
    | _ :: _ => Ok (e, plist, LOG verbose (M_skipping name) out)
    end.
Proof.
  intros Hscn Hname Hne. unfold process_reloc_scn.
  rewrite Hscn. cbn [or_errx mbind result_bind].
  unfold elf_getdata_first.
  destruct (scn_data e targscn) as [| d ds]; [reflexivity |].
  cbn [or_errx mbind result_bind]. rewrite Hname.
  cbn [deref mbind result_bind]. unfold streq.
  now rewrite bool_decide_eq_false_2 by exact Hne.
Qed.

Lemma other_targets_are_skipped_witness :
  process_reloc_scn true obj_call (elf_ehdr obj_call)
    (mk_shdr (str_off shnames 3) SHT_RELA 24 5 3 24) 4%nat [] []
  = match scn_data obj_call 3%nat with
    | [] => Fatal (F_elf "failed to look up target section data")
    | _ :: _ => Ok (obj_call, [], LOG true (M_skipping (cstr "set_sdt_probes_set")) [])
    end.
Proof.
  refine (other_targets_are_skipped true obj_call (elf_ehdr obj_call)
            (mk_shdr (str_off shnames 3) SHT_RELA 24 5 3 24) 4%nat [] []
            3%nat (cstr "set_sdt_probes_set") _ _ _).
  - reflexivity.
  - vm_compute. reflexivity.
  - vm_compute. discriminate.
Defined.

(** X19: the entry count of a relocation section is [sh_size /
    sh_entsize] of its header.  For a section that relocates [.text] and
    has data, an entry size of 0 in the header is a division by zero. *)
Theorem zero_entry_size_divides_by_zero verbose e ehdr shdr scn plist out
    targscn symscn :
  elf_getscn e (sh_info shdr) = Some targscn →
  scn_data e targscn ≠ [] →
  get_scn_name e targscn = Ok (Some (cstr ".text")) →
  elf_getscn e (sh_link shdr) = Some symscn →
  scn_data e scn ≠ [] →
  sh_entsize shdr = 0 →
  process_reloc_scn verbose e ehdr shdr scn plist out = Undefined.
Proof.
  intros Hscn Hdata Hname Hsym Hrel Hent. unfold process_reloc_scn.
  rewrite Hscn. cbn [or_errx mbind result_bind].
  unfold elf_getdata_first.
  destruct (scn_data e targscn) as [| d ds]; [contradiction |].
  cbn [or_errx mbind result_bind]. rewrite Hname.
  cbn [deref mbind result_bind]. unfold streq.
  rewrite bool_decide_eq_true_2 by reflexivity. cbn [negb].
  rewrite Hsym. cbn [or_errx mbind result_bind].
  pose proof (elf_getscn_Some _ _ _ Hsym) as [_ Hlt].
  destruct (getshdr_is_Some e symscn Hlt) as [symshdr ->].
  cbn [or_errx mbind result_bind].
  destruct (scn_data e scn) as [| rd rds]; [contradiction |].
  cbn [length seq data_loop]. unfold entry_count. rewrite Hent.
  reflexivity.
Qed.

Lemma zero_entry_size_divides_by_zero_witness :
  process_reloc_scn true obj_call (elf_ehdr obj_call)
    (mk_shdr (str_off shnames 1) SHT_RELA 24 5 1 0) 2%nat [] []
  = Undefined.
Proof.
  refine (zero_entry_size_divides_by_zero true obj_call (elf_ehdr obj_call)
            (mk_shdr (str_off shnames 1) SHT_RELA 24 5 1 0) 2%nat [] []
            1%nat 5%nat _ _ _ _ _ _);
    try (vm_compute; reflexivity); vm_compute; discriminate.
Defined.

(** ** The driver: operands, files and the flag *)

Lemma process_obj_other verbose obj fs out fs' out' p :
  process_obj verbose obj fs out = Ok (fs', out') →
  p ≠ obj → fs' p = fs p.
Proof.
  unfold process_obj. intros H Hne.
  destruct (fs obj) as [[| e] |]; try discriminate.
  destruct (process_elf verbose obj e out) as [[[e' |] out1] | |];
    cbn beta iota delta [mbind result_bind] in H; simplify_eq;
    [| reflexivity].
  unfold write_file. now rewrite bool_decide_eq_false_2 by exact Hne.
Qed.

Lemma process_objs_other verbose objs p : ∀ fs out fs' out',
  process_objs verbose objs fs out = Ok (fs', out') →
  p ∉ objs → fs' p = fs p.
Proof.
  induction objs as [| obj objs IH]; intros fs out fs' out' H Hp;
    cbn [process_objs] in H.
  - now simplify_eq.
  - apply not_elem_of_cons in Hp as [Hne Hp].
    run_step H. destruct a as [fs1 out1]. cbn beta iota in H.
    rewrite (IH _ _ _ _ H Hp). eapply process_obj_other; eassumption.
Qed.

(** The two shapes of a run of [main] that gets past [usage]. *)
Lemma main_cases argv fs r :
  main argv fs = Ok r →
  ∃ verbose objs fs' out,
    objs ≠ [] ∧ (∀ p, p ∈ objs → p ∈ tail argv) ∧
    process_objs verbose objs fs [] = Ok (fs', out) ∧ r = (0, fs', out).
Proof.
  intros H.
  destruct argv as [| prog [| flag rest]]; [discriminate ..|].
  destruct (decide (flag = "-v"%string)) as [-> | Hflag].
  - destruct rest as [| obj rest]; [discriminate |].
    rewrite main_verbose in H by discriminate.
    destruct (process_objs true (obj :: rest) fs []) as [[fs' out] | |] eqn:E;
      cbn beta iota delta [mbind result_bind] in H; simplify_eq.
    exists true, (obj :: rest), fs', out.
    split; [discriminate |]. split; [| auto].
    intros p Hp. cbn [tail]. now apply elem_of_cons; right.
  - rewrite main_plain in H by (discriminate || (cbn; congruence)).
    destruct (process_objs false (flag :: rest) fs []) as [[fs' out] | |] eqn:E;
      cbn beta iota delta [mbind result_bind] in H; simplify_eq.
    exists false, (flag :: rest), fs', out.
    split; [discriminate |]. split; [| auto].
    intros p Hp. exact Hp.
Qed.

(** X20: a run of [main] that returns has status 0, and it leaves every
    file that is not named by an argument as it was. *)
Theorem files_not_named_are_untouched argv fs st fs' out p :
  main argv fs = Ok (st, fs', out) →
  p ∉ tail argv →
  st = 0 ∧ fs' p = fs p.
Proof.
  intros H Hp.
  apply main_cases in H as (verbose & objs & fs1 & out1 & _ & Hsub & Hrun & Heq).
  simplify_eq. split; [reflexivity |].
  eapply process_objs_other; [eassumption |]. intros Hin. apply Hp. auto.
Qed.

Lemma files_not_named_are_untouched_witness :
  0 = 0 ∧
  write_file sample_files "call.o" (ElfFile (rewritten obj_call)) "a.out"%string
  = sample_files "a.out"%string.
Proof.
  refine (files_not_named_are_untouched ["sdtconvert"; "call.o"]%string
            sample_files 0
            (write_file sample_files "call.o" (ElfFile (rewritten obj_call)))
            [] "a.out"%string _ _).
  - vm_compute. reflexivity.
  - cbn [tail]. intros Hin.
    apply elem_of_cons in Hin as [Hin | Hin]; [discriminate |].
    now apply elem_of_nil in Hin.
Defined.

(** X21: without an operand [main] ends in [usage], with exit status 1
    and before any file is opened.  [-v] as the only argument is taken
    as the flag and leaves no operand. *)
Theorem no_operand_is_usage argv fs :
  (length argv ≤ 1)%nat ∨ (∃ prog, argv = [prog; "-v"%string]) →
  main argv fs = Fatal F_usage ∧ exit_status (main argv fs) = Some 1.
Proof.
  intros [Hlen | [prog ->]].
  - destruct argv as [| prog [| a rest]]; cbn in Hlen; try lia; auto.
  - auto.
Qed.

Lemma no_operand_is_usage_witness :
  main ["sdtconvert"; "-v"]%string sample_files = Fatal F_usage ∧
  exit_status (main ["sdtconvert"; "-v"]%string sample_files) = Some 1.
Proof.
  refine (no_operand_is_usage ["sdtconvert"; "-v"]%string sample_files _).
  right. exists "sdtconvert"%string. reflexivity.
Defined.

Lemma process_obj_verbose obj fs out fs' out' :
  process_obj false obj fs out = Ok (fs', out') →
  ∀ out2, ∃ out2', process_obj true obj fs out2 = Ok (fs', out2').
Proof.
  unfold process_obj. intros H out2.
  destruct (fs obj) as [[| e] |]; try discriminate.
  run_step H. destruct a as [w out1].
  assert (∃ o, process_elf true obj e out2 = Ok (w, o)) as [o ->].
  { clear H. unfold process_elf in *. run_both E; [simplify_eq; eauto |].
    run_step E. destruct a as [[e1 plist] o1].
    replay scan_sections_verbose.
    run_both E; [simplify_eq; eauto |].
    run_step E. destruct a as [[e2 instscn] o3].
    replay add_section_verbose.
    run_step E. destruct a as [[e3 instrelscn] o5].
    replay add_section_verbose.
    run_step E. destruct a as [e4 o7].
    replay record_instances_verbose.
    simplify_eq. eauto. }
  cbn beta iota delta [mbind result_bind] in *.
  destruct w; simplify_eq; eauto.
Qed.

Lemma process_objs_verbose objs : ∀ fs out fs' out',
  process_objs false objs fs out = Ok (fs', out') →
  ∀ out2, ∃ out2', process_objs true objs fs out2 = Ok (fs', out2').
Proof.
  induction objs as [| obj objs IH]; intros fs out fs' out' H out2;
    cbn [process_objs] in *.
  - simplify_eq. eauto.
  - run_step H. destruct a as [fs1 out1]. cbn beta iota in H.
    destruct (process_obj_verbose _ _ _ _ _ E out2) as [o ->].
    cbn beta iota delta [mbind result_bind]. eauto.
Qed.

(** X22: the flag [-v] adds messages and changes nothing else: when a
    run without it returns, the run on the same operands with it returns
    the same status and leaves the same files. *)
Theorem verbose_flag_adds_messages_only prog objs fs st fs' out :
  main (prog :: objs) fs = Ok (st, fs', out) →
  head objs ≠ Some "-v"%string →
  ∃ out2, main (prog :: "-v"%string :: objs) fs = Ok (st, fs', out2).
Proof.
  intros H Hflag.
  destruct objs as [| obj objs]; [discriminate |].
  rewrite main_plain in H by (assumption || discriminate).
  rewrite main_verbose by discriminate.
  run_step H. destruct a as [fs1 out1]. simplify_eq.
  destruct (process_objs_verbose _ _ _ _ _ E []) as [out2 ->].
  cbn beta iota delta [mbind result_bind]. eauto.
Qed.

Lemma verbose_flag_adds_messages_only_witness :
  ∃ out2,
    main ("sdtconvert" :: "-v" :: ["a.out"])%string sample_files
    = Ok (0, sample_files, out2).
Proof.
  refine (verbose_flag_adds_messages_only "sdtconvert"%string
            ["a.out"%string] sample_files 0 sample_files
            [M_invalid_type "a.out"] _ _).
  - reflexivity.
  - discriminate.
Defined.

(** X23: an operand that cannot be opened ends the run with exit status
    1 once the operands before it, if any, have been processed; the
    operands after it are not looked at.  This holds for the first
    operand as for a later one, with [-v] in front or without.  [-v]
    behind the first operand is such an operand unless a file bears that
    name. *)
Theorem unopenable_operand_ends_run verbose prog pre obj post fs fs1 out1 :
  process_objs verbose pre fs [] = Ok (fs1, out1) →
  fs1 obj = None →
  (verbose = false → head (pre ++ [obj]) ≠ Some "-v"%string) →
  main (prog :: (if verbose then ["-v"%string] else []) ++ pre ++ obj :: post)
       fs
  = Fatal (F_open obj) ∧
  exit_status
    (main (prog :: (if verbose then ["-v"%string] else []) ++ pre
             ++ obj :: post) fs)
  = Some 1.
Proof.
  intros Hpre Hobj Hflag.
  assert (main (prog :: (if verbose then ["-v"%string] else []) ++ pre
                  ++ obj :: post) fs = Fatal (F_open obj)) as ->; [| auto].
  assert (process_objs verbose (pre ++ obj :: post) fs [] = Fatal (F_open obj))
    as Hrun.
  { rewrite process_objs_app, Hpre.
    cbn beta iota delta [mbind result_bind process_objs].
    unfold process_obj. now rewrite Hobj. }
  destruct verbose; cbn [app].
  - rewrite main_verbose by (destruct pre; discriminate).
    now rewrite Hrun.
  - rewrite main_plain; [now rewrite Hrun | destruct pre; discriminate |].
    specialize (Hflag eq_refl). destruct pre; exact Hflag.
Qed.

(** A first operand that does not exist, and a [-v] behind the first
    operand. *)
Lemma unopenable_operand_ends_run_witness :
  (main ("sdtconvert" :: [] ++ [] ++ "missing.o" :: ["call.o"])%string
        sample_files
   = Fatal (F_open "missing.o") ∧
   exit_status
     (main ("sdtconvert" :: [] ++ [] ++ "missing.o" :: ["call.o"])%string
           sample_files)
   = Some 1) ∧
  (main ("sdtconvert" :: [] ++ ["a.out"] ++ "-v" :: ["call.o"])%string
        sample_files
   = Fatal (F_open "-v") ∧
   exit_status
     (main ("sdtconvert" :: [] ++ ["a.out"] ++ "-v" :: ["call.o"])%string
           sample_files)
   = Some 1).
Proof.
  split.
  - refine (unopenable_operand_ends_run false "sdtconvert"%string []
              "missing.o"%string ["call.o"%string] sample_files sample_files
              [] _ _ _).
    + reflexivity.
    + reflexivity.
    + intros _. discriminate.
  - refine (unopenable_operand_ends_run false "sdtconvert"%string
              ["a.out"%string] "-v"%string ["call.o"%string] sample_files
              sample_files [M_invalid_type "a.out"] _ _ _).
    + reflexivity.
    + reflexivity.
    + intros _. discriminate.
Defined.

(** ** The sections that hold the instances *)

(** The object [record_instance] leaves behind. *)
Lemma record_instance_object verbose e ehdr instscn relscn inst out e' out' :
  record_instance verbose e ehdr instscn relscn inst out = Ok (e', out') →
  ∃ instshdr,
    gelf_getshdr e instscn = Some instshdr ∧
    e' = gelf_update_shdr (elf_newdata e instscn (instance_data inst)) instscn
           (set_sh_size instshdr
                        (u64 (sh_size instshdr + sizeof_sdt_instance))).
Proof.
  unfold record_instance. intros H.
  fold (instance_data inst) in H.
  rewrite getshdr_newdata in H.
  destruct (gelf_getshdr e instscn) as [instshdr |]; [| discriminate].
  cbn [or_errx mbind result_bind] in H.
  exists instshdr. split; [reflexivity |].
  do 4 run_step H.
  destruct p as [[[proberelscn proberelshdr] symtab] symshdr].
  run_step H.
  match type of H with
  | (let '(_, _) := ?x in _) = _ => destruct x as [found out1]
  end.
  run_step H. now simplify_eq.
Qed.

(** X24: what [record_instance] leaves behind.  The instance section
    has one more data descriptor, of 16 bytes: a [probe] field of 0 and
    the offset of the instance; the size in its header has grown by 16.
    Nothing else in the object has changed: the relocation that the
    search found is not used, and the section [relscn] is not touched. *)
Theorem record_instance_appends_record verbose e ehdr instscn relscn inst out
    e' out' :
  record_instance verbose e ehdr instscn relscn inst out = Ok (e', out') →
  ∃ instshdr,
    gelf_getshdr e instscn = Some instshdr ∧
    gelf_getshdr e' instscn
    = Some (set_sh_size instshdr (u64 (sh_size instshdr + 16))) ∧
    scn_data e' instscn = scn_data e instscn ++ [instance_data inst] ∧
    d_size (instance_data inst) = 16 ∧
    decode_instance (buf_bytes (d_buf (instance_data inst)))
    = (0, u64 (offset inst)) ∧
    elf_ehdr e' = elf_ehdr e ∧
    ∀ scn, scn ≠ instscn →
           gelf_getshdr e' scn = gelf_getshdr e scn ∧
           scn_data e' scn = scn_data e scn.
Proof.
  intros H.
  pose proof (record_instance_Ok _ _ _ _ _ _ _ _ _ H) as (Hd & Hother & _).
  apply record_instance_object in H as (instshdr & Hh & ->).
  exists instshdr. split; [exact Hh |]. split.
  { rewrite getshdr_update_shdr, decide_True by reflexivity.
    now rewrite getshdr_newdata, Hh. }
  split; [exact Hd |]. split.
  { unfold d_size. cbn [instance_data d_buf].
    now rewrite length_sdt_instance_bytes. }
  split; [apply decode_sdt_instance_bytes |]. split; [reflexivity |].
  intros scn Hne. split; [| now apply Hother].
  rewrite getshdr_update_shdr, decide_False by congruence.
  apply getshdr_newdata.
Qed.

Lemma record_instance_appends_record_witness :
  ∃ instshdr,
    gelf_getshdr (with_instance_set obj_call) 8%nat = Some instshdr ∧
    gelf_getshdr (recorded obj_call {| symname := stub_lookup; offset := 0x10 |})
                 8%nat
    = Some (set_sh_size instshdr (u64 (sh_size instshdr + 16))) ∧
    scn_data (recorded obj_call {| symname := stub_lookup; offset := 0x10 |})
             8%nat
    = scn_data (with_instance_set obj_call) 8%nat
      ++ [instance_data {| symname := stub_lookup; offset := 0x10 |}] ∧
    d_size (instance_data {| symname := stub_lookup; offset := 0x10 |}) = 16 ∧
    decode_instance
      (buf_bytes (d_buf (instance_data
                           {| symname := stub_lookup; offset := 0x10 |})))
    = (0, u64 0x10) ∧
    elf_ehdr (recorded obj_call {| symname := stub_lookup; offset := 0x10 |})
    = elf_ehdr (with_instance_set obj_call) ∧
    ∀ scn, scn ≠ 8%nat →
           gelf_getshdr
             (recorded obj_call {| symname := stub_lookup; offset := 0x10 |})
             scn
           = gelf_getshdr (with_instance_set obj_call) scn ∧
           scn_data
             (recorded obj_call {| symname := stub_lookup; offset := 0x10 |})
             scn
           = scn_data (with_instance_set obj_call) scn.
Proof.
  refine (record_instance_appends_record true (with_instance_set obj_call)
            (elf_ehdr obj_call) 8%nat 9%nat
            {| symname := stub_lookup; offset := 0x10 |} []
            (recorded obj_call {| symname := stub_lookup; offset := 0x10 |})
            [M_found 0 stub_lookup] _).
  vm_compute. reflexivity.
Defined.

Lemma record_instances_header verbose plist ehdr instscn relscn : ∀ e out e' out'
    instshdr,
  record_instances verbose plist e ehdr instscn relscn out = Ok (e', out') →
  gelf_getshdr e instscn = Some instshdr →
  gelf_getshdr e' instscn
  = Some (set_sh_size instshdr
            (u64 (sh_size instshdr + 16 * Z.of_nat (length plist)))) ∨
  plist = [] ∧ e' = e.
Proof.
  induction plist as [| inst plist IH]; intros e out e' out' instshdr H Hh;
    cbn [record_instances] in H.
  - simplify_eq. auto.
  - left. run_step H. destruct a as [e1 out1]. cbn beta iota in H.
    apply record_instance_object in E as (h & Hh' & ->).
    assert (h = instshdr) as -> by congruence.
    set (h1 := set_sh_size instshdr
                 (u64 (sh_size instshdr + sizeof_sdt_instance))) in *.
    assert (gelf_getshdr
              (gelf_update_shdr (elf_newdata e instscn (instance_data inst))
                                instscn h1) instscn = Some h1) as Hh1.
    { rewrite getshdr_update_shdr, decide_True by reflexivity.
      now rewrite getshdr_newdata, Hh. }
    destruct (IH _ _ _ _ _ H Hh1) as [-> | [-> ->]].
    + f_equal. unfold h1, set_sh_size, sizeof_sdt_instance. cbn. f_equal.
      unfold u64. rewrite Zplus_mod_idemp_l. f_equal. lia.
    + rewrite Hh1. f_equal.
Qed.

Lemma record_instances_other_header verbose plist ehdr instscn relscn scn :
  ∀ e out e' out',
    record_instances verbose plist e ehdr instscn relscn out = Ok (e', out') →
    scn ≠ instscn →
    gelf_getshdr e' scn = gelf_getshdr e scn.
Proof.
  induction plist as [| inst plist IH]; intros e out e' out' H Hne;
    cbn [record_instances] in H.
  - now simplify_eq.
  - run_step H. destruct a as [e1 out1]. cbn beta iota in H.
    rewrite (IH _ _ _ _ H Hne).
    apply record_instance_object in E as (h & _ & ->).
    rewrite getshdr_update_shdr, decide_False by congruence.
    apply getshdr_newdata.
Qed.

Lemma length_instance_bytes (plist : list probe_instance) :
  length (concat ((fun inst => sdt_instance_bytes 0 (offset inst)) <$> plist))
  = (16 * length plist)%nat.
Proof.
  induction plist as [| inst plist IH]; [reflexivity |].
  cbn [fmap list_fmap concat length].
  rewrite length_app, length_sdt_instance_bytes.
  change (list_fmap _ _ ?f plist) with (f <$> plist). lia.
Qed.

Lemma with_section_length e strscn strshdr strdata name type flags :
  length (elf_scns (with_section e strscn strshdr strdata name type flags))
  = S (length (elf_scns e)).
Proof.
  unfold with_section. rewrite !length_scns_update_shdr.
  unfold elf_newscn. cbn [fst set_scns elf_scns].
  rewrite length_app, length_scns_newdata. cbn. lia.
Qed.

(** X25: the two sections of a written object.  The instance section
    is the last but one: [SHT_PROGBITS], [SHF_ALLOC], alignment 8, and a
    size in its header of 16 bytes for each record in its data.  The
    section added for its relocations is the last: [SHT_RELA] with size,
    link, info and entry size 0 and without data: it names no symbol
    table and no section to relocate. *)
Theorem emitted_sections verbose obj e out e' out' :
  process_elf verbose obj e out = Ok (Some e', out') →
  ∃ name_off name_off',
    gelf_getshdr e' (length (elf_scns e))
    = Some (set_sh_size
              (added_shdr name_off SHT_PROGBITS SHF_ALLOC)
              (u64 (16 * Z.of_nat
                           (length (instance_records e'
                                      (length (elf_scns e))))))) ∧
    length (section_bytes e' (length (elf_scns e)))
    = (16 * length (instance_records e' (length (elf_scns e))))%nat ∧
    gelf_getshdr e' (S (length (elf_scns e)))
    = Some (added_shdr name_off' SHT_RELA 0) ∧
    scn_data e' (S (length (elf_scns e))) = [].
Proof.
  intros H.
  pose proof (process_elf_Ok _ _ _ _ _ _ H)
    as (e1' & plist' & out1' & Hscan' & Hne & _ & Hdata & Hrela & _).
  apply process_elf_runs in H
    as (e1 & plist & out1 & e2 & instscn & out2 & e3 & instrelscn & out3 & _
        & Hscan & _ & Hadd1 & Hadd2 & Hrec).
  assert (plist' = plist) as -> by congruence. clear Hscan'.
  pose proof (scan_sections_step _ _ _ _ _ Hscan) as (Hlen & _).
  cbn [fst snd] in Hlen.
  destruct (add_section_cases verbose e1 (cstr "set_sdt_instance_set")
              SHT_PROGBITS SHF_ALLOC out1)
    as [[_ H'] | [(s1 & _ & _ & H')
                 | (s1 & h1 & d1 & ds1 & Hs1 & _ & _ & H')]];
    rewrite H' in Hadd1; try discriminate.
  injection Hadd1 as <- <- <-. clear H'.
  destruct (add_section_cases verbose
              (with_section e1 s1 h1 d1 (cstr "set_sdt_instance_set")
                            SHT_PROGBITS SHF_ALLOC)
              (cstr ".relaset_sdt_instance_set") SHT_RELA 0
              (LOG verbose (M_added_section (cstr "set_sdt_instance_set")) out1))
    as [[_ H'] | [(s2 & _ & _ & H')
                 | (s2 & h2 & d2 & ds2 & Hs2 & _ & _ & H')]];
    rewrite H' in Hadd2; try discriminate.
  injection Hadd2 as <- <- <-. clear H'.
  apply elf_getscn_Some in Hs1 as [-> Hlt1].
  apply elf_getscn_Some in Hs2 as [-> Hlt2].
  change (elf_shstrndx (with_section _ _ _ _ _ _ _))
    with (elf_shstrndx e1) in *.
  rewrite with_section_length in *.
  set (s := Z.to_nat (elf_shstrndx e1)) in *.
  set (e2 := with_section e1 s h1 d1 (cstr "set_sdt_instance_set")
                          SHT_PROGBITS SHF_ALLOC) in *.
  set (e3 := with_section e2 s h2 d2 (cstr ".relaset_sdt_instance_set")
                          SHT_RELA 0) in *.
  assert (length (elf_scns e2) = S (length (elf_scns e1))) as Hlen2
    by apply with_section_length.
  assert (∃ name_off,
            gelf_getshdr e3 (length (elf_scns e1))
            = Some (added_shdr name_off SHT_PROGBITS SHF_ALLOC))
    as [name_off Hinst].
  { unfold e3. rewrite with_section_getshdr by lia.
    rewrite decide_False by lia. rewrite decide_False by lia.
    unfold e2. rewrite with_section_getshdr by lia.
    rewrite decide_False by lia. rewrite decide_True by reflexivity. eauto. }
  assert (∃ name_off',
            gelf_getshdr e3 (S (length (elf_scns e1)))
            = Some (added_shdr name_off' SHT_RELA 0))
    as [name_off' Hrel].
  { unfold e3. rewrite with_section_getshdr by lia.
    rewrite decide_False by lia. rewrite decide_True by lia. eauto. }
  assert (length (instance_records e' (length (elf_scns e))) = length plist)
    as Hcount.
  { unfold instance_records.
    rewrite (section_bytes_instances _ _ _ Hdata), records_of_instances.
    apply length_fmap. }
  exists name_off, name_off'. rewrite Hcount, <- Hlen.
  split.
  { destruct (record_instances_header _ _ _ _ _ _ _ _ _ _ Hrec Hinst)
      as [-> | [-> _]]; [| contradiction].
    reflexivity. }
  split.
  { rewrite Hlen, (section_bytes_instances _ _ _ Hdata).
    apply length_instance_bytes. }
  split.
  { rewrite (record_instances_other_header _ _ _ _ _ _ _ _ _ _ Hrec) by lia.
    exact Hrel. }
  rewrite Hlen. exact Hrela.
Qed.

Lemma emitted_sections_witness :
  ∃ name_off name_off',
    gelf_getshdr (rewritten obj_call) (length (elf_scns obj_call))
    = Some (set_sh_size
              (added_shdr name_off SHT_PROGBITS SHF_ALLOC)
              (u64 (16 * Z.of_nat
                           (length (instance_records (rewritten obj_call)
                                      (length (elf_scns obj_call))))))) ∧
    length (section_bytes (rewritten obj_call) (length (elf_scns obj_call)))
    = (16 * length (instance_records (rewritten obj_call)
                      (length (elf_scns obj_call))))%nat ∧
    gelf_getshdr (rewritten obj_call) (S (length (elf_scns obj_call)))
    = Some (added_shdr name_off' SHT_RELA 0) ∧
    scn_data (rewritten obj_call) (S (length (elf_scns obj_call))) = [].
Proof.
  refine (emitted_sections false "" obj_call [] (rewritten obj_call) [] _).
  vm_compute. reflexivity.
Defined.

(** ** When a run that returns has written the object *)

Lemma process_elf_nothing_to_write obj e out' :
  process_elf true obj e [] = Ok (None, out') → rewritten_sites out' = [].
Proof.
  unfold process_elf. intros H.
  run_step H; [now simplify_eq |].
  run_step H. destruct a as [[e1 plist] out1]. cbn beta iota in H.
  destruct plist as [| inst plist].
  - simplify_eq.
    apply scan_sections_step in E0 as (_ & _ & new & Hnew & Hsites).
    cbn [fst snd app] in Hnew, Hsites. specialize (Hsites eq_refl).
    subst out1. unfold LOG. rewrite rewritten_sites_app. cbn [rewritten_sites omap].
    cbn [sites_of fmap list_fmap] in Hsites. rewrite app_nil_r in *.
    symmetry in Hsites. apply (f_equal (@rev _)) in Hsites.
    now rewrite rev_involutive in Hsites.
  - repeat first
      [ run_step H
      | match type of H with
        | (let '(_, _) := ?x in _) = _ => destruct x
        end ];
      try discriminate.
Qed.

(** X26: a run of [process_obj] that returns has written the object
    exactly when it rewrote a call site.  A run with [-v] on an ELF
    object that returns either reports no rewritten site and leaves the
    files as they were, or reports some and writes the object with two
    more sections, the first of them holding one record for each site
    reported.  Nothing is said of a run that ends in an error; such a
    run may have reported rewritten sites. *)
Theorem returning_run_writes_iff_site_rewritten obj fs e fs' out' :
  fs obj = Some (ElfFile e) →
  process_obj true obj fs [] = Ok (fs', out') →
  rewritten_sites out' = [] ∧ fs' = fs
  ∨ rewritten_sites out' ≠ [] ∧
    ∃ e', fs' = write_file fs obj (ElfFile e') ∧
          length (elf_scns e') = S (S (length (elf_scns e))) ∧
          length (instance_records e' (length (elf_scns e)))
          = length (rewritten_sites out').
Proof.
  intros Hf H. unfold process_obj in H. rewrite Hf in H.
  destruct (process_elf true obj e []) as [[[e' |] out1] | |] eqn:Hrun;
    cbn beta iota delta [mbind result_bind] in H; simplify_eq.
  - right.
    pose proof (process_elf_Ok _ _ _ _ _ _ Hrun)
      as (_ & _ & _ & _ & _ & Hlen & _).
    pose proof (no_relocation_is_emitted _ _ _ _ _ _ Hrun) as [_ Hne].
    apply records_follow_instance_list in Hrun
      as (_ & _ & _ & _ & _ & Hrec).
    destruct (Hrec eq_refl) as (new & Hnew & Hrecs). cbn [app] in Hnew.
    subst new.
    assert (length (instance_records e' (length (elf_scns e)))
            = length (rewritten_sites out')) as Hcount.
    { rewrite Hrecs, length_fmap. apply length_rev. }
    split.
    + intros Hnil. rewrite Hnil in Hrecs. now apply Hne.
    + exists e'. auto.
  - left. split; [| reflexivity].
    now apply process_elf_nothing_to_write in Hrun.
Qed.

Lemma returning_run_writes_iff_site_rewritten_witness :
  rewritten_sites (run_log obj_call) = [] ∧
  write_file sample_files "call.o" (ElfFile (rewritten obj_call)) = sample_files
  ∨ rewritten_sites (run_log obj_call) ≠ [] ∧
    ∃ e', write_file sample_files "call.o" (ElfFile (rewritten obj_call))
          = write_file sample_files "call.o" (ElfFile e') ∧
          length (elf_scns e') = S (S (length (elf_scns obj_call))) ∧
          length (instance_records e' (length (elf_scns obj_call)))
          = length (rewritten_sites (run_log obj_call)).
Proof.
  refine (returning_run_writes_iff_site_rewritten "call.o"%string sample_files
            obj_call
            (write_file sample_files "call.o" (ElfFile (rewritten obj_call)))
            (run_log obj_call) _ _).
  - reflexivity.
  - vm_compute. reflexivity.
Defined.

(** ** The relocations after the scan *)

Lemma reloc_at_updated_rel d i rel x j off info :
  gelf_getrel d i = Some rel →
  reloc_at d j = Some (off, info) →
  reloc_at (set_d_dirty
              (gelf_update_rel d i {| r_offset := r_offset rel; r_info := x |}))
           j
  = Some (off, if decide (j = i) then x else info).
Proof.
  unfold reloc_at, gelf_update_rel, gelf_getrel.
  destruct (d_buf d) as [| l | |] eqn:Hb; try discriminate.
  cbn [set_d_dirty set_d_buf d_buf].
  destruct (Z.leb_spec 0 i); [| discriminate].
  destruct (Z.leb_spec 0 j); [| discriminate].
  intros Hi Hj. destruct (decide (j = i)) as [-> | Hne].
  - rewrite list_lookup_insert_eq by eauto using lookup_lt_Some.
    rewrite Hi in Hj. cbn in *. now simplify_eq.
  - rewrite list_lookup_insert_ne by lia. exact Hj.
Qed.

Lemma reloc_at_updated_rela d i rela x j off info :
  gelf_getrela d i = Some rela →
  reloc_at d j = Some (off, info) →
  reloc_at (set_d_dirty
              (gelf_update_rela d i {| ra_offset := ra_offset rela; ra_info := x;
                                       ra_addend := ra_addend rela |}))
           j
  = Some (off, if decide (j = i) then x else info).
Proof.
  unfold reloc_at, gelf_update_rela, gelf_getrela.
  destruct (d_buf d) as [| | l |] eqn:Hb; try discriminate.
  cbn [set_d_dirty set_d_buf d_buf].
  destruct (Z.leb_spec 0 i); [| discriminate].
  destruct (Z.leb_spec 0 j); [| discriminate].
  intros Hi Hj. destruct (decide (j = i)) as [-> | Hne].
  - rewrite list_lookup_insert_eq by eauto using lookup_lt_Some.
    rewrite Hi in Hj. cbn in *. now simplify_eq.
  - rewrite list_lookup_insert_ne by lia. exact Hj.
Qed.

Lemma process_entry_relocs verbose ehdr shdr symshdr symscn targdata reldata i
    e plist out e' plist' out' p d j off info :
  process_entry verbose ehdr shdr symshdr symscn targdata reldata i
                (e, plist, out) = Ok (e', plist', out') →
  get_data e p = Some d →
  reloc_at d j = Some (off, info) →
  ∃ d' info',
    get_data e' p = Some d' ∧ reloc_at d' j = Some (off, info') ∧
    (info' = info ∨ info' = neutralized info).
Proof.
  intros Hrun Hd Hat.
  pose proof (process_entry_Ok _ _ _ _ _ _ _ _ _ _ _ _ _ _ Hrun)
    as (rd & td & off0 & info0 & ret & target' & info' & Hrd & Htd & Hat0
        & Hrel & Hcase).
  destruct Hcase as [[_ ->] | (-> & Hne & _ & Htd' & Hother & _)].
  { exists d, info. auto. }
  pose proof Hrel as Hrel'.
  apply process_rel_rewritten in Hrel'
    as (sym & name & _ & _ & _ & _ & _ & Hsite & _).
  pose proof (rewrite_site_nonempty _ _ _ _ _ _ Hsite) as Hnonempty.
  apply rewrite_site_Ok in Hsite as (_ & opc & _ & _ & _ & _ & _ & Hinfo).
  destruct (decide (p = targdata)) as [-> | Hpt].
  { exfalso. assert (d = td) as -> by congruence.
    unfold reloc_at in Hat. destruct (d_buf td); try discriminate;
      now apply Hnonempty. }
  destruct (decide (p = reldata)) as [-> | Hpr].
  2: { rewrite Hother by assumption. exists d, info. auto. }
  assert (d = rd) as -> by congruence.
  unfold process_entry in Hrun. rewrite Hrd, Htd in Hrun.
  cbn [deref mbind result_bind] in Hrun.
  run_step Hrun.
  - run_step Hrun. rename a into rel.
    run_step Hrun. destruct a as [[[[ret t'] i'] pl] o]. cbn beta iota in Hrun.
    apply or_errx_Ok in E0.
    destruct (getrel_reloc_at _ _ _ E0) as [Hat' _].
    assert (off0 = r_offset rel ∧ info0 = r_info rel) as [-> ->]
      by (split; congruence).
    rewrite E1 in Hrel. simplify_eq.
    run_step Hrun; [| discriminate]. simplify_eq.
    rewrite !get_data_update_data.
    rewrite !(decide_True (P := reldata = reldata)) by reflexivity.
    rewrite !(decide_False (P := targdata = reldata)) by assumption.
    match goal with
    | Hx : get_data e reldata = Some rd |- _ => rewrite Hx
    end.
    cbn [fmap option_fmap option_map].
    eexists _, _. split; [reflexivity |]. split.
    + eapply reloc_at_updated_rel; eassumption.
    + destruct (decide (j = i)) as [-> | _]; [| auto].
      right. f_equal. congruence.
  - run_step Hrun. run_step Hrun. rename a into rela.
    run_step Hrun. destruct a as [[[[ret t'] i'] pl] o]. cbn beta iota in Hrun.
    apply or_errx_Ok in E1.
    destruct (getrela_reloc_at _ _ _ E1) as [Hat' _].
    assert (off0 = ra_offset rela ∧ info0 = ra_info rela) as [-> ->]
      by (split; congruence).
    rewrite E2 in Hrel. simplify_eq.
    run_step Hrun; [| discriminate]. simplify_eq.
    rewrite !get_data_update_data.
    rewrite !(decide_True (P := reldata = reldata)) by reflexivity.
    rewrite !(decide_False (P := targdata = reldata)) by assumption.
    match goal with
    | Hx : get_data e reldata = Some rd |- _ => rewrite Hx
    end.
    cbn [fmap option_fmap option_map].
    eexists _, _. split; [reflexivity |]. split.
    + eapply reloc_at_updated_rela; eassumption.
    + destruct (decide (j = i)) as [-> | _]; [| auto].
      right. f_equal. congruence.
Qed.

(** X27: the scan keeps every relocation of the object.  An entry that
    was at a position of a relocation buffer is still there afterwards,
    with the offset and the symbol index it had; its info word is as it
    was, or its type is [R_X86_64_NONE]. *)
Theorem scan_keeps_relocations verbose scns ehdr e plist out e' plist' out'
    p d j off info :
  scan_sections verbose scns ehdr (e, plist, out) = Ok (e', plist', out') →
  get_data e p = Some d →
  reloc_at d j = Some (off, info) →
  0 <= info < 2 ^ 64 →
  ∃ d' info',
    get_data e' p = Some d' ∧ reloc_at d' j = Some (off, info') ∧
    GELF_R_SYM info' = GELF_R_SYM info ∧
    (info' = info ∨ GELF_R_TYPE info' = R_X86_64_NONE).
Proof.
  intros H Hd Hat Hrange.
  set (R := fun st st' : Elf * list probe_instance * list msg =>
              ∀ d info, get_data st.1.1 p = Some d →
                        reloc_at d j = Some (off, info) →
                        0 <= info < 2 ^ 64 →
                        ∃ d' info',
                          get_data st'.1.1 p = Some d' ∧
                          reloc_at d' j = Some (off, info') ∧
                          0 <= info' < 2 ^ 64 ∧
                          GELF_R_SYM info' = GELF_R_SYM info ∧
                          (info' = info ∨ GELF_R_TYPE info' = R_X86_64_NONE)).
  assert (R (e, plist, out) (e', plist', out')) as HR.
  2: { destruct (HR d info Hd Hat Hrange) as (d' & info' & ? & ? & _ & ? & ?).
       eauto 6. }
  refine (scan_sections_invariant verbose R _ _ _ _ scns ehdr _ _ H);
    unfold R; clear.
  - intros st d0 info0 ? ? ?. exists d0, info0. auto 6.
  - intros st0 st1 st2 H1 H2 d0 info0 Hd0 Hat0 Hr0.
    destruct (H1 d0 info0 Hd0 Hat0 Hr0) as (d1 & info1 & Hd1 & Hat1 & Hr1 & Hs1 & Ht1).
    destruct (H2 d1 info1 Hd1 Hat1 Hr1) as (d2 & info2 & Hd2 & Hat2 & Hr2 & Hs2 & Ht2).
    exists d2, info2. split; [assumption |]. split; [assumption |].
    split; [assumption |]. split; [congruence |].
    destruct Ht2 as [-> | Ht2]; auto.
  - intros ??????? [[e0 pl0] o0] [[e1 pl1] o1] Hrun d0 info0 Hd0 Hat0 Hr0.
    cbn [fst snd] in *.
    destruct (process_entry_relocs _ _ _ _ _ _ _ _ _ _ _ _ _ _ _ _ _ _ _
                                   Hrun Hd0 Hat0)
      as (d1 & info1 & Hd1 & Hat1 & [-> | ->]).
    + exists d1, info0. auto 6.
    + exists d1, (neutralized info0).
      split; [assumption |]. split; [assumption |].
      split; [apply neutralized_range |].
      split; [now apply neutralized_sym |].
      right. apply neutralized_type.
  - intros e0 pl0 o0 m d0 info0 ? ? ?. exists d0, info0. auto 6.
Qed.

Lemma scan_keeps_relocations_witness :
  ∃ d' info',
    get_data (scanned obj_call) (2%nat, 0%nat) = Some d' ∧
    reloc_at d' 0 = Some (0x10, info') ∧
    GELF_R_SYM info' = GELF_R_SYM (Z.lor (Z.shiftl 2 32) R_X86_64_PLT32) ∧
    (info' = Z.lor (Z.shiftl 2 32) R_X86_64_PLT32
     ∨ GELF_R_TYPE info' = R_X86_64_NONE).
Proof.
  refine (scan_keeps_relocations true (elf_sections obj_call)
            (elf_ehdr obj_call) obj_call [] [] (scanned obj_call)
            [{| symname := stub_lookup; offset := 0x10 |}]
            [M_updated stub_lookup 0xf;
             M_skipping (cstr "set_sdt_probes_set")]
            (2%nat, 0%nat)
            (mk_data (BRela [mk_rela 0x10 2 R_X86_64_PLT32]) ELF_T_RELA)
            0 0x10 (Z.lor (Z.shiftl 2 32) R_X86_64_PLT32) _ _ _ _);
    try (vm_compute; reflexivity).
  vm_compute. intuition congruence.
Defined.

(** ** The rest of a written object, and objects without relocations *)

Lemma record_instances_ehdr verbose plist ehdr instscn relscn : ∀ e out e' out',
  record_instances verbose plist e ehdr instscn relscn out = Ok (e', out') →
  elf_ehdr e' = elf_ehdr e.
Proof.
  induction plist as [| inst plist IH]; intros e out e' out' H;
    cbn [record_instances] in H.
  - now simplify_eq.
  - run_step H. destruct a as [e1 out1]. cbn beta iota in H.
    rewrite (IH _ _ _ _ H).
    now apply record_instance_object in E as (h & _ & ->).
Qed.

Lemma scan_sections_layout verbose scns ehdr e plist out e' plist' out' :
  scan_sections verbose scns ehdr (e, plist, out) = Ok (e', plist', out') →
  layout_kept e e'.
Proof.
  intros H.
  refine (scan_sections_invariant verbose
            (fun st st' => layout_kept st.1.1 st'.1.1) _ _ _ _ scns ehdr _ _ H).
  - intros st. apply layout_kept_refl.
  - intros st0 st1 st2. apply layout_kept_trans.
  - intros ??????? [[e0 pl0] o0] [[e1 pl1] o1] Hrun.
    now apply process_entry_layout in Hrun.
  - intros. apply layout_kept_refl.
Qed.

(** X28: apart from the section header string table and the two
    sections added at the end, a written object has the sections of the
    input: each keeps the header it had, and its data is what the scan
    left; the ELF header is that of the input. *)
Theorem written_object_keeps_sections verbose obj e out e' out' e1 plist out1
    scn :
  process_elf verbose obj e out = Ok (Some e', out') →
  scan_sections verbose (elf_sections e) (elf_ehdr e) (e, [], out)
    = Ok (e1, plist, out1) →
  (scn < length (elf_scns e))%nat →
  Z.of_nat scn ≠ elf_shstrndx e →
  elf_ehdr e' = elf_ehdr e ∧
  gelf_getshdr e' scn = gelf_getshdr e scn ∧
  scn_data e' scn = scn_data e1 scn.
Proof.
  intros H Hscan1 Hlt Hstr.
  apply process_elf_runs in H
    as (e1' & plist' & out1' & e2 & instscn & out2 & e3 & instrelscn & out3 & _
        & Hscan & _ & Hadd1 & Hadd2 & Hrec).
  assert (e1' = e1 ∧ plist' = plist ∧ out1' = out1) as (-> & -> & ->)
    by (repeat split; congruence).
  clear Hscan1.
  apply scan_sections_layout in Hscan as (Hehdr & Hndx & Hlen & Hhdr & _).
  destruct (add_section_cases verbose e1 (cstr "set_sdt_instance_set")
              SHT_PROGBITS SHF_ALLOC out1)
    as [[_ H'] | [(s1 & _ & _ & H')
                 | (s1 & h1 & d1 & ds1 & Hs1 & _ & _ & H')]];
    rewrite H' in Hadd1; try discriminate.
  injection Hadd1 as <- <- <-. clear H'.
  destruct (add_section_cases verbose
              (with_section e1 s1 h1 d1 (cstr "set_sdt_instance_set")
                            SHT_PROGBITS SHF_ALLOC)
              (cstr ".relaset_sdt_instance_set") SHT_RELA 0
              (LOG verbose (M_added_section (cstr "set_sdt_instance_set")) out1))
    as [[_ H'] | [(s2 & _ & _ & H')
                 | (s2 & h2 & d2 & ds2 & Hs2 & _ & _ & H')]];
    rewrite H' in Hadd2; try discriminate.
  injection Hadd2 as <- <- <-. clear H'.
  pose proof (elf_getscn_range _ _ _ Hs1) as [Hr1 _].
  apply elf_getscn_Some in Hs1 as [-> Hlt1].
  apply elf_getscn_Some in Hs2 as [Hs2 Hlt2].
  change (elf_shstrndx (with_section _ _ _ _ _ _ _))
    with (elf_shstrndx e1) in Hs2.
  subst s2. rewrite with_section_length in Hlt2.
  assert (scn ≠ Z.to_nat (elf_shstrndx e1)) as Hne.
  { rewrite Hndx in *. intros ->. apply Hstr. rewrite Z2Nat.id; lia. }
  pose proof (record_instances_Ok _ _ _ _ _ _ _ _ _ Hrec) as (_ & Hdata & _).
  split.
  { rewrite (record_instances_ehdr _ _ _ _ _ _ _ _ _ Hrec). exact Hehdr. }
  split.
  - rewrite (record_instances_other_header _ _ _ _ _ _ _ _ _ _ Hrec) by lia.
    rewrite with_section_getshdr by (rewrite with_section_length; lia).
    rewrite decide_False by exact Hne.
    rewrite decide_False by (rewrite with_section_length; lia).
    rewrite with_section_getshdr by lia.
    rewrite decide_False by exact Hne.
    rewrite decide_False by lia. apply Hhdr.
  - rewrite Hdata by lia.
    rewrite with_section_data by (rewrite with_section_length; lia).
    rewrite decide_False by exact Hne.
    rewrite with_section_data by lia.
    now rewrite decide_False by exact Hne.
Qed.

Lemma written_object_keeps_sections_witness :
  elf_ehdr (rewritten obj_call) = elf_ehdr obj_call ∧
  gelf_getshdr (rewritten obj_call) 1%nat = gelf_getshdr obj_call 1%nat ∧
  scn_data (rewritten obj_call) 1%nat = scn_data (scanned obj_call) 1%nat.
Proof.
  refine (written_object_keeps_sections true "" obj_call []
            (rewritten obj_call)
            [M_updated stub_lookup 0xf;
             M_skipping (cstr "set_sdt_probes_set");
             M_added_section (cstr "set_sdt_instance_set");
             M_added_section (cstr ".relaset_sdt_instance_set");
             M_found 0 stub_lookup]
            (scanned obj_call)
            [{| symname := stub_lookup; offset := 0x10 |}]
            [M_updated stub_lookup 0xf;
             M_skipping (cstr "set_sdt_probes_set")]
            1%nat _ _ _ _).
  - vm_compute. reflexivity.
  - vm_compute. reflexivity.
  - vm_compute. lia.
  - vm_compute. discriminate.
Defined.

Lemma scan_without_relocations verbose ehdr e plist out : ∀ scns,
  (∀ scn, scn ∈ scns → (scn < length (elf_scns e))%nat) →
  (∀ scn shdr, gelf_getshdr e scn = Some shdr →
               sh_type shdr ≠ SHT_REL ∧ sh_type shdr ≠ SHT_RELA) →
  scan_sections verbose scns ehdr (e, plist, out) = Ok (e, plist, out).
Proof.
  induction scns as [| scn scns IH]; intros Hin Hty; [reflexivity |].
  cbn [scan_sections].
  destruct (getshdr_is_Some e scn) as [shdr Hh].
  { apply Hin. now left. }
  rewrite Hh. cbn [or_errx mbind result_bind].
  destruct (Hty _ _ Hh) as [Hrel Hrela].
  apply Z.eqb_neq in Hrel, Hrela. rewrite Hrel, Hrela.
  cbn [orb mbind result_bind]. apply IH; [| exact Hty].
  intros s Hs. apply Hin. now right.
Qed.

(** X29: a relocatable object without a section of type [SHT_REL] or
    [SHT_RELA] is run through without an error and is not written: no
    section is looked into, and the only message is the one [-v] gives
    for an object without probes. *)
Theorem object_without_relocations_is_left_alone verbose obj e out :
  e_type (elf_ehdr e) = ET_REL →
  (∀ scn shdr, gelf_getshdr e scn = Some shdr →
               sh_type shdr ≠ SHT_REL ∧ sh_type shdr ≠ SHT_RELA) →
  process_elf verbose obj e out = Ok (None, LOG verbose (M_no_probes obj) out).
Proof.
  intros Hrel Hty. unfold process_elf.
  rewrite Hrel. cbn [Z.eqb negb].
  change (ET_REL =? ET_REL) with true. cbn [negb].
  rewrite scan_without_relocations; [reflexivity | | exact Hty].
  intros scn Hscn. unfold elf_sections in Hscn.
  apply elem_of_seq in Hscn. lia.
Qed.

Lemma object_without_relocations_is_left_alone_witness :
  process_elf true "plain.o" obj_plain []
  = Ok (None, LOG true (M_no_probes "plain.o") []).
Proof.
  refine (object_without_relocations_is_left_alone true "plain.o"%string
            obj_plain [] _ _).
  - reflexivity.
  - intros [| [| [| scn]]] shdr H; vm_compute in H; simplify_eq;
      split; discriminate.
Defined.
